(** * ProxyFormController (proxy_form_controller.js)

    A shallow embedding of the controller that synchronises the proxy
    configuration form with the two proxy profiles (regular, incognito) of
    the browser, and the properties of its render / extract / load / apply /
    profile-switch operations, of its constructor and of its click
    dispatcher.

    Conventions of the embedding.
    - A JavaScript string is a [string]: a sequence of code units, each below
      256 and read as a Latin-1 code point.
    - A JavaScript number that the controller handles is a port: NaN, an
      integer that a double holds exactly, or an infinity.  It is an
      [option Z]: [None] is NaN, [Some z] is the integer [z], and
      [Some (2 ^ 1024)], [Some (- 2 ^ 1024)] stand for the two infinities.
    - [null] and [undefined] are both the [None] of an option: the code
      only ever tests them with [== null], [!x] and [if (x)].
    - The page (popup.html) is not part of the sources; the document is a
      value of type [Document] that every operation takes as it is.
    - An [async] function is run in program order: every awaited promise is
      settled by the browser (the [Chrome] record) before the next statement. *)

From Stdlib Require Import String Ascii List ZArith Bool Lia.
From Stdlib Require Import DecimalString DecimalPos.
Import ListNotations.
Open Scope string_scope.

Set Implicit Arguments.

(** ** The JavaScript primitives the controller relies on *)

Module Js.

(** ToBoolean of a string: only the empty string is falsy. *)
Definition truthy (s : string) : bool :=
  match s with
  | EmptyString => false
  | String _ _ => true
  end.

(** ToBoolean of an optional string property ([undefined] is falsy). *)
Definition truthy_opt (o : option string) : bool :=
  match o with
  | Some s => truthy s
  | None => false
  end.

(** ToBoolean of a number: 0 and NaN are falsy. *)
Definition truthy_num (n : option Z) : bool :=
  match n with
  | Some z => negb (z =? 0)%Z
  | None => false
  end.

(** WhiteSpace and LineTerminator code points below 256:
    TAB, LF, VT, FF, CR, SP and NBSP. *)
Definition isStrWhiteSpaceChar (c : ascii) : bool :=
  let n := nat_of_ascii c in
  ((n =? 9) || (n =? 10) || (n =? 11) || (n =? 12) || (n =? 13)
   || (n =? 32) || (n =? 160))%nat.

(** LineTerminator code points below 256: LF and CR. *)
Definition isLineTerminator (c : ascii) : bool :=
  let n := nat_of_ascii c in
  ((n =? 10) || (n =? 13))%nat.

Fixpoint trimStart (s : string) : string :=
  match s with
  | String c r => if isStrWhiteSpaceChar c then trimStart r else s
  | EmptyString => EmptyString
  end.

Definition digit (c : ascii) : option Z :=
  let n := nat_of_ascii c in
  if ((48 <=? n) && (n <=? 57))%nat then Some (Z.of_nat (n - 48)) else None.

(** The value of the longest prefix of decimal digits; [acc] is the value
    of the digits read so far, [None] when none has been read. *)
Fixpoint digits (s : string) (acc : option Z) : option Z :=
  match s with
  | String c r =>
      match digit c with
      | Some d =>
          digits r (Some (match acc with
                          | Some a => 10 * a + d
                          | None => d
                          end)%Z)
      | None => acc
      end
  | EmptyString => acc
  end.

(** The integer that stands for +Infinity: the first power of two that no
    finite double reaches. *)
Definition infinity : Z := 2 ^ 1024.

(** The Number value of an integer: the double nearest to it, the one with
    an even significand when two are as near; an infinity from
    2^1024 - 2^970 on.  The integers below 2^53 are doubles. *)
Definition to_double (z : Z) : Z :=
  let a := Z.abs z in
  if (a <? 2 ^ 53)%Z then z
  else
    let shift := (Z.log2 a - 52)%Z in
    let q := Z.shiftr a shift in
    let r := (a - Z.shiftl q shift)%Z in
    let half := Z.shiftl 1 (shift - 1) in
    let q' := if (half <? r)%Z || ((r =? half)%Z && Z.odd q)
              then (q + 1)%Z else q in
    let v := Z.shiftl q' shift in
    (Z.sgn z * (if (infinity <=? v)%Z then infinity else v))%Z.

(** The steps of [parseInt(s, 10)] up to the mathematical integer: leading
    white space is skipped, one sign is accepted, the longest prefix of
    decimal digits is read; [None] when there is no digit. *)
Definition parseInt_mathInt (s : string) : option Z :=
  match trimStart s with
  | String "-" r => option_map Z.opp (digits r None)
  | String "+" r => digits r None
  | t => digits t None
  end.

(** [parseInt(s, 10)]: NaN ([None]) when there is no digit, and else the
    Number value of the integer that is read.  (The language lets an
    engine approximate past the 20th significant digit; the engine of the
    browser rounds the exact integer.) *)
Definition parseInt (s : string) : option Z :=
  option_map to_double (parseInt_mathInt s).

(** The decimal notation of an integer, with all its digits. *)
Definition decimal (z : Z) : string :=
  NilZero.string_of_int (Z.to_int z).

Fixpoint zeros (n : nat) : string :=
  match n with
  | O => ""
  | S m => String "0" (zeros m)
  end.

(** The digits of Number::toString for a finite [x] from 2^53 on that has
    [n] decimal digits: the least [k] and the [s] of [k] digits such that
    [s * 10 ^ (n - k)] has the Number value [x]; of two such [s], the one
    whose value is nearer to [x], and the even one when they are as near.
    Only the two multiples of [10 ^ (n - k)] around [x] can be nearest.
    [k] is tried from 1 on; with [n] digits [x] itself is found. *)
Fixpoint shortest (fuel : nat) (k : Z) (x n : Z) : Z * Z :=
  match fuel with
  | O => (x, n)
  | S fuel' =>
      let u := (10 ^ (n - k))%Z in
      let lo := (x / u)%Z in
      let hi := (lo + 1)%Z in
      let ok_lo := (to_double (lo * u) =? x)%Z in
      let ok_hi := (hi <? 10 ^ k)%Z && (to_double (hi * u) =? x)%Z in
      if ok_lo && ok_hi then
        if (x - lo * u <? hi * u - x)%Z then (lo, k)
        else if (hi * u - x <? x - lo * u)%Z then (hi, k)
        else if Z.even lo then (lo, k) else (hi, k)
      else if ok_lo then (lo, k)
      else if ok_hi then (hi, k)
      else shortest fuel' (k + 1)%Z x n
  end.

(** Number::toString of a Number [x] from 2^53 on.  When the power of ten
    above [x] has the Number value [x], the digits are those of that power:
    a single 1.  Up to 21 digits the notation is the digits followed by
    zeros, beyond it is the exponent notation. *)
Definition NumberToString_large (x : Z) : string :=
  if (infinity <=? x)%Z then "Infinity"
  else
    let n := Z.of_nat (String.length (decimal x)) in
    let '(s, k, n) :=
      if (to_double (10 ^ n) =? x)%Z then (1%Z, 1%Z, (n + 1)%Z)
      else let '(s, k) := shortest (Z.to_nat n) 1 x n in (s, k, n) in
    if (n <=? 21)%Z then decimal s ++ zeros (Z.to_nat (n - k))
    else
      match decimal s with
      | String d EmptyString => String d ("e+" ++ decimal (n - 1))
      | String d rest => String d ("." ++ rest ++ "e+" ++ decimal (n - 1))
      | EmptyString => EmptyString
      end.

(** Number::toString of a Number that is an integer or an infinity: all
    the digits below 2^53. *)
Definition NumberToString (z : Z) : string :=
  if (Z.abs z <? 2 ^ 53)%Z then decimal z
  else if (z <? 0)%Z then "-" ++ NumberToString_large (- z)
  else NumberToString_large z.

(** [Array.prototype.join] on an array of strings. *)
Definition join (sep : string) (l : list string) : string :=
  String.concat sep l.

Fixpoint trimEnd (s : string) : string :=
  match s with
  | String c r =>
      match trimEnd r with
      | EmptyString => if isStrWhiteSpaceChar c then EmptyString
                       else String c EmptyString
      | t => String c t
      end
  | EmptyString => EmptyString
  end.

Fixpoint all_digits (s : string) : bool :=
  match s with
  | String c r =>
      match digit c with
      | Some _ => all_digits r
      | None => false
      end
  | EmptyString => true
  end.

(** StringToNumber on signed decimal integer literals, the fragment of
    StrNumericLiteral that the comparisons of this file can meet: white
    space is trimmed at both ends, the empty string is 0, an optional sign
    followed by decimal digits only is that integer, and anything else is
    NaN here.  Fractions, exponents, [Infinity] and the 0x/0o/0b literals
    are outside the fragment. *)
Definition StringToNumber (s : string) : option Z :=
  match trimEnd (trimStart s) with
  | EmptyString => Some 0%Z
  | String "-" r => if all_digits r then option_map Z.opp (digits r None) else None
  | String "+" r => if all_digits r then digits r None else None
  | t => if all_digits t then digits t None else None
  end.

(** Number::equal: NaN is equal to nothing. *)
Definition number_equal (x y : option Z) : bool :=
  match x, y with
  | Some a, Some b => (a =? b)%Z
  | _, _ => false
  end.

(** [b == s] for a boolean [b] and a string [s] (IsLooselyEqual): the
    boolean becomes the number 0 or 1, the string goes through
    StringToNumber, and the two numbers are compared. *)
Definition loose_eq_bool_string (b : bool) (s : string) : bool :=
  number_equal (Some (if b then 1 else 0)%Z) (StringToNumber s).

(** *** [String.prototype.split] with the separator of the bypass list

    The separator is the regular expression [/\s*(?:,|^)\s*/m]. *)

Fixpoint drop (n : nat) (s : string) : string :=
  match n, s with
  | O, _ => s
  | S n', String _ r => drop n' r
  | S _, EmptyString => EmptyString
  end.

(** Length of the longest prefix of [\s] characters. *)
Fixpoint wsrun (s : string) : nat :=
  match s with
  | String c r => if isStrWhiteSpaceChar c then S (wsrun r) else O
  | EmptyString => O
  end.

Fixpoint has_line_terminator (n : nat) (s : string) : bool :=
  match n, s with
  | S n', String c r => isLineTerminator c || has_line_terminator n' r
  | _, _ => false
  end.

(** [^] with the [m] flag holds at index [k] when [k] is 0 or the
    character before [k] is a line terminator. *)
Definition line_start (s : string) (k : nat) : bool :=
  match k with
  | O => true
  | S k' =>
      match get k' s with
      | Some c => isLineTerminator c
      | None => false
      end
  end.

Definition is_comma (c : option ascii) : bool :=
  match c with
  | Some c => Ascii.eqb c ","
  | None => false
  end.

(** The match of [\s*(?:,|^)\s*] anchored at index [q]; the result is
    the end index of the match.  The first [\s*] is greedy and reaches
    [m]; a comma can only stand at [m] (the characters before it are white
    space), and then the second [\s*] takes the white space after it.
    Otherwise the first [\s*] gives characters back until [^] holds at
    some index of [q..m], and the second [\s*] runs to [m] again. *)
Definition match_at (s : string) (q : nat) : option nat :=
  let m := q + wsrun (drop q s) in
  if is_comma (get m s) then Some (m + 1 + wsrun (drop (m + 1) s))
  else if line_start s q || has_line_terminator (m - q) (drop q s)
       then Some m
       else None.

(** The loop of the split algorithm: [p] is the start of the current
    piece, [q] the index where a separator is looked for, [A] the pieces
    found so far.  An empty match at [p] moves on by one character. *)
Fixpoint split_loop (fuel : nat) (s : string) (p q : nat) (A : list string)
  : option (list string) :=
  match fuel with
  | O => None
  | S fuel' =>
      if (q <? String.length s)%nat then
        match match_at s q with
        | None => split_loop fuel' s p (q + 1) A
        | Some e =>
            if (e =? p)%nat then split_loop fuel' s p (q + 1) A
            else split_loop fuel' s e e (A ++ [substring p (q - p) s])%list
        end
      else Some (A ++ [substring p (String.length s - p) s])%list
  end.

Definition split_fuel (s : string) : nat := 2 * String.length s + 2.

(** [s.split(/\s*(?:,|^)\s*/m)].  The empty string gives the empty
    array, because the separator matches it. *)
Definition split (s : string) : list string :=
  match s with
  | EmptyString =>
      match match_at s 0 with
      | Some _ => []
      | None => [s]
      end
  | _ =>
      match split_loop (split_fuel s) s 0 0 [] with
      | Some A => A
      | None => []
      end
  end.

(** The measure that every turn of the loop decreases. *)
Definition split_measure (s : string) (p q : nat) : nat :=
  2 * (String.length s - q) + (if (p =? q)%nat then 0 else 1).

End Js.

(** ** Constants of the controller *)

(** [ProxyFormController.ProxyTypes]. *)
Module ProxyTypes.
Definition AUTO := "auto_detect".
Definition PAC := "pac_script".
Definition DIRECT := "direct".
Definition FIXED := "fixed_servers".
Definition SYSTEM := "system".
End ProxyTypes.

(** [ProxyFormController.RestrictRtcTypes]. *)
Module RestrictRtcTypes.
Definition DEFAULT := "default".
Definition RESTRICT := "disable_non_proxied_udp".
End RestrictRtcTypes.

(** [ProxyFormController.LevelOfControl]. *)
Module LevelOfControl.
Definition AVAILABLE := "controllable_by_this_extension".
Definition CONTROLLING := "controlled_by_this_extension".
End LevelOfControl.

(** [ProxyFormController.WindowTypes]; here it also names which of the two
    configuration objects of the controller a reference points to. *)
Inductive WindowTypes := REGULAR | INCOGNITO.

(** ** The proxy configuration objects of the browser API

    Every property that the API or the controller may leave out is an
    option. *)

Record ProxyServer := {
  scheme : string;
  host : string;
  port : Z
}.

Record PacScript := {
  url : option string;
  data : option string;
  mandatory : option bool
}.

Record ProxyRules := {
  singleProxy : option ProxyServer;
  proxyForHttp : option ProxyServer;
  proxyForHttps : option ProxyServer;
  proxyForFtp : option ProxyServer;
  fallbackProxy : option ProxyServer;
  bypassList : option (list string)
}.

Record ProxyConfig := {
  mode : string;
  pacScript : option PacScript;
  rules : option ProxyRules
}.

(** [regularConfig_] and [incognitoConfig_]: both properties start as
    [null]. *)
Record Config := {
  proxy : option ProxyConfig;
  restrictRtc : option string
}.

Definition set_mode (m : string) (c : ProxyConfig) : ProxyConfig :=
  {| mode := m; pacScript := pacScript c; rules := rules c |}.

Definition set_proxy (v : option ProxyConfig) (c : Config) : Config :=
  {| proxy := v; restrictRtc := restrictRtc c |}.

Definition set_restrictRtc_of (v : option string) (c : Config) : Config :=
  {| proxy := proxy c; restrictRtc := v |}.

(** ** The document

    The part of the page that the controller reads and writes.  A group is
    one [fieldset] child of the form; its identity as a node is its position
    in [configGroups].  The class [active] is carried by groups only, and an
    element whose id is a proxy mode is a group. *)

Record Element := {
  nodeName : string
}.

(** An [input], [select] or [textarea] of a group; [radio] tells the
    [input type='radio'] elements from the others. *)
Record Input := {
  radio : bool;
  disabled : bool;
  checked : bool
}.

Record Fieldset := {
  fs_id : string;
  active : bool;
  inputs : list Input
}.

(** The three inputs [proxyScheme<Type>], [proxyHost<Type>] and
    [proxyPort<Type>]. *)
Record ProxyInputs := {
  proxyScheme : string;
  proxyHost : string;
  proxyPort : string
}.

(** The suffix of the ids above: ['Http'], ['Https'], ['Ftp'],
    ['Fallback']. *)
Inductive ProxyKind := Http | Https | Ftp | Fallback.

Record Document := {
  (** the elements that have an id, in document order, for
      [getElementById] in the constructor *)
  elements : list (string * Element);
  (** whether the page parses a string as a selector list: what
      [querySelectorAll] throws a [SyntaxError] on is the browser's to
      say *)
  selector_parses : string -> bool;
  (** the result of the selector [#formId > fieldset], for the form id of
      the controller that works on the page *)
  configGroups : list Fieldset;
  autoconfigURL_value : string;
  autoconfigData_value : string;
  bypassList_value : string;
  singleProxyForEverything_checked : bool;
  (** class [single] on the section that holds the checkbox *)
  single_class : bool;
  proxyHttp : ProxyInputs;
  proxyHttps : ProxyInputs;
  proxyFtp : ProxyInputs;
  proxyFallback : ProxyInputs;
  restrictRtc_checked : bool;
  (** class [incognito] on the parent of the form *)
  incognito_class : bool;
  (** [innerText] of the first [button], when there is one *)
  button_innerText : option string;
  (** [innerHTML] of the header element *)
  header_innerHTML : string
}.

(** ** Effects

    What an operation does to the world outside the document and the
    controller, in the order in which it does it. *)

Inductive Scope := regular_only | incognito_persistent.

Inductive Event :=
| PreventDefault
| StopPropagation
| AddEventListener (type : string)
| SendMessage (type : string)
| IsAllowedIncognitoAccess
| ProxyGet (incognito : bool)
| RtcGet (incognito : bool)
| ProxySet (scope : Scope) (value : option ProxyConfig) (ok : bool)
| RtcSet (scope : Scope) (value : option string) (ok : bool)
| Alert (msg : string)
| ConsoleError (msg : string)
| Invoke_readCurrentState_
| WindowClose.

Inductive Exn :=
| TypeError          (** a property of [null] or [undefined] was accessed *)
| Thrown (v : string)  (** a [throw] statement of the controller *)
| Rejected           (** a promise of the browser API was rejected *)
| SyntaxError.       (** [querySelectorAll] was given a selector that
                         does not parse *)

Inductive Outcome (A : Type) :=
| Return (a : A)
| Throw (e : Exn).

Arguments Throw {A} e.

(** A computation over a state [S]: its outcome, the state it leaves (also
    when it throws: nothing is rolled back) and the events it emits. *)
Definition M (S A : Type) : Type := S -> Outcome A * S * list Event.

Definition ret {S A} (a : A) : M S A := fun s => (Return a, s, []).

Definition bind {S A B} (m : M S A) (k : A -> M S B) : M S B :=
  fun s =>
    match m s with
    | (Return a, s1, ev1) =>
        match k a s1 with
        | (r, s2, ev2) => (r, s2, (ev1 ++ ev2)%list)
        end
    | (Throw e, s1, ev1) => (Throw e, s1, ev1)
    end.

Definition throw {S A} (e : Exn) : M S A := fun s => (Throw e, s, []).

Definition emit {S} (e : Event) : M S unit := fun s => (Return tt, s, [e]).

Definition gets {S A} (f : S -> A) : M S A := fun s => (Return (f s), s, []).

Definition modify {S} (f : S -> S) : M S unit := fun s => (Return tt, f s, []).

(** [try { body } catch (err) { handler }]. *)
Definition try_catch {S A} (body : M S A) (handler : Exn -> M S A) : M S A :=
  fun s =>
    match body s with
    | (Return a, s1, ev1) => (Return a, s1, ev1)
    | (Throw e, s1, ev1) =>
        match handler e s1 with
        | (r, s2, ev2) => (r, s2, (ev1 ++ ev2)%list)
        end
    end.

Declare Scope js_scope.
Delimit Scope js_scope with js.
Notation "x <- c1 ;; c2" := (bind c1 (fun x => c2))
  (at level 61, c1 at next level, right associativity) : js_scope.
Notation "c1 ;; c2" := (bind c1 (fun _ => c2))
  (at level 61, right associativity) : js_scope.
Open Scope js_scope.

Definition outcome {S A} (x : Outcome A * S * list Event) : Outcome A := fst (fst x).
Definition state {S A} (x : Outcome A * S * list Event) : S := snd (fst x).
Definition events {S A} (x : Outcome A * S * list Event) : list Event := snd x.

(** ** The controller *)

(** The properties of [this], together with the document it works on.
    [form_] is never [null] in a constructed controller (the constructor
    fails on it); [header_] may be. *)
Record World := {
  regularConfig_ : Config;
  incognitoConfig_ : Config;
  isAllowedIncognitoAccess_ : bool;
  header_ : option Element;
  form_ : Element;
  document : Document
}.

(** The browser API as the controller sees it: what each call answers. *)
Record GetDetails (V : Type) := {
  value : V;
  levelOfControl : string
}.

Record Chrome := {
  extension_isAllowedIncognitoAccess : bool;
  proxy_settings_get : bool -> GetDetails ProxyConfig;
  webRTCIPHandlingPolicy_get : bool -> GetDetails string;
  (** [false]: the promise of the call is rejected *)
  proxy_settings_set : Scope -> option ProxyConfig -> bool;
  webRTCIPHandlingPolicy_set : Scope -> option string -> bool;
  i18n_getMessage : string -> string
}.

(** *** Updates of the document and of the controller *)

Definition with_configGroups (v : list Fieldset) (d : Document) : Document :=
  {| elements := elements d; selector_parses := selector_parses d;
     configGroups := v;
     autoconfigURL_value := autoconfigURL_value d;
     autoconfigData_value := autoconfigData_value d;
     bypassList_value := bypassList_value d;
     singleProxyForEverything_checked := singleProxyForEverything_checked d;
     single_class := single_class d;
     proxyHttp := proxyHttp d; proxyHttps := proxyHttps d;
     proxyFtp := proxyFtp d; proxyFallback := proxyFallback d;
     restrictRtc_checked := restrictRtc_checked d;
     incognito_class := incognito_class d;
     button_innerText := button_innerText d;
     header_innerHTML := header_innerHTML d |}.

Definition with_autoconfigURL_value (v : string) (d : Document) : Document :=
  {| elements := elements d; selector_parses := selector_parses d;
     configGroups := configGroups d;
     autoconfigURL_value := v;
     autoconfigData_value := autoconfigData_value d;
     bypassList_value := bypassList_value d;
     singleProxyForEverything_checked := singleProxyForEverything_checked d;
     single_class := single_class d;
     proxyHttp := proxyHttp d; proxyHttps := proxyHttps d;
     proxyFtp := proxyFtp d; proxyFallback := proxyFallback d;
     restrictRtc_checked := restrictRtc_checked d;
     incognito_class := incognito_class d;
     button_innerText := button_innerText d;
     header_innerHTML := header_innerHTML d |}.

Definition with_autoconfigData_value (v : string) (d : Document) : Document :=
  {| elements := elements d; selector_parses := selector_parses d;
     configGroups := configGroups d;
     autoconfigURL_value := autoconfigURL_value d;
     autoconfigData_value := v;
     bypassList_value := bypassList_value d;
     singleProxyForEverything_checked := singleProxyForEverything_checked d;
     single_class := single_class d;
     proxyHttp := proxyHttp d; proxyHttps := proxyHttps d;
     proxyFtp := proxyFtp d; proxyFallback := proxyFallback d;
     restrictRtc_checked := restrictRtc_checked d;
     incognito_class := incognito_class d;
     button_innerText := button_innerText d;
     header_innerHTML := header_innerHTML d |}.

Definition with_bypassList_value (v : string) (d : Document) : Document :=
  {| elements := elements d; selector_parses := selector_parses d;
     configGroups := configGroups d;
     autoconfigURL_value := autoconfigURL_value d;
     autoconfigData_value := autoconfigData_value d;
     bypassList_value := v;
     singleProxyForEverything_checked := singleProxyForEverything_checked d;
     single_class := single_class d;
     proxyHttp := proxyHttp d; proxyHttps := proxyHttps d;
     proxyFtp := proxyFtp d; proxyFallback := proxyFallback d;
     restrictRtc_checked := restrictRtc_checked d;
     incognito_class := incognito_class d;
     button_innerText := button_innerText d;
     header_innerHTML := header_innerHTML d |}.

Definition with_singleProxyForEverything_checked (v : bool) (d : Document)
  : Document :=
  {| elements := elements d; selector_parses := selector_parses d;
     configGroups := configGroups d;
     autoconfigURL_value := autoconfigURL_value d;
     autoconfigData_value := autoconfigData_value d;
     bypassList_value := bypassList_value d;
     singleProxyForEverything_checked := v;
     single_class := single_class d;
     proxyHttp := proxyHttp d; proxyHttps := proxyHttps d;
     proxyFtp := proxyFtp d; proxyFallback := proxyFallback d;
     restrictRtc_checked := restrictRtc_checked d;
     incognito_class := incognito_class d;
     button_innerText := button_innerText d;
     header_innerHTML := header_innerHTML d |}.

Definition with_single_class (v : bool) (d : Document) : Document :=
  {| elements := elements d; selector_parses := selector_parses d;
     configGroups := configGroups d;
     autoconfigURL_value := autoconfigURL_value d;
     autoconfigData_value := autoconfigData_value d;
     bypassList_value := bypassList_value d;
     singleProxyForEverything_checked := singleProxyForEverything_checked d;
     single_class := v;
     proxyHttp := proxyHttp d; proxyHttps := proxyHttps d;
     proxyFtp := proxyFtp d; proxyFallback := proxyFallback d;
     restrictRtc_checked := restrictRtc_checked d;
     incognito_class := incognito_class d;
     button_innerText := button_innerText d;
     header_innerHTML := header_innerHTML d |}.

Definition with_proxyInputs (k : ProxyKind) (v : ProxyInputs) (d : Document)
  : Document :=
  {| elements := elements d; selector_parses := selector_parses d;
     configGroups := configGroups d;
     autoconfigURL_value := autoconfigURL_value d;
     autoconfigData_value := autoconfigData_value d;
     bypassList_value := bypassList_value d;
     singleProxyForEverything_checked := singleProxyForEverything_checked d;
     single_class := single_class d;
     proxyHttp := match k with Http => v | _ => proxyHttp d end;
     proxyHttps := match k with Https => v | _ => proxyHttps d end;
     proxyFtp := match k with Ftp => v | _ => proxyFtp d end;
     proxyFallback := match k with Fallback => v | _ => proxyFallback d end;
     restrictRtc_checked := restrictRtc_checked d;
     incognito_class := incognito_class d;
     button_innerText := button_innerText d;
     header_innerHTML := header_innerHTML d |}.

Definition with_restrictRtc_checked (v : bool) (d : Document) : Document :=
  {| elements := elements d; selector_parses := selector_parses d;
     configGroups := configGroups d;
     autoconfigURL_value := autoconfigURL_value d;
     autoconfigData_value := autoconfigData_value d;
     bypassList_value := bypassList_value d;
     singleProxyForEverything_checked := singleProxyForEverything_checked d;
     single_class := single_class d;
     proxyHttp := proxyHttp d; proxyHttps := proxyHttps d;
     proxyFtp := proxyFtp d; proxyFallback := proxyFallback d;
     restrictRtc_checked := v;
     incognito_class := incognito_class d;
     button_innerText := button_innerText d;
     header_innerHTML := header_innerHTML d |}.

Definition with_incognito_class (v : bool) (d : Document) : Document :=
  {| elements := elements d; selector_parses := selector_parses d;
     configGroups := configGroups d;
     autoconfigURL_value := autoconfigURL_value d;
     autoconfigData_value := autoconfigData_value d;
     bypassList_value := bypassList_value d;
     singleProxyForEverything_checked := singleProxyForEverything_checked d;
     single_class := single_class d;
     proxyHttp := proxyHttp d; proxyHttps := proxyHttps d;
     proxyFtp := proxyFtp d; proxyFallback := proxyFallback d;
     restrictRtc_checked := restrictRtc_checked d;
     incognito_class := v;
     button_innerText := button_innerText d;
     header_innerHTML := header_innerHTML d |}.

Definition with_button_innerText (v : option string) (d : Document) : Document :=
  {| elements := elements d; selector_parses := selector_parses d;
     configGroups := configGroups d;
     autoconfigURL_value := autoconfigURL_value d;
     autoconfigData_value := autoconfigData_value d;
     bypassList_value := bypassList_value d;
     singleProxyForEverything_checked := singleProxyForEverything_checked d;
     single_class := single_class d;
     proxyHttp := proxyHttp d; proxyHttps := proxyHttps d;
     proxyFtp := proxyFtp d; proxyFallback := proxyFallback d;
     restrictRtc_checked := restrictRtc_checked d;
     incognito_class := incognito_class d;
     button_innerText := v;
     header_innerHTML := header_innerHTML d |}.

Definition with_header_innerHTML (v : string) (d : Document) : Document :=
  {| elements := elements d; selector_parses := selector_parses d;
     configGroups := configGroups d;
     autoconfigURL_value := autoconfigURL_value d;
     autoconfigData_value := autoconfigData_value d;
     bypassList_value := bypassList_value d;
     singleProxyForEverything_checked := singleProxyForEverything_checked d;
     single_class := single_class d;
     proxyHttp := proxyHttp d; proxyHttps := proxyHttps d;
     proxyFtp := proxyFtp d; proxyFallback := proxyFallback d;
     restrictRtc_checked := restrictRtc_checked d;
     incognito_class := incognito_class d;
     button_innerText := button_innerText d;
     header_innerHTML := v |}.

Definition with_document (d : Document) (w : World) : World :=
  {| regularConfig_ := regularConfig_ w;
     incognitoConfig_ := incognitoConfig_ w;
     isAllowedIncognitoAccess_ := isAllowedIncognitoAccess_ w;
     header_ := header_ w; form_ := form_ w;
     document := d |}.

Definition with_isAllowedIncognitoAccess_ (v : bool) (w : World) : World :=
  {| regularConfig_ := regularConfig_ w;
     incognitoConfig_ := incognitoConfig_ w;
     isAllowedIncognitoAccess_ := v;
     header_ := header_ w; form_ := form_ w;
     document := document w |}.

(** The configuration object that a reference points to. *)
Definition config_of (which : WindowTypes) (w : World) : Config :=
  match which with
  | REGULAR => regularConfig_ w
  | INCOGNITO => incognitoConfig_ w
  end.

Definition with_config (which : WindowTypes) (c : Config) (w : World) : World :=
  {| regularConfig_ := match which with REGULAR => c | INCOGNITO => regularConfig_ w end;
     incognitoConfig_ := match which with INCOGNITO => c | REGULAR => incognitoConfig_ w end;
     isAllowedIncognitoAccess_ := isAllowedIncognitoAccess_ w;
     header_ := header_ w; form_ := form_ w;
     document := document w |}.

(** A computation on the document, run on the document of the world. *)
Definition on_document {A} (m : M Document A) : M World A :=
  fun w =>
    match m (document w) with
    | (r, d, ev) => (r, with_document d w, ev)
    end.

(** The value or the exception of a computation that reads only. *)
Definition of_outcome {S A} (r : Outcome A) : M S A := fun s => (r, s, []).

(** *** Accessors of the form fields *)

Definition get_pacURL (d : Document) : string := autoconfigURL_value d.

Definition set_pacURL (value : string) (d : Document) : Document :=
  with_autoconfigURL_value value d.

Definition get_manualPac (d : Document) : string := autoconfigData_value d.

Definition set_manualPac (value : string) (d : Document) : Document :=
  with_autoconfigData_value value d.

Definition get_bypassList (d : Document) : list string :=
  Js.split (bypassList_value d).

(** [data] is an array or a falsy value ([undefined], or the [''] that
    [recalcFormValues_] passes). *)
Definition set_bypassList (data : option (list string)) (d : Document)
  : Document :=
  let data := match data with
              | Some l => l
              | None => []
              end in
  with_bypassList_value (Js.join ", " data) d.

Definition proxyInputs (type : ProxyKind) (d : Document) : ProxyInputs :=
  match type with
  | Http => proxyHttp d
  | Https => proxyHttps d
  | Ftp => proxyFtp d
  | Fallback => proxyFallback d
  end.

Definition getProxyImpl_ (type : ProxyKind) (d : Document)
  : option ProxyServer :=
  let result_scheme := proxyScheme (proxyInputs type d) in
  let result_host := proxyHost (proxyInputs type d) in
  let result_port := Js.parseInt (proxyPort (proxyInputs type d)) in
  if Js.truthy result_scheme && Js.truthy result_host
     && Js.truthy_num result_port
  then
    match result_port with
    | Some p => Some {| scheme := result_scheme; host := result_host; port := p |}
    | None => None
    end
  else None.

Definition setProxyImpl_ (type : ProxyKind) (data : option ProxyServer)
  (d : Document) : Document :=
  match data with
  | None =>
      with_proxyInputs type
        {| proxyScheme := "http"; proxyHost := ""; proxyPort := "" |} d
  | Some data =>
      with_proxyInputs type
        {| proxyScheme := scheme data;
           proxyHost := host data;
           proxyPort := Js.NumberToString (port data) |} d
  end.

Definition get_httpProxy := getProxyImpl_ Http.
Definition set_httpProxy := setProxyImpl_ Http.
Definition get_httpsProxy := getProxyImpl_ Https.
Definition set_httpsProxy := setProxyImpl_ Https.
Definition get_ftpProxy := getProxyImpl_ Ftp.
Definition set_ftpProxy := setProxyImpl_ Ftp.
Definition get_fallbackProxy := getProxyImpl_ Fallback.
Definition set_fallbackProxy := setProxyImpl_ Fallback.

Definition get_singleProxy (d : Document) : option ProxyServer :=
  if singleProxyForEverything_checked d then get_httpProxy d else None.

Definition set_singleProxy (data : option ProxyServer) (d : Document)
  : Document :=
  let d1 := with_singleProxyForEverything_checked
              (match data with Some _ => true | None => false end) d in
  let d2 := match data with
            | Some _ => set_httpProxy data d1
            | None => d1
            end in
  if singleProxyForEverything_checked d2
  then with_single_class true d2
  else with_single_class false d2.

Definition get_restrictRtc (d : Document) : string :=
  if restrictRtc_checked d
  then RestrictRtcTypes.RESTRICT
  else RestrictRtcTypes.DEFAULT.

Definition set_restrictRtc (data : string) (d : Document) : Document :=
  with_restrictRtc_checked (data =? RestrictRtcTypes.RESTRICT) d.

(** *** Groups *)

Definition with_active (v : bool) (el : Fieldset) : Fieldset :=
  {| fs_id := fs_id el; active := v; inputs := inputs el |}.

Definition with_inputs (v : list Input) (el : Fieldset) : Fieldset :=
  {| fs_id := fs_id el; active := active el; inputs := v |}.

Definition with_checked (v : bool) (i : Input) : Input :=
  {| radio := radio i; disabled := disabled i; checked := v |}.

Definition with_disabled (v : bool) (i : Input) : Input :=
  {| radio := radio i; disabled := v; checked := checked i |}.

(** [el.querySelector("input[type='radio']").checked = true]: the first
    radio of the group is checked; [None] when the group has no radio (the
    assignment then fails on [null]). *)
Fixpoint check_radio (l : list Input) : option (list Input) :=
  match l with
  | [] => None
  | i :: r =>
      if radio i then Some (with_checked true i :: r)
      else option_map (cons i) (check_radio r)
  end.

(** [document.getElementById(id)] for the id of a group: the position of
    the first group with that id. *)
Fixpoint getFieldsetById (id : string) (els : list Fieldset) : option nat :=
  match els with
  | [] => None
  | el :: r =>
      if fs_id el =? id then Some O
      else option_map S (getFieldsetById id r)
  end.

(** The loop of [changeActive_] from the group at position [i] on.
    [fieldset] is the position of the node to activate, [None] for [null]
    or a node that is not a group.  When the assignment to [radio.checked]
    fails, the groups after the current one are left as they were. *)
Fixpoint changeActive_loop (fieldset : option nat) (i : nat)
  (els : list Fieldset) : Outcome unit * list Fieldset :=
  match els with
  | [] => (Return tt, [])
  | el :: rest =>
      if match fieldset with
         | Some n => (n =? i)%nat
         | None => false
         end
      then
        let el := with_active true el in
        match check_radio (inputs el) with
        | Some l =>
            match changeActive_loop fieldset (S i) rest with
            | (r, rest') => (r, with_inputs l el :: rest')
            end
        | None => (Throw TypeError, el :: rest)
        end
      else
        match changeActive_loop fieldset (S i) rest with
        | (r, rest') => (r, with_active false el :: rest')
        end
  end.

(** The elements selected by ["input:not([type='radio']), select,
    textarea"] lose or get the [disabled] attribute. *)
Definition recalc_inputs (is_active : bool) (l : list Input) : list Input :=
  map (fun i => if radio i then i else with_disabled (negb is_active) i) l.

Definition recalcDisabledInputs_ (d : Document) : Document :=
  with_configGroups
    (map (fun el => with_inputs (recalc_inputs (active el) (inputs el)) el)
       (configGroups d))
    d.

Definition changeActive_ (fieldset : option nat) : M Document unit :=
  fun d =>
    match changeActive_loop fieldset 0 (configGroups d) with
    | (Return _, els) =>
        (Return tt, recalcDisabledInputs_ (with_configGroups els d), [])
    | (Throw e, els) => (Throw e, with_configGroups els d, [])
    end.

(** *** Extraction of a configuration from the form *)

(** [document.getElementsByClassName('active')[0]]. *)
Definition first_active (d : Document) : option Fieldset :=
  find active (configGroups d).

Definition generateProxyConfig_ (d : Document) : Outcome (option ProxyConfig) :=
  match first_active d with
  | None => Throw TypeError
  | Some el =>
      if fs_id el =? ProxyTypes.SYSTEM then
        Return (Some {| mode := "system"; pacScript := None; rules := None |})
      else if fs_id el =? ProxyTypes.DIRECT then
        Return (Some {| mode := "direct"; pacScript := None; rules := None |})
      else if fs_id el =? ProxyTypes.PAC then
        let pacScriptURL := get_pacURL d in
        let pacManual := get_manualPac d in
        if Js.truthy pacScriptURL then
          Return (Some {| mode := "pac_script";
                          pacScript := Some {| url := Some pacScriptURL;
                                               data := None;
                                               mandatory := Some true |};
                          rules := None |})
        else if Js.truthy pacManual then
          Return (Some {| mode := "pac_script";
                          pacScript := Some {| url := None;
                                               data := Some pacManual;
                                               mandatory := Some true |};
                          rules := None |})
        else
          Return (Some {| mode := "auto_detect"; pacScript := None;
                          rules := None |})
      else if fs_id el =? ProxyTypes.FIXED then
        match get_singleProxy d with
        | Some _ =>
            Return (Some {| mode := "fixed_servers"; pacScript := None;
                            rules := Some {| singleProxy := get_singleProxy d;
                                             proxyForHttp := None;
                                             proxyForHttps := None;
                                             proxyForFtp := None;
                                             fallbackProxy := None;
                                             bypassList := Some (get_bypassList d) |} |})
        | None =>
            Return (Some {| mode := "fixed_servers"; pacScript := None;
                            rules := Some {| singleProxy := None;
                                             proxyForHttp := get_httpProxy d;
                                             proxyForHttps := get_httpsProxy d;
                                             proxyForFtp := get_ftpProxy d;
                                             fallbackProxy := get_fallbackProxy d;
                                             bypassList := Some (get_bypassList d) |} |})
        end
      else Return None
  end.

(** *** Alerts and the window type of the form *)

(** The overlay with the message is added to the body of the page; the two
    timers only show and hide it. *)
Definition generateAlert_ {S} (msg : string) : M S unit := emit (Alert msg).

Definition isIncognitoMode_ (w : World) : bool :=
  incognito_class (document w).

Definition active_window (w : World) : WindowTypes :=
  if isIncognitoMode_ w then INCOGNITO else REGULAR.

(** [config.proxy = this.generateProxyConfig_();
     config.restrictRtc = this.restrictRtc;] for the configuration object
    [which].  Nothing is assigned when the extraction throws. *)
Definition save_form_into (which : WindowTypes) : M World unit :=
  c <- (fun w => of_outcome (generateProxyConfig_ (document w)) w) ;;
  modify (fun w => with_config which (set_proxy c (config_of which w)) w) ;;
  modify (fun w => with_config which
                     (set_restrictRtc_of (Some (get_restrictRtc (document w)))
                        (config_of which w)) w).

(** *** Rendering of a configuration into the form *)

(** [config] is a reference to one of the two configuration objects of the
    controller; the assignment to [c.mode] changes that object. *)
Definition recalcFormValues_ (config : WindowTypes) : M World unit :=
  c <- gets (fun w => proxy (config_of config w)) ;;
  restrictRtc <- gets (fun w => restrictRtc (config_of config w)) ;;
  match c, restrictRtc with
  | Some c, Some restrictRtc =>
      (* Normalize `auto_detect` *)
      let c := if mode c =? "auto_detect" then set_mode "pac_script" c else c in
      modify (fun w => with_config config (set_proxy (Some c) (config_of config w)) w) ;;
      (* Activate one of the groups, based on `mode`. *)
      on_document
        (fun d => changeActive_ (getFieldsetById (mode c) (configGroups d)) d) ;;
      (* Populate the PAC script *)
      on_document (modify (fun d =>
        match pacScript c with
        | Some ps =>
            match url ps with
            | Some u => if Js.truthy u then set_pacURL u d else d
            | None => d
            end
        | None => set_pacURL "" d
        end)) ;;
      (* Evaluate the `rules` *)
      on_document (modify (fun d =>
        match rules c with
        | Some rules =>
            let d := match singleProxy rules with
                     | Some _ => set_singleProxy (singleProxy rules) d
                     | None =>
                         let d := set_singleProxy None d in
                         let d := set_httpProxy (proxyForHttp rules) d in
                         let d := set_httpsProxy (proxyForHttps rules) d in
                         let d := set_ftpProxy (proxyForFtp rules) d in
                         set_fallbackProxy (fallbackProxy rules) d
                     end in
            set_bypassList (bypassList rules) d
        | None =>
            let d := set_singleProxy None d in
            let d := set_httpProxy None d in
            let d := set_httpsProxy None d in
            let d := set_ftpProxy None d in
            let d := set_fallbackProxy None d in
            set_bypassList None d
        end)) ;;
      (* Apply WebRTC restriction. *)
      on_document (modify (set_restrictRtc restrictRtc))
  | _, _ => emit (ConsoleError "recalcFormValues_ missing data")
  end.

(** *** Reading the settings of the browser *)

Definition CRLF : string :=
  String (ascii_of_nat 13) (String (ascii_of_nat 10) EmptyString).

(** [accessOk_(c, errs, what)]: the answer, and the array [errs] after the
    call. *)
Definition accessOk_ {V} (c : GetDetails V) (errs : list string) (what : string)
  : bool * list string :=
  if (levelOfControl c =? LevelOfControl.AVAILABLE)
     || (levelOfControl c =? LevelOfControl.CONTROLLING)
  then (true, errs)
  else (false, (errs ++ [(what ++ ": " ++ levelOfControl c)%string])%list).

Section Browser.

Variable chrome : Chrome.

Definition readCurrentState_ : M World unit :=
  emit IsAllowedIncognitoAccess ;;
  modify (with_isAllowedIncognitoAccess_
            (extension_isAllowedIncognitoAccess chrome)) ;;
  let errs := ["Failed to read state:"] in
  emit (ProxyGet false) ;;
  let c := proxy_settings_get chrome false in
  let '(ok, errs) := accessOk_ c errs "regular/proxy" in
  (if ok
   then modify (fun w => with_config REGULAR
                  (set_proxy (Some (value c)) (regularConfig_ w)) w)
   else ret tt) ;;
  emit (RtcGet false) ;;
  let c := webRTCIPHandlingPolicy_get chrome false in
  let '(ok, errs) := accessOk_ c errs "regular/privacy" in
  (if ok
   then modify (fun w => with_config REGULAR
                  (set_restrictRtc_of (Some (value c)) (regularConfig_ w)) w)
   else ret tt) ;;
  allowed <- gets isAllowedIncognitoAccess_ ;;
  errs <- (if allowed then
             emit (ProxyGet true) ;;
             let c := proxy_settings_get chrome true in
             let '(ok, errs) := accessOk_ c errs "incognito/proxy" in
             (if ok
              then modify (fun w => with_config INCOGNITO
                             (set_proxy (Some (value c)) (incognitoConfig_ w)) w)
              else ret tt) ;;
             emit (RtcGet true) ;;
             let c := webRTCIPHandlingPolicy_get chrome true in
             let '(ok, errs) := accessOk_ c errs "incognito/privacy" in
             (if ok
              then modify (fun w => with_config INCOGNITO
                             (set_restrictRtc_of (Some (value c))
                                (incognitoConfig_ w)) w)
              else ret tt) ;;
             ret errs
           else ret errs) ;;
  incognito <- gets isIncognitoMode_ ;;
  (if incognito
   then recalcFormValues_ INCOGNITO
   else recalcFormValues_ REGULAR) ;;
  if (1 <? List.length errs)%nat
  then generateAlert_ (Js.join CRLF errs)
  else ret tt.

(** *** Writing the settings of the browser *)

Definition chrome_proxy_settings_set (scope : Scope)
  (value : option ProxyConfig) : M World unit :=
  if proxy_settings_set chrome scope value
  then emit (ProxySet scope value true)
  else (emit (ProxySet scope value false) ;; throw Rejected).

Definition chrome_webRTCIPHandlingPolicy_set (scope : Scope)
  (value : option string) : M World unit :=
  if webRTCIPHandlingPolicy_set chrome scope value
  then emit (RtcSet scope value true)
  else (emit (RtcSet scope value false) ;; throw Rejected).

(** The two writes of one scope, inside their [try]; the result tells
    whether the function goes on after the [try] statement ([false]: the
    [catch] clause has alerted and returned). *)
Definition write_pair (scope : Scope) (which : WindowTypes) (error : string)
  : M World bool :=
  try_catch
    (v <- gets (fun w => proxy (config_of which w)) ;;
     chrome_proxy_settings_set scope v ;;
     v <- gets (fun w => restrictRtc (config_of which w)) ;;
     chrome_webRTCIPHandlingPolicy_set scope v ;;
     ret true)
    (fun _ =>
       generateAlert_ (i18n_getMessage chrome error) ;;
       ret false).

Definition applyChanges_ : M World unit :=
  emit PreventDefault ;;
  emit StopPropagation ;;
  which <- gets active_window ;;
  save_form_into which ;;
  emit (SendMessage "clearError") ;;
  go_on <- write_pair regular_only REGULAR "errorSettingRegularProxy" ;;
  if go_on then
    incognito_proxy <- gets (fun w => proxy (incognitoConfig_ w)) ;;
    match incognito_proxy with
    | Some _ =>
        go_on <- write_pair incognito_persistent INCOGNITO
                   "errorSettingIncognitoProxy" ;;
        if go_on then emit WindowClose else ret tt
    | None => emit WindowClose
    end
  else ret tt.

End Browser.

(** *** Switching between the regular and the incognito form *)

Definition NBSP : string := String (ascii_of_nat 160) EmptyString.

Definition incognito_denied_msg : string :=
  "I'm sorry, Dave, I'm afraid I can't do that. " ++
  "Please right-click my icon, select 'Manage" ++ NBSP ++ "extension', " ++
  "and enable 'Allow" ++ NBSP ++ "in" ++ NBSP ++ "Incognito' to use this feature.".

(** [button.innerText = v], where [button] is the first button of the
    document, [undefined] when there is none. *)
Definition set_button_innerText (v : string) : M World unit :=
  fun w =>
    match button_innerText (document w) with
    | Some _ => (Return tt, with_document (with_button_innerText (Some v) (document w)) w, [])
    | None => (Throw TypeError, w, [])
    end.

(** [this.header_.innerHTML = v]. *)
Definition set_header_innerHTML (v : string) : M World unit :=
  fun w =>
    match header_ w with
    | Some _ => (Return tt, with_document (with_header_innerHTML v (document w)) w, [])
    | None => (Throw TypeError, w, [])
    end.

Definition toggleIncognitoMode_ : M World unit :=
  (* Cancel the button click. *)
  emit PreventDefault ;;
  emit StopPropagation ;;
  (* If we can't access Incognito settings, throw a message and return. *)
  allowed <- gets isAllowedIncognitoAccess_ ;;
  if negb allowed then generateAlert_ incognito_denied_msg
  else
    incognito <- gets isIncognitoMode_ ;;
    if incognito then
      (* In incognito mode, switching to cognito. *)
      save_form_into INCOGNITO ;;
      on_document (modify (with_incognito_class false)) ;;
      recalcFormValues_ REGULAR ;;
      set_button_innerText "Configure incognito window settings." ;;
      set_header_innerHTML "Proxy Configuration (regular)"
    else
      (* In cognito mode, switching to incognito. *)
      save_form_into REGULAR ;;
      on_document (modify (with_incognito_class true)) ;;
      recalcFormValues_ INCOGNITO ;;
      set_button_innerText "Configure regular window settings." ;;
      set_header_innerHTML "Proxy Configuration (incognito)".

(** *** The constructor *)

Definition getElementById (id : string) (d : Document) : option Element :=
  option_map snd (find (fun e => fst e =? id) (elements d)).

(** [x?.nodeName]: [undefined] when [x] is [null]. *)
Definition optional_nodeName (x : option Element) : option string :=
  option_map nodeName x.

(** [this.form_.addEventListener('click', ...)]. *)
Definition bindEventHandlers_ (form : option Element) : Outcome Element * list Event :=
  match form with
  | Some f => (Return f, [AddEventListener "click"])
  | None => (Throw TypeError, [])
  end.

(** [document.querySelectorAll(selectors)] for the groups: a [SyntaxError]
    when the page does not parse the selector, and else the groups of the
    page. *)
Definition querySelectorAll_groups (selectors : string) (d : Document)
  : Outcome (list Fieldset) :=
  if selector_parses d selectors then Return (configGroups d)
  else Throw SyntaxError.

(** [new ProxyFormController(headerId, formId)] on a fresh page: the two
    configuration objects of the prototype hold [null]s.  The page is given
    as the controller built with [formId] meets it: its [configGroups] are
    what the selector [#formId > fieldset] matches when it parses.  The call
    of [readCurrentState_] returns at its first [await]; its body is
    [readCurrentState_] above and runs after the constructor. *)
Definition ProxyFormController (headerId formId : string) (d : Document)
  : Outcome World * list Event :=
  let header := getElementById headerId d in
  let form := getElementById formId d in
  if Js.loose_eq_bool_string (negb (Js.truthy_opt (optional_nodeName header))) "H1"
  then (Throw (Thrown (headerId ++ " is not an H1")), [])
  else if Js.loose_eq_bool_string (negb (Js.truthy_opt (optional_nodeName form))) "FORM"
  then (Throw (Thrown (formId ++ " is not a form")), [])
  else
    match querySelectorAll_groups ("#" ++ formId ++ " > fieldset") d with
    | Throw e => (Throw e, [])
    | Return _ =>
        match bindEventHandlers_ form with
        | (Return f, ev) =>
            (Return {| regularConfig_ := {| proxy := None; restrictRtc := None |};
                       incognitoConfig_ := {| proxy := None; restrictRtc := None |};
                       isAllowedIncognitoAccess_ := false;
                       header_ := header;
                       form_ := f;
                       document := d |},
             (ev ++ [Invoke_readCurrentState_; SendMessage "getError"])%list)
        | (Throw e, ev) => (Throw e, ev)
        end
    end.

(** *** The dispatch of a click on the form *)

(** Which node of the page a node is, as far as the controller tells the
    nodes apart. *)
Inductive NodeId :=
| IsGroup (n : nat)             (** [configGroups_[n]] *)
| IsSingleProxyForEverything    (** the checkbox [#singleProxyForEverything] *)
| IsRestrictRtc                 (** the checkbox [#restrictRtc] *)
| IsSingleSection               (** the [parentNode.parentNode] of
                                    [#singleProxyForEverything] *)
| IsOther (is_checked : bool).  (** another node, with its [checked]
                                    property, [false] when it has none *)

(** What the dispatcher reads of a node. *)
Record Node := {
  node_nodeName : string;
  (** [getAttribute('type')], [null] when the attribute is absent *)
  node_type : option string;
  node_id : NodeId
}.

(** A click event: its target and the chain of the [parentNode]s of the
    target, up to the root element of the page.  The [parentNode] of the
    root element is the document, which has the node name ['#document'] and
    no [classList]; the [parentNode] of the document is [null]. *)
Record Click := {
  target : Node;
  ancestors : list Node
}.

(** What a handler returns: the promise of an [async] function,
    [undefined], or a boolean. *)
Inductive Returned :=
| ReturnedPromise
| ReturnedUndefined
| ReturnedBoolean (b : bool).

(** [x.checked]. *)
Definition node_checked (x : Node) (d : Document) : bool :=
  match node_id x with
  | IsSingleProxyForEverything => singleProxyForEverything_checked d
  | IsRestrictRtc => restrictRtc_checked d
  | IsOther b => b
  | IsGroup _ => false
  | IsSingleSection => false
  end.

(** [x.classList.contains('active')]. *)
Definition node_active (x : Node) (d : Document) : bool :=
  match node_id x with
  | IsGroup n =>
      match nth_error (configGroups d) n with
      | Some el => active el
      | None => false
      end
  | _ => false
  end.

(** [x.classList.add('single')] for [true], [x.classList.remove('single')]
    for [false].  The class is kept for the one section that [single_class]
    is about; the controller never reads it. *)
Definition set_node_single (x : Node) (v : bool) (d : Document) : Document :=
  match node_id x with
  | IsSingleSection => with_single_class v d
  | _ => d
  end.

(** [x.nodeName === 'INPUT' && x.getAttribute('type') === type]. *)
Definition is_input_of_type (type : string) (x : Node) : bool :=
  (node_nodeName x =? "INPUT")
  && match node_type x with
     | Some t => t =? type
     | None => false
     end.

Definition toggleSingleProxyConfig_ (e : Click) : M Document unit :=
  fun d =>
    let checkbox := target e in
    if is_input_of_type "checkbox" checkbox then
      match nth_error (ancestors e) 1 with
      | Some section =>
          (Return tt, set_node_single section (node_checked checkbox d) d, [])
      | None => (Throw TypeError, d, [])
      end
    else (Return tt, d, []).

(** The test of the second case of the dispatcher:
    [t.nodeName === 'INPUT' && t.getAttribute('type') === 'checkbox' &&
     t.parentNode.parentNode.parentNode.classList.contains('active')]. *)
Definition in_active_section (e : Click) (d : Document) : Outcome bool :=
  if is_input_of_type "checkbox" (target e) then
    match nth_error (ancestors e) 2 with
    | Some a => Return (node_active a d)
    | None => Throw TypeError
    end
  else Return false.

(** The loop [while (t && (t.nodeName !== 'FIELDSET' ||
    t.parentNode.nodeName !== 'FORM')) t = t.parentNode;] on the chain that
    starts at [t]: the node at which it stops, [None] when it falls off the
    top. *)
Fixpoint walk_up (chain : list Node) : option Node :=
  match chain with
  | [] => None
  | t :: up =>
      if negb (node_nodeName t =? "FIELDSET")
         || negb (match up with
                  | p :: _ => node_nodeName p =? "FORM"
                  | [] => "#document" =? "FORM"
                  end)
      then walk_up up
      else Some t
  end.

(** The position among the groups of the node given to [changeActive_],
    [None] for a node that is not a group. *)
Definition as_fieldset (t : Node) : option nat :=
  match node_id t with
  | IsGroup n => Some n
  | _ => None
  end.

(** The call of an [async] function: the caller gets a promise, also when
    the body throws. *)
Definition async {S A} (m : M S A) : M S Returned :=
  fun s =>
    match m s with
    | (_, s1, ev) => (Return ReturnedPromise, s1, ev)
    end.

Section Dispatch.

Variable chrome : Chrome.

Definition dispatchFormClick_ (e : Click) : M World Returned :=
  let t := target e in
  (* Case 1: "Apply" *)
  if is_input_of_type "submit" t then async (applyChanges_ chrome)
  else
    (* Case 2: "Use the same proxy for all protocols" in an active section *)
    case2 <- (fun w => of_outcome (in_active_section e (document w)) w) ;;
    if case2 : bool then
      on_document (toggleSingleProxyConfig_ e) ;;
      ret ReturnedUndefined
    (* Case 3: "Flip to incognito mode." *)
    else if node_nodeName t =? "BUTTON" then
      toggleIncognitoMode_ ;;
      ret ReturnedUndefined
    (* Case 4: Click on something random: maybe changing active config group? *)
    else
      match walk_up (t :: ancestors e) with
      | Some t =>
          on_document (changeActive_ (as_fieldset t)) ;;
          ret (ReturnedBoolean false)
      | None => ret (ReturnedBoolean true)
      end.

End Dispatch.

(** * The vocabulary of the properties *)

(** ** Observations of a run *)

(** [m] leaves the observation [f] of the state as it finds it, whether it
    returns or throws. *)
Definition preserves {S A X} (f : S -> X) (m : M S A) : Prop :=
  forall s, f (state (m s)) = f s.

Definition is_regular_write_failure (e : Event) : bool :=
  match e with
  | ProxySet regular_only _ false => true
  | RtcSet regular_only _ false => true
  | _ => false
  end.

Definition is_incognito_write (e : Event) : bool :=
  match e with
  | ProxySet incognito_persistent _ _ => true
  | RtcSet incognito_persistent _ _ => true
  | _ => false
  end.

Definition is_alert (e : Event) : bool :=
  match e with
  | Alert _ => true
  | _ => false
  end.

Definition is_window_close (e : Event) : bool :=
  match e with
  | WindowClose => true
  | _ => false
  end.

Definition is_get (e : Event) : bool :=
  match e with
  | ProxyGet _ => true
  | RtcGet _ => true
  | _ => false
  end.

(** ** Groups *)

(** The group has a radio, the mode selector that [changeActive_] checks. *)
Definition has_radio (el : Fieldset) : Prop :=
  existsb radio (inputs el) = true.

(** The groups when the loop of [changeActive_] has activated the group [el]
    at position [n], and [l] are the inputs of [el] with its radio checked. *)
Definition activated (n : nat) (el : Fieldset) (l : list Input)
  (els : list Fieldset) : list Fieldset :=
  (map (with_active false) (firstn n els)
   ++ with_inputs l (with_active true el)
   :: map (with_active false) (skipn (S n) els))%list.

(** What [recalcDisabledInputs_] makes of one group. *)
Definition recalc_group (el : Fieldset) : Fieldset :=
  with_inputs (recalc_inputs (active el) (inputs el)) el.

(** The document with the group named [id] as its only active group. *)
Definition with_active_group (id : string) (d : Document) : Document :=
  with_configGroups
    (map (fun el => with_active (fs_id el =? id) el) (configGroups d)) d.

(** ** Configurations *)

(** What the first statements of a rendering make of the configuration
    object that it is given. *)
Definition normalized (c : Config) : Config :=
  match proxy c, restrictRtc c with
  | Some p, Some _ =>
      set_proxy (Some (if mode p =? "auto_detect"
                       then set_mode "pac_script" p else p)) c
  | _, _ => c
  end.

(** A server whose three parts are truthy. *)
Definition ok_server (p : ProxyServer) : Prop :=
  scheme p <> "" /\ host p <> "" /\ port p <> 0%Z.

Definition ok_entry (o : option ProxyServer) : Prop :=
  match o with
  | Some p => ok_server p
  | None => True
  end.

(** A server whose port is below 2^53 in absolute value: the decimal
    notation of such a port has all its digits, and is read back as it is
    written. *)
Definition safe_port (p : ProxyServer) : Prop :=
  (Z.abs (port p) < 2 ^ 53)%Z.

Definition safe_entry (o : option ProxyServer) : Prop :=
  match o with
  | Some p => safe_port p
  | None => True
  end.

(** A string without white space and without comma. *)
Fixpoint all_clean (s : string) : bool :=
  match s with
  | String c r =>
      negb (Js.isStrWhiteSpaceChar c) && negb (Ascii.eqb c ",") && all_clean r
  | EmptyString => true
  end.

(** An entry of a bypass list that is read back from the form: it is not
    empty and has no white space and no comma. *)
Definition clean_entry (e : string) : Prop := e <> "" /\ all_clean e = true.

Definition ok_bypass (l : list string) : Prop := Forall clean_entry l.

(** What follows the first entry in the notation of a list in the form. *)
Fixpoint join_tail (l : list string) : string :=
  match l with
  | [] => ""
  | x :: r => ", " ++ x ++ join_tail r
  end.

(** The configurations that an extraction produces, but for the PAC script
    given as data: a mode alone, a PAC script given as a URL, a single
    proxy, or four per-scheme entries; with complete servers and a bypass
    list that is read back. *)
Inductive well_formed : ProxyConfig -> Prop :=
| wf_system :
    well_formed {| mode := "system"; pacScript := None; rules := None |}
| wf_direct :
    well_formed {| mode := "direct"; pacScript := None; rules := None |}
| wf_auto :
    well_formed {| mode := "auto_detect"; pacScript := None; rules := None |}
| wf_pac_url (u : string) :
    u <> "" ->
    well_formed {| mode := "pac_script";
                   pacScript := Some {| url := Some u; data := None;
                                        mandatory := Some true |};
                   rules := None |}
| wf_single (p : ProxyServer) (l : list string) :
    ok_server p -> ok_bypass l ->
    well_formed {| mode := "fixed_servers"; pacScript := None;
                   rules := Some {| singleProxy := Some p;
                                    proxyForHttp := None;
                                    proxyForHttps := None;
                                    proxyForFtp := None;
                                    fallbackProxy := None;
                                    bypassList := Some l |} |}
| wf_per_scheme (a b c d : option ProxyServer) (l : list string) :
    ok_entry a -> ok_entry b -> ok_entry c -> ok_entry d -> ok_bypass l ->
    well_formed {| mode := "fixed_servers"; pacScript := None;
                   rules := Some {| singleProxy := None;
                                    proxyForHttp := a;
                                    proxyForHttps := b;
                                    proxyForFtp := c;
                                    fallbackProxy := d;
                                    bypassList := Some l |} |}.

(** ** The reads of a load *)

(** A level of control with which a setting cannot be taken. *)
Definition unacceptable (level : string) : bool :=
  negb ((level =? LevelOfControl.AVAILABLE)
        || (level =? LevelOfControl.CONTROLLING)).

(** The reads that a load performs, in their order: the name of each and the
    level of control that the browser answers. *)
Definition reads (chrome : Chrome) : list (string * string) :=
  ([("regular/proxy", levelOfControl (proxy_settings_get chrome false));
    ("regular/privacy", levelOfControl (webRTCIPHandlingPolicy_get chrome false))]
   ++ (if extension_isAllowedIncognitoAccess chrome
       then [("incognito/proxy", levelOfControl (proxy_settings_get chrome true));
             ("incognito/privacy",
              levelOfControl (webRTCIPHandlingPolicy_get chrome true))]
       else []))%list.

(** The lines [l], each after a line break: a carriage return (character
    13) and a line feed (character 10). *)
Fixpoint line_broken (l : list string) : string :=
  match l with
  | [] => EmptyString
  | e :: r => String "013"%char (String "010"%char (e ++ line_broken r))
  end.

(** The descriptions of the reads that are refused. *)
Definition access_errors (chrome : Chrome) : list string :=
  map (fun r => fst r ++ ": " ++ snd r)
    (filter (fun r => unacceptable (snd r)) (reads chrome)).

(** The calls that a load makes to read the settings. *)
Definition read_calls (chrome : Chrome) : list Event :=
  ([ProxyGet false; RtcGet false]
   ++ (if extension_isAllowedIncognitoAccess chrome
       then [ProxyGet true; RtcGet true]
       else []))%list.

(** ** Writes *)

Definition is_write_failure (e : Event) : bool :=
  match e with
  | ProxySet _ _ false => true
  | RtcSet _ _ false => true
  | _ => false
  end.

Definition is_incognito_write_failure (e : Event) : bool :=
  match e with
  | ProxySet incognito_persistent _ false => true
  | RtcSet incognito_persistent _ false => true
  | _ => false
  end.

(** ** What does not reach the browser *)

(** The events of a load that are neither an alert nor a write. *)
Definition is_quiet (e : Event) : bool :=
  match e with
  | IsAllowedIncognitoAccess => true
  | ProxyGet _ => true
  | RtcGet _ => true
  | ConsoleError _ => true
  | _ => false
  end.

(** The events that stay inside the page. *)
Definition is_local (e : Event) : bool :=
  match e with
  | PreventDefault => true
  | StopPropagation => true
  | ConsoleError _ => true
  | _ => false
  end.

(** ** Profiles *)

Definition other_window (which : WindowTypes) : WindowTypes :=
  match which with
  | REGULAR => INCOGNITO
  | INCOGNITO => REGULAR
  end.

Definition window_eqb (a b : WindowTypes) : bool :=
  match a, b with
  | REGULAR, REGULAR => true
  | INCOGNITO, INCOGNITO => true
  | _, _ => false
  end.

(** The parts of the page that only the constructor and a switch of profile
    are concerned with. *)
Definition page_frame (d : Document)
  : list (string * Element) * bool * option string * string :=
  (elements d, incognito_class d, button_innerText d, header_innerHTML d).

(** The properties of the controller other than its two configurations and
    its page. *)
Definition controller_frame (w : World) : option Element * Element * bool :=
  (header_ w, form_ w, isAllowedIncognitoAccess_ w).

(** ** What a load stores *)

(** The property of a configuration after the read [c] of the browser, when
    it held [old] before: the value read, unless the read is refused. *)
Definition taken {V} (c : GetDetails V) (old : option V) : option V :=
  if unacceptable (levelOfControl c) then old else Some (value c).

(** The configuration [which] after the reads of a load. *)
Definition loaded (chrome : Chrome) (which : WindowTypes) (w : World) : Config :=
  match which with
  | REGULAR =>
      {| proxy := taken (proxy_settings_get chrome false) (proxy (regularConfig_ w));
         restrictRtc := taken (webRTCIPHandlingPolicy_get chrome false)
                          (restrictRtc (regularConfig_ w)) |}
  | INCOGNITO =>
      if extension_isAllowedIncognitoAccess chrome then
        {| proxy := taken (proxy_settings_get chrome true) (proxy (incognitoConfig_ w));
           restrictRtc := taken (webRTCIPHandlingPolicy_get chrome true)
                            (restrictRtc (incognitoConfig_ w)) |}
      else incognitoConfig_ w
  end.

(** The controller after the reads of a load, before the rendering. *)
Definition after_reads (chrome : Chrome) (w : World) : World :=
  {| regularConfig_ := loaded chrome REGULAR w;
     incognitoConfig_ := loaded chrome INCOGNITO w;
     isAllowedIncognitoAccess_ := extension_isAllowedIncognitoAccess chrome;
     header_ := header_ w; form_ := form_ w;
     document := document w |}.

(** ** Servers and ports *)

(** The servers that a configuration names. *)
Definition servers (c : ProxyConfig) : list ProxyServer :=
  match rules c with
  | Some r =>
      flat_map (fun o => match o with Some p => [p] | None => [] end)
        [singleProxy r; proxyForHttp r; proxyForHttps r; proxyForFtp r;
         fallbackProxy r]
  | None => []
  end.

(** Every port of the configuration is below 2^53 in absolute value. *)
Definition safe_ports (c : ProxyConfig) : Prop :=
  Forall safe_port (servers c).

(** The string does not start with a decimal digit. *)
Definition no_leading_digit (t : string) : bool :=
  match t with
  | String c _ =>
      match Js.digit c with
      | Some _ => false
      | None => true
      end
  | EmptyString => true
  end.

(** ** Clicks *)

Definition is_form (x : Node) : bool := node_nodeName x =? "FORM".

(** * Pages, controllers and browsers to run the operations on *)

Definition radio_input : Input :=
  {| radio := true; disabled := false; checked := false |}.

Definition other_input : Input :=
  {| radio := false; disabled := false; checked := false |}.

Definition empty_proxy_inputs : ProxyInputs :=
  {| proxyScheme := "http"; proxyHost := ""; proxyPort := "" |}.

(** What a page answers on the selectors of the constructor: a selector
    [#name > fieldset] parses when the name is a plain identifier, that is
    a letter or an underscore followed by letters, digits, hyphens and
    underscores.  (A name that starts with a digit, or the empty name, is
    no identifier.) *)
Definition is_name_start (c : ascii) : bool :=
  let n := nat_of_ascii c in
  (((65 <=? n) && (n <=? 90)) || ((97 <=? n) && (n <=? 122)) || (n =? 95))%nat.

Definition is_name_char (c : ascii) : bool :=
  let n := nat_of_ascii c in
  (is_name_start c || ((48 <=? n) && (n <=? 57)) || (n =? 45))%nat.

Fixpoint skip_name (s : string) : string :=
  match s with
  | String c r => if is_name_char c then skip_name r else s
  | EmptyString => EmptyString
  end.

Definition plain_id_selector (selectors : string) : bool :=
  match selectors with
  | String "#" (String c r) => is_name_start c && (skip_name r =? " > fieldset")
  | _ => false
  end.

(** A page of the shape that the controller expects: a header, a form, and
    four groups named after the modes, each with its radio first; the system
    group is the active one and every field is empty.  The page also has a
    [DIV] with an id. *)
Definition popup : Document :=
  {| elements := [("title", {| nodeName := "H1" |});
                  ("proxyForm", {| nodeName := "FORM" |});
                  ("banner", {| nodeName := "DIV" |})];
     selector_parses := plain_id_selector;
     configGroups :=
       [ {| fs_id := "system"; active := true; inputs := [radio_input] |};
         {| fs_id := "direct"; active := false; inputs := [radio_input] |};
         {| fs_id := "pac_script"; active := false;
            inputs := [radio_input; other_input; other_input] |};
         {| fs_id := "fixed_servers"; active := false;
            inputs := [radio_input; other_input; other_input; other_input] |} ];
     autoconfigURL_value := "";
     autoconfigData_value := "";
     bypassList_value := "";
     singleProxyForEverything_checked := false;
     single_class := false;
     proxyHttp := empty_proxy_inputs;
     proxyHttps := empty_proxy_inputs;
     proxyFtp := empty_proxy_inputs;
     proxyFallback := empty_proxy_inputs;
     restrictRtc_checked := false;
     incognito_class := false;
     button_innerText := Some "Configure incognito window settings.";
     header_innerHTML := "Proxy Configuration (regular)" |}.

(** The same page, with a form whose id is no identifier. *)
Definition numbered_page : Document :=
  {| elements := [("title", {| nodeName := "H1" |});
                  ("9form", {| nodeName := "FORM" |})];
     selector_parses := selector_parses popup;
     configGroups := configGroups popup;
     autoconfigURL_value := "";
     autoconfigData_value := "";
     bypassList_value := "";
     singleProxyForEverything_checked := false;
     single_class := false;
     proxyHttp := empty_proxy_inputs;
     proxyHttps := empty_proxy_inputs;
     proxyFtp := empty_proxy_inputs;
     proxyFallback := empty_proxy_inputs;
     restrictRtc_checked := false;
     incognito_class := false;
     button_innerText := Some "Configure incognito window settings.";
     header_innerHTML := "Proxy Configuration (regular)" |}.

(** The page with the PAC group active, a URL and a script. *)
Definition pac_form : Document :=
  with_autoconfigData_value "x"
    (with_autoconfigURL_value "http://a" (with_active_group "pac_script" popup)).

(** The page with the fixed-servers group active, the single proxy box
    checked, an Http triple that lacks its port and a complete Https
    triple. *)
Definition fixed_form : Document :=
  with_proxyInputs Https
    {| proxyScheme := "https"; proxyHost := "secure.example"; proxyPort := "443" |}
    (with_proxyInputs Http
       {| proxyScheme := "http"; proxyHost := "proxy.example"; proxyPort := "" |}
       (with_singleProxyForEverything_checked true
          (with_active_group "fixed_servers" popup))).

(** The active group of [fixed_form]. *)
Definition fixed_group : Fieldset :=
  {| fs_id := "fixed_servers"; active := true;
     inputs := [radio_input; other_input; other_input; other_input] |}.

(** A controller on the page [popup] with the regular configuration
    [regular], no incognito configuration and no access to incognito
    settings. *)
Definition world_of (regular : ProxyConfig) : World :=
  {| regularConfig_ := {| proxy := Some regular;
                          restrictRtc := Some "default" |};
     incognitoConfig_ := {| proxy := None; restrictRtc := None |};
     isAllowedIncognitoAccess_ := false;
     header_ := Some {| nodeName := "H1" |};
     form_ := {| nodeName := "FORM" |};
     document := popup |}.

Definition direct_config : ProxyConfig :=
  {| mode := "direct"; pacScript := None; rules := None |}.

(** The regular configuration is the direct mode, while the form shows the
    system mode. *)
Definition popup_world : World := world_of direct_config.

Definition auto_config : ProxyConfig :=
  {| mode := "auto_detect"; pacScript := None; rules := None |}.

Definition auto_world : World := world_of auto_config.

(** A PAC configuration that has its script as data only. *)
Definition pac_data_config : ProxyConfig :=
  {| mode := "pac_script";
     pacScript := Some {| url := None;
                          data := Some "function FindProxyForURL(url, host) { return 'DIRECT'; }";
                          mandatory := Some true |};
     rules := None |}.

Definition pac_data_world : World := world_of pac_data_config.

(** A configuration with per-scheme servers and a bypass list. *)
Definition fixed_config : ProxyConfig :=
  {| mode := "fixed_servers"; pacScript := None;
     rules := Some {| singleProxy := None;
                      proxyForHttp :=
                        Some {| scheme := "http"; host := "proxy.example";
                                port := 8080 |};
                      proxyForHttps := None;
                      proxyForFtp := None;
                      fallbackProxy :=
                        Some {| scheme := "socks5"; host := "10.0.0.1";
                                port := 1080 |};
                      bypassList := Some ["localhost"; "*.example.com"] |} |}.

Definition fixed_world : World := world_of fixed_config.

(** A browser that refuses every read and every write, and gives the
    messages as their keys. *)
Definition chrome_refusing : Chrome :=
  {| extension_isAllowedIncognitoAccess := false;
     proxy_settings_get := fun _ =>
       {| value := direct_config;
          levelOfControl := "controlled_by_other_extensions" |};
     webRTCIPHandlingPolicy_get := fun _ =>
       {| value := "default"; levelOfControl := "not_controllable" |};
     proxy_settings_set := fun _ _ => false;
     webRTCIPHandlingPolicy_set := fun _ _ => false;
     i18n_getMessage := fun key => key |}.

(** A browser that accepts every read and every write; its WebRTC policy is
    one that the form cannot show. *)
Definition chrome_granting : Chrome :=
  {| extension_isAllowedIncognitoAccess := false;
     proxy_settings_get := fun _ =>
       {| value := direct_config;
          levelOfControl := "controllable_by_this_extension" |};
     webRTCIPHandlingPolicy_get := fun _ =>
       {| value := "default_public_interface_only";
          levelOfControl := "controlled_by_this_extension" |};
     proxy_settings_set := fun _ _ => true;
     webRTCIPHandlingPolicy_set := fun _ _ => true;
     i18n_getMessage := fun key => key |}.

(** A browser that accepts the writes of the regular scope and refuses
    those of the incognito scope. *)
Definition chrome_incognito_refusing : Chrome :=
  {| extension_isAllowedIncognitoAccess := true;
     proxy_settings_get := fun _ =>
       {| value := direct_config;
          levelOfControl := "controllable_by_this_extension" |};
     webRTCIPHandlingPolicy_get := fun _ =>
       {| value := "default";
          levelOfControl := "controllable_by_this_extension" |};
     proxy_settings_set := fun scope _ =>
       match scope with
       | regular_only => true
       | incognito_persistent => false
       end;
     webRTCIPHandlingPolicy_set := fun scope _ =>
       match scope with
       | regular_only => true
       | incognito_persistent => false
       end;
     i18n_getMessage := fun key => key |}.

(** A browser that accepts the reads of the regular settings, grants the
    access to the incognito ones and refuses to have them read. *)
Definition chrome_incognito_unreadable : Chrome :=
  {| extension_isAllowedIncognitoAccess := true;
     proxy_settings_get := fun incognito =>
       {| value := direct_config;
          levelOfControl :=
            if incognito then "not_controllable"
            else "controllable_by_this_extension" |};
     webRTCIPHandlingPolicy_get := fun incognito =>
       {| value := "default";
          levelOfControl :=
            if incognito then "not_controllable"
            else "controllable_by_this_extension" |};
     proxy_settings_set := fun _ _ => true;
     webRTCIPHandlingPolicy_set := fun _ _ => true;
     i18n_getMessage := fun key => key |}.

(** A browser that accepts the read of the proxy settings and refuses that
    of the WebRTC policy. *)
Definition chrome_one_refusal : Chrome :=
  {| extension_isAllowedIncognitoAccess := false;
     proxy_settings_get := fun _ =>
       {| value := direct_config;
          levelOfControl := "controllable_by_this_extension" |};
     webRTCIPHandlingPolicy_get := fun _ =>
       {| value := "default"; levelOfControl := "not_controllable" |};
     proxy_settings_set := fun _ _ => true;
     webRTCIPHandlingPolicy_set := fun _ _ => true;
     i18n_getMessage := fun key => key |}.

(** The controller as the constructor leaves it on the page [popup]. *)
Definition fresh_world : World :=
  {| regularConfig_ := {| proxy := None; restrictRtc := None |};
     incognitoConfig_ := {| proxy := None; restrictRtc := None |};
     isAllowedIncognitoAccess_ := false;
     header_ := Some {| nodeName := "H1" |};
     form_ := {| nodeName := "FORM" |};
     document := popup |}.

(** The controller [popup_world] with the access to incognito settings. *)
Definition allowed_world : World :=
  with_isAllowedIncognitoAccess_ true popup_world.

(** The same, with an incognito configuration. *)
Definition both_world : World :=
  with_config INCOGNITO
    {| proxy := Some direct_config; restrictRtc := Some "default" |}
    allowed_world.

(** The same as [allowed_world], built with a header id that names
    nothing. *)
Definition headless_world : World :=
  {| regularConfig_ := regularConfig_ allowed_world;
     incognitoConfig_ := incognitoConfig_ allowed_world;
     isAllowedIncognitoAccess_ := true;
     header_ := None;
     form_ := form_ allowed_world;
     document := popup |}.

(** The page [popup] with no active group. *)
Definition idle_popup : Document :=
  with_configGroups (map (with_active false) (configGroups popup)) popup.

Definition idle_world : World := with_document idle_popup allowed_world.

(** A page whose second group has no radio. *)
Definition bare_page : Document :=
  with_configGroups
    [ {| fs_id := "system"; active := true; inputs := [radio_input] |};
      {| fs_id := "direct"; active := false; inputs := [other_input] |} ]
    popup.

(** The controller as the constructor leaves it on the page
    [bare_page]. *)
Definition bare_world : World := with_document bare_page fresh_world.

(** A page whose second group has no radio and whose third group is shown
    as the active one. *)
Definition two_marks_page : Document :=
  with_configGroups
    [ {| fs_id := "system"; active := true; inputs := [radio_input] |};
      {| fs_id := "direct"; active := false; inputs := [other_input] |};
      {| fs_id := "pac_script"; active := true;
         inputs := [radio_input; other_input] |} ]
    popup.

(** A page that has the two groups without fields only, and a controller
    on it whose regular configuration asks for fixed servers. *)
Definition small_page : Document :=
  with_configGroups
    [ {| fs_id := "system"; active := true; inputs := [radio_input] |};
      {| fs_id := "direct"; active := false; inputs := [radio_input] |} ]
    popup.

Definition small_world : World := with_document small_page fixed_world.

(** The page with an Http triple whose port is followed by other text. *)
Definition port_form : Document :=
  with_proxyInputs Http
    {| proxyScheme := "http"; proxyHost := "proxy.example";
       proxyPort := "8080/tcp" |}
    popup.

(** Nodes of the page [popup] and clicks on them: on the field of the PAC
    URL, inside the third group; on the single proxy box, inside the fourth
    group; on a label that is in no group. *)
Definition plain_node (name : string) : Node :=
  {| node_nodeName := name; node_type := None; node_id := IsOther false |}.

Definition group_node (n : nat) : Node :=
  {| node_nodeName := "FIELDSET"; node_type := None; node_id := IsGroup n |}.

Definition above_the_form : list Node :=
  [plain_node "FORM"; plain_node "DIV"; plain_node "BODY"; plain_node "HTML"].

Definition click_on_pacURL : Click :=
  {| target := {| node_nodeName := "INPUT"; node_type := Some "url";
                  node_id := IsOther false |};
     ancestors := plain_node "SECTION" :: group_node 2 :: above_the_form |}.

Definition click_on_single_box : Click :=
  {| target := {| node_nodeName := "INPUT"; node_type := Some "checkbox";
                  node_id := IsSingleProxyForEverything |};
     ancestors :=
       plain_node "DIV"
       :: {| node_nodeName := "SECTION"; node_type := None;
             node_id := IsSingleSection |}
       :: group_node 3 :: above_the_form |}.

Definition click_on_label : Click :=
  {| target := plain_node "LABEL"; ancestors := above_the_form |}.

(** * Properties *)

Unset Implicit Arguments.

(** ** The split of the bypass list always comes to an end *)

Module JsFacts.
Import Js.

(** A match does not end before the index where it starts. *)
Lemma match_at_ge (s : string) (q e : nat) :
  match_at s q = Some e -> (q <= e)%nat.
Proof.
  unfold match_at.
  destruct (is_comma _).
  - intros H; injection H as <-. lia.
  - destruct (_ || _); [|discriminate].
    intros H; injection H as <-. lia.
Qed.

(** The loop returns as soon as its fuel exceeds the measure. *)
Lemma split_loop_returns (s : string) :
  forall fuel p q A,
    (split_measure s p q < fuel)%nat ->
    exists r, split_loop fuel s p q A = Some r.
Proof.
  induction fuel as [|fuel IH]; intros p q A Hm; [lia|].
  simpl. destruct (q <? String.length s)%nat eqn:Hq.
  - apply Nat.ltb_lt in Hq.
    assert (Hstep : (split_measure s p (q + 1) < fuel)%nat).
    { unfold split_measure in *.
      destruct (Nat.eqb_spec p q); destruct (Nat.eqb_spec p (q + 1)); lia. }
    destruct (match_at s q) as [e|] eqn:Hmatch.
    + destruct (e =? p)%nat eqn:Hep.
      * apply IH, Hstep.
      * apply IH. apply match_at_ge in Hmatch.
        apply Nat.eqb_neq in Hep.
        unfold split_measure in *. rewrite Nat.eqb_refl.
        destruct (Nat.eqb_spec p q); lia.
    + apply IH, Hstep.
  - eexists; reflexivity.
Qed.

(** With the fuel that [split] gives it, the loop returns its array. *)
Lemma split_fuel_enough (s : string) :
  exists r, split_loop (split_fuel s) s 0 0 [] = Some r.
Proof.
  apply split_loop_returns.
  unfold split_measure, split_fuel. simpl. lia.
Qed.

(** *** A port is read back from its decimal notation *)

Lemma digits_cons (c : ascii) (k : Z) (s : string) (acc : option Z) :
  digit c = Some k ->
  digits (String c s) acc =
    digits s (Some (match acc with
                    | Some a => 10 * a + k
                    | None => k
                    end)%Z).
Proof. intros H. simpl. rewrite H. reflexivity. Qed.

Ltac read_digit :=
  match goal with
  | |- digits (String ?c _) _ = _ =>
      let d := eval vm_compute in (digit c) in
      match d with
      | Some ?k => rewrite (digits_cons c k _ _ eq_refl)
      end
  end.

Lemma digits_acc (u : Decimal.uint) :
  forall acc : positive,
    digits (NilEmpty.string_of_uint u) (Some (Zpos acc))
    = Some (Zpos (Pos.of_uint_acc u acc)).
Proof.
  induction u as [|u IH|u IH|u IH|u IH|u IH|u IH|u IH|u IH|u IH|u IH];
    intros acc; cbn [NilEmpty.string_of_uint Pos.of_uint_acc];
    [reflexivity | ..];
    read_digit; rewrite <- IH; do 2 f_equal; lia.
Qed.

Lemma digits_zero (u : Decimal.uint) :
  digits (NilEmpty.string_of_uint u) (Some 0%Z)
  = Some (Z.of_N (Pos.of_uint u)).
Proof.
  induction u as [|u IH|u IH|u IH|u IH|u IH|u IH|u IH|u IH|u IH|u IH];
    cbn [NilEmpty.string_of_uint Pos.of_uint];
    [reflexivity | read_digit; exact IH | ..];
    read_digit; apply digits_acc.
Qed.

Lemma digits_uint (u : Decimal.uint) :
  digits (NilZero.string_of_uint u) None = Some (Z.of_N (Pos.of_uint u)).
Proof.
  destruct u; cbn [NilZero.string_of_uint NilEmpty.string_of_uint Pos.of_uint];
    [reflexivity | read_digit; apply digits_zero | ..];
    read_digit; apply digits_acc.
Qed.

Lemma parseInt_uint (u : Decimal.uint) :
  parseInt_mathInt (NilZero.string_of_uint u)
  = digits (NilZero.string_of_uint u) None.
Proof. destruct u; reflexivity. Qed.

(** The integer that [parseInt] reads from the decimal notation of [z] is
    [z]. *)
Lemma parseInt_mathInt_decimal (z : Z) :
  parseInt_mathInt (decimal z) = Some z.
Proof.
  unfold decimal. destruct z as [|p|p].
  - reflexivity.
  - cbn [Z.to_int NilZero.string_of_int].
    rewrite parseInt_uint, digits_uint, DecimalPos.Unsigned.of_to. reflexivity.
  - cbn [Z.to_int NilZero.string_of_int].
    unfold parseInt_mathInt. cbn [trimStart].
    change (isStrWhiteSpaceChar "-") with false. cbv iota.
    rewrite digits_uint, DecimalPos.Unsigned.of_to. reflexivity.
Qed.

Lemma to_double_small (z : Z) :
  (Z.abs z < 2 ^ 53)%Z -> to_double z = z.
Proof.
  intros H. unfold to_double. apply Z.ltb_lt in H. rewrite H. reflexivity.
Qed.

(** [parseInt(String(z), 10)] is [z], for every integer [z] below 2^53 in
    absolute value. *)
Lemma parseInt_NumberToString (z : Z) :
  (Z.abs z < 2 ^ 53)%Z ->
  parseInt (NumberToString z) = Some z.
Proof.
  intros H. unfold parseInt, NumberToString.
  rewrite (proj2 (Z.ltb_lt _ _) H), parseInt_mathInt_decimal.
  simpl option_map. rewrite (to_double_small z H). reflexivity.
Qed.

(** *** A bypass list is read back from its notation *)

(** The notation of a list that has a first entry. *)
Lemma join_cons (e : string) (l : list string) :
  join ", " (e :: l) = e ++ join_tail l.
Proof.
  unfold join. revert e. induction l as [|x l IH]; intros e.
  - simpl. induction e; simpl; congruence.
  - change (String.concat ", " (e :: x :: l))
      with (e ++ ", " ++ String.concat ", " (x :: l)).
    rewrite IH. reflexivity.
Qed.

Lemma length_app (a b : string) :
  String.length (a ++ b) = (String.length a + String.length b)%nat.
Proof. induction a; simpl; congruence. Qed.

Lemma get_app_r (a b : string) (k : nat) :
  get (String.length a + k) (a ++ b) = get k b.
Proof. induction a; simpl; auto. Qed.

Lemma drop_app_r (a b : string) (k : nat) :
  drop (String.length a + k) (a ++ b) = drop k b.
Proof. induction a; simpl; auto. Qed.

Lemma substring_app_r (a b : string) (n : nat) :
  substring (String.length a) n (a ++ b) = substring 0 n b.
Proof. induction a; simpl; auto. Qed.

Lemma substring_0_app (a b : string) :
  substring 0 (String.length a) (a ++ b) = a.
Proof. induction a; simpl; [destruct b; reflexivity | congruence]. Qed.

(** The character at an index of a clean entry is neither white space nor
    a comma. *)
Lemma at_clean (e t : string) (k : nat) :
  all_clean e = true -> (k < String.length e)%nat ->
  exists c r, drop k (e ++ t) = String c r /\ get k (e ++ t) = Some c
              /\ isStrWhiteSpaceChar c = false /\ Ascii.eqb c "," = false.
Proof.
  revert k. induction e as [|c e IH]; intros k Hc Hk; simpl in *; [lia|].
  apply andb_prop in Hc. destruct Hc as [Hc He].
  apply andb_prop in Hc. destruct Hc as [Hw Hcomma].
  destruct k as [|k].
  - exists c, (e ++ t). repeat split.
    + now apply negb_true_iff.
    + now apply negb_true_iff.
  - apply IH; [assumption | lia].
Qed.

Lemma line_terminator_is_space (c : ascii) :
  isStrWhiteSpaceChar c = false -> isLineTerminator c = false.
Proof.
  unfold isStrWhiteSpaceChar, isLineTerminator.
  destruct (nat_of_ascii c =? 10)%nat, (nat_of_ascii c =? 13)%nat;
    rewrite ?orb_true_r; simpl; auto; discriminate.
Qed.

Lemma append_assoc_s (a b c : string) : (a ++ b) ++ c = a ++ b ++ c.
Proof. induction a; simpl; congruence. Qed.

(** Inside an entry, the separator matches only at the start of a line. *)
Lemma match_at_inside (done e t : string) (k : nat) :
  all_clean e = true -> (k < String.length e)%nat ->
  match_at (done ++ e ++ t) (String.length done + k) =
    if line_start (done ++ e ++ t) (String.length done + k)
    then Some (String.length done + k)%nat
    else None.
Proof.
  intros He Hk. unfold match_at.
  rewrite drop_app_r.
  destruct (at_clean e t k He Hk) as [c [r [Hd [Hg [Hw Hc]]]]].
  rewrite Hd. simpl wsrun. rewrite Hw.
  rewrite Nat.add_0_r, get_app_r, Hg. simpl is_comma. rewrite Hc.
  rewrite Nat.sub_diag. simpl has_line_terminator.
  rewrite orb_false_r. reflexivity.
Qed.

(** No line starts after a character of an entry. *)
Lemma line_start_inside (done e t : string) (k : nat) :
  all_clean e = true -> (k < String.length e)%nat ->
  line_start (done ++ e ++ t) (String.length done + S k) = false.
Proof.
  intros He Hk. rewrite Nat.add_succ_r. simpl line_start.
  rewrite get_app_r.
  destruct (at_clean e t k He Hk) as [c [r [_ [Hg [Hw _]]]]].
  rewrite Hg. apply line_terminator_is_space, Hw.
Qed.

Lemma drop_past (done e t : string) (k : nat) :
  drop (String.length done + String.length e + k) (done ++ e ++ t) = drop k t.
Proof. rewrite <- Nat.add_assoc, !drop_app_r. reflexivity. Qed.

Lemma get_past (done e t : string) (k : nat) :
  get (String.length done + String.length e + k) (done ++ e ++ t) = get k t.
Proof. rewrite <- Nat.add_assoc, !get_app_r. reflexivity. Qed.

(** At the end of an entry that another one follows, the separator matches
    the comma and the space. *)
Lemma match_at_comma (done e x t : string) :
  clean_entry x ->
  match_at (done ++ e ++ ", " ++ x ++ t) (String.length done + String.length e)
  = Some (String.length done + String.length e + 2)%nat.
Proof.
  intros [Hx Hc]. destruct x as [|c r]; [contradiction|].
  simpl in Hc. apply andb_prop in Hc. destruct Hc as [Hc _].
  apply andb_prop in Hc. destruct Hc as [Hw _]. apply negb_true_iff in Hw.
  unfold match_at.
  pose proof (drop_past done e (", " ++ String c r ++ t) 0) as D0.
  rewrite Nat.add_0_r in D0. rewrite D0. simpl wsrun.
  pose proof (get_past done e (", " ++ String c r ++ t) 0) as G0.
  rewrite G0. simpl is_comma. cbv iota.
  rewrite Nat.add_0_r, drop_past. simpl. rewrite Hw. f_equal. lia.
Qed.

(** The loop on the notation of a list of clean entries: [done] is what
    comes before the current entry [e], [k] the characters of [e] that have
    been passed, [rest] the entries after [e]. *)
Lemma split_loop_clean :
  forall fuel done e rest k A,
    clean_entry e -> Forall clean_entry rest ->
    (k <= String.length e)%nat ->
    done = "" \/ line_start (done ++ e ++ join_tail rest) (String.length done) = false ->
    (String.length (done ++ e ++ join_tail rest) - (String.length done + k) < fuel)%nat ->
    split_loop fuel (done ++ e ++ join_tail rest) (String.length done)
      (String.length done + k) A
    = Some (A ++ e :: rest)%list.
Proof.
  induction fuel as [|fuel IH]; intros done e rest k A He Hrest Hk Hp Hfuel; [lia|].
  assert (Hlen : String.length (done ++ e ++ join_tail rest)
                 = (String.length done + String.length e
                    + String.length (join_tail rest))%nat)
    by (rewrite !length_app; lia).
  simpl split_loop.
  destruct (Nat.eq_dec k (String.length e)) as [->|Hne].
  - (* at the end of the entry *)
    destruct rest as [|x rest].
    + simpl join_tail in *. rewrite Hlen. simpl String.length.
      rewrite Nat.add_0_r, Nat.ltb_irrefl.
      replace (String.length done + String.length e - String.length done)%nat
        with (String.length e) by lia.
      rewrite substring_app_r, substring_0_app. reflexivity.
    + inversion Hrest as [|? ? Hx Hrest']; subst.
      assert (Hlt : (String.length done + String.length e
                     <? String.length (done ++ e ++ join_tail (x :: rest)))%nat = true).
      { apply Nat.ltb_lt. rewrite Hlen. simpl. lia. }
      rewrite Hlt. cbn [join_tail].
      rewrite (match_at_comma done e x (join_tail rest) Hx).
      destruct (Nat.eqb_spec (String.length done + String.length e + 2)
                  (String.length done)) as [Habs|_]; [lia|].
      replace (String.length done + String.length e - String.length done)%nat
        with (String.length e) by lia.
      rewrite substring_app_r, substring_0_app.
      pose proof (IH (done ++ e ++ ", ") x rest 0%nat (A ++ [e])%list Hx Hrest') as IH'.
      assert (Hs : (done ++ e ++ ", ") ++ x ++ join_tail rest
                   = done ++ e ++ ", " ++ x ++ join_tail rest).
      { rewrite !append_assoc_s. reflexivity. }
      assert (Hl : String.length (done ++ e ++ ", ")
                   = (String.length done + String.length e + 2)%nat).
      { rewrite !length_app. simpl. lia. }
      rewrite Hs, Hl, Nat.add_0_r in IH'.
      rewrite IH'.
      * rewrite <- app_assoc. reflexivity.
      * lia.
      * right. replace (String.length done + String.length e + 2)%nat
          with (S (String.length done + String.length e + 1)) by lia.
        simpl line_start. rewrite get_past. reflexivity.
      * rewrite Hlen in Hfuel. rewrite !length_app. simpl String.length.
        cbn [join_tail] in Hfuel. rewrite !length_app in Hfuel.
        simpl String.length in Hfuel. lia.
  - (* inside the entry *)
    assert (Hk' : (k < String.length e)%nat) by lia.
    assert (Hlt : (String.length done + k
                   <? String.length (done ++ e ++ join_tail rest))%nat = true).
    { apply Nat.ltb_lt. rewrite Hlen. lia. }
    rewrite Hlt.
    rewrite (match_at_inside done e (join_tail rest) k (proj2 He) Hk').
    assert (Hnext : split_loop fuel (done ++ e ++ join_tail rest)
                      (String.length done) (String.length done + k + 1) A
                    = Some (A ++ e :: rest)%list).
    { rewrite <- Nat.add_assoc. apply IH; auto; lia. }
    destruct (line_start (done ++ e ++ join_tail rest) (String.length done + k))
      eqn:Hls; [|exact Hnext].
    destruct k as [|k].
    + rewrite Nat.add_0_r in *. rewrite Nat.eqb_refl. exact Hnext.
    + rewrite (line_start_inside done e (join_tail rest) k (proj2 He)) in Hls
        by lia.
      discriminate.
Qed.

(** A list of clean entries is read back from its notation. *)
Lemma split_join_clean (l : list string) :
  Forall clean_entry l -> split (join ", " l) = l.
Proof.
  intros Hl. destruct l as [|e rest]; [reflexivity|].
  inversion Hl as [|? ? He Hrest]; subst.
  rewrite join_cons.
  pose proof (split_loop_clean (split_fuel (e ++ join_tail rest)) "" e rest 0 []
                He Hrest (Nat.le_0_l _) (or_introl eq_refl)) as H.
  simpl in H.
  unfold split.
  destruct (e ++ join_tail rest) as [|c r] eqn:Hs.
  - destruct e; [destruct He; contradiction | discriminate].
  - rewrite H; [reflexivity|]. unfold split_fuel. lia.
Qed.

End JsFacts.

(** ** Reasoning on computations *)

Lemma preserves_bind {S A B X} (f : S -> X) (m : M S A) (k : A -> M S B) :
  preserves f m -> (forall a, preserves f (k a)) -> preserves f (bind m k).
Proof.
  intros Hm Hk s. specialize (Hm s). unfold bind, state in *.
  destruct (m s) as [[[a|e] s1] ev1]; simpl in *; [|exact Hm].
  specialize (Hk a s1). unfold state in Hk.
  destruct (k a s1) as [[r s2] ev2]; simpl in *. congruence.
Qed.

Lemma preserves_ret {S A X} (f : S -> X) (a : A) : preserves f (ret a).
Proof. intros s; reflexivity. Qed.

Lemma preserves_emit {S X} (f : S -> X) (e : Event) : preserves f (emit e).
Proof. intros s; reflexivity. Qed.

Lemma preserves_gets {S A X} (f : S -> X) (g : S -> A) : preserves f (gets g).
Proof. intros s; reflexivity. Qed.

Lemma preserves_modify {S X} (f : S -> X) (g : S -> S) :
  (forall s, f (g s) = f s) -> preserves f (modify g).
Proof. intros H s; apply H. Qed.

Lemma preserves_on_document {A X} (f : World -> X) (m : M Document A) :
  (forall d w, f (with_document d w) = f w) -> preserves f (on_document m).
Proof.
  intros H w. unfold on_document, state.
  destruct (m (document w)) as [[r d] ev]; simpl. apply H.
Qed.

Lemma state_modify_bind {S B} (g : S -> S) (k : unit -> M S B) (s : S) :
  state (bind (modify g) k s) = state (k tt (g s)).
Proof.
  unfold bind, modify, state. destruct (k tt (g s)) as [[r s2] ev2]. reflexivity.
Qed.

Lemma state_gets_bind {S A B} (g : S -> A) (k : A -> M S B) (s : S) :
  state (bind (gets g) k s) = state (k (g s) s).
Proof.
  unfold bind, gets, state. destruct (k (g s) s) as [[r s2] ev2]. reflexivity.
Qed.

Lemma preserves_on_document_field {A X} (g : Document -> X) (m : M Document A) :
  preserves g m -> preserves (fun w => g (document w)) (on_document m).
Proof.
  intros H w. specialize (H (document w)). unfold on_document, state in *.
  destruct (m (document w)) as [[r d] ev]; simpl in *. exact H.
Qed.

Create HintDb preserves.

#[local] Hint Resolve preserves_ret preserves_emit preserves_gets
  preserves_modify : preserves.

(** ** Extraction: [generateProxyConfig_] *)

Lemma truthy_false_iff (s : string) : Js.truthy s = false <-> s = "".
Proof. destruct s; simpl; split; congruence. Qed.

Lemma truthy_true_iff (s : string) : Js.truthy s = true <-> s <> "".
Proof. destruct s; simpl; split; congruence. Qed.

(** A triple is read as absent as soon as one of its three parts is falsy. *)
Lemma getProxyImpl_incomplete (type : ProxyKind) (d : Document) :
  proxyScheme (proxyInputs type d) = ""
  \/ proxyHost (proxyInputs type d) = ""
  \/ Js.truthy_num (Js.parseInt (proxyPort (proxyInputs type d))) = false ->
  getProxyImpl_ type d = None.
Proof.
  unfold getProxyImpl_. intros [H | [H | H]]; rewrite H; simpl.
  - reflexivity.
  - rewrite andb_false_r. reflexivity.
  - rewrite andb_false_r. reflexivity.
Qed.

(** A triple that is read has three truthy parts. *)
Lemma getProxyImpl_complete (type : ProxyKind) (d : Document) (p : ProxyServer) :
  getProxyImpl_ type d = Some p ->
  scheme p = proxyScheme (proxyInputs type d) /\ scheme p <> ""
  /\ host p = proxyHost (proxyInputs type d) /\ host p <> ""
  /\ Js.parseInt (proxyPort (proxyInputs type d)) = Some (port p)
  /\ port p <> 0%Z.
Proof.
  unfold getProxyImpl_.
  destruct (Js.truthy (proxyScheme _)) eqn:Hs; simpl; [|discriminate].
  destruct (Js.truthy (proxyHost _)) eqn:Hh; simpl; [|discriminate].
  destruct (Js.parseInt _) as [z|] eqn:Hp; simpl; [|discriminate].
  destruct (Z.eqb_spec z 0); simpl; [discriminate|].
  intros H; injection H as <-; simpl.
  apply truthy_true_iff in Hs, Hh. repeat split; auto.
Qed.

(** C5.  When the PAC group is the active one, extraction gives the PAC mode
    with the URL of the pacURL field when that field is not empty, whatever
    the PAC data field holds; else the PAC mode with the data of the PAC
    data field when that one is not empty; else the auto-detect mode. *)
Theorem generateProxyConfig_pac (d : Document) (el : Fieldset) :
  first_active d = Some el ->
  fs_id el = ProxyTypes.PAC ->
  (autoconfigURL_value d <> "" ->
   generateProxyConfig_ d =
     Return (Some {| mode := ProxyTypes.PAC;
                     pacScript := Some {| url := Some (autoconfigURL_value d);
                                          data := None;
                                          mandatory := Some true |};
                     rules := None |}))
  /\ (autoconfigURL_value d = "" -> autoconfigData_value d <> "" ->
      generateProxyConfig_ d =
        Return (Some {| mode := ProxyTypes.PAC;
                        pacScript := Some {| url := None;
                                             data := Some (autoconfigData_value d);
                                             mandatory := Some true |};
                        rules := None |}))
  /\ (autoconfigURL_value d = "" -> autoconfigData_value d = "" ->
      generateProxyConfig_ d =
        Return (Some {| mode := ProxyTypes.AUTO; pacScript := None;
                        rules := None |})).
Proof.
  intros Hact Hid. unfold generateProxyConfig_.
  rewrite Hact, Hid. simpl.
  unfold get_pacURL, get_manualPac.
  repeat split.
  - intros H. apply truthy_true_iff in H. rewrite H. reflexivity.
  - intros H1 H2. apply truthy_true_iff in H2. rewrite H1, H2. reflexivity.
  - intros H1 H2. rewrite H1, H2. reflexivity.
Qed.

(** What extraction returns when the fixed-servers group is the active
    one. *)
Lemma generateProxyConfig_fixed (d : Document) (el : Fieldset) :
  first_active d = Some el ->
  fs_id el = ProxyTypes.FIXED ->
  generateProxyConfig_ d =
    Return (Some {| mode := ProxyTypes.FIXED; pacScript := None;
                    rules := Some
                      match get_singleProxy d with
                      | Some p =>
                          {| singleProxy := Some p;
                             proxyForHttp := None; proxyForHttps := None;
                             proxyForFtp := None; fallbackProxy := None;
                             bypassList := Some (get_bypassList d) |}
                      | None =>
                          {| singleProxy := None;
                             proxyForHttp := get_httpProxy d;
                             proxyForHttps := get_httpsProxy d;
                             proxyForFtp := get_ftpProxy d;
                             fallbackProxy := get_fallbackProxy d;
                             bypassList := Some (get_bypassList d) |}
                      end |}).
Proof.
  intros Hact Hid. unfold generateProxyConfig_.
  rewrite Hact, Hid. simpl.
  destruct (get_singleProxy d); reflexivity.
Qed.

(** C7.  When the fixed-servers group is the active one, extraction returns
    a configuration whose rules never carry a single proxy together with a
    per-scheme proxy: either [singleProxy] is absent, or the four per-scheme
    entries are. *)
Theorem generateProxyConfig_fixed_exclusive (d : Document) (el : Fieldset) :
  first_active d = Some el ->
  fs_id el = ProxyTypes.FIXED ->
  exists r : ProxyRules,
    generateProxyConfig_ d =
      Return (Some {| mode := ProxyTypes.FIXED; pacScript := None;
                      rules := Some r |})
    /\ (singleProxy r = None
        \/ (proxyForHttp r = None /\ proxyForHttps r = None
            /\ proxyForFtp r = None /\ fallbackProxy r = None)).
Proof.
  intros Hact Hid.
  rewrite (generateProxyConfig_fixed d el Hact Hid).
  eexists; split; [reflexivity|].
  destruct (get_singleProxy d); simpl; auto.
Qed.

(** C10.  When the fixed-servers group is the active one and the single
    proxy box is checked while the Http triple is incomplete (its scheme or
    its host is empty, or its port is empty or zero), extraction takes the
    per-scheme branch: no [singleProxy], and the four per-scheme entries as
    the form gives them (the Http one absent). *)
Theorem generateProxyConfig_single_incomplete (d : Document) (el : Fieldset) :
  first_active d = Some el ->
  fs_id el = ProxyTypes.FIXED ->
  singleProxyForEverything_checked d = true ->
  proxyScheme (proxyHttp d) = ""
  \/ proxyHost (proxyHttp d) = ""
  \/ proxyPort (proxyHttp d) = ""
  \/ Js.parseInt (proxyPort (proxyHttp d)) = Some 0%Z ->
  generateProxyConfig_ d =
    Return (Some {| mode := ProxyTypes.FIXED; pacScript := None;
                    rules := Some {| singleProxy := None;
                                     proxyForHttp := None;
                                     proxyForHttps := get_httpsProxy d;
                                     proxyForFtp := get_ftpProxy d;
                                     fallbackProxy := get_fallbackProxy d;
                                     bypassList := Some (get_bypassList d) |} |}).
Proof.
  intros Hact Hid Hchk Hinc.
  assert (Hhttp : get_httpProxy d = None).
  { apply getProxyImpl_incomplete. simpl.
    destruct Hinc as [H | [H | [H | H]]]; auto;
      right; right; rewrite H; reflexivity. }
  rewrite (generateProxyConfig_fixed d el Hact Hid).
  unfold get_singleProxy. rewrite Hchk, Hhttp. reflexivity.
Qed.

(** *** The three theorems at concrete forms *)

(** Both PAC fields are filled: the URL wins. *)
Lemma generateProxyConfig_pac_witness :
  generateProxyConfig_ pac_form =
    Return (Some {| mode := "pac_script";
                    pacScript := Some {| url := Some "http://a";
                                         data := None;
                                         mandatory := Some true |};
                    rules := None |}).
Proof.
  refine (proj1 (generateProxyConfig_pac pac_form
                   {| fs_id := "pac_script"; active := true;
                      inputs := [radio_input; other_input; other_input] |}
                   eq_refl eq_refl) _).
  discriminate.
Defined.

(** The rules that [fixed_form] gives are exclusive. *)
Lemma generateProxyConfig_fixed_exclusive_witness :
  exists r : ProxyRules,
    generateProxyConfig_ fixed_form =
      Return (Some {| mode := "fixed_servers"; pacScript := None;
                      rules := Some r |})
    /\ (singleProxy r = None
        \/ (proxyForHttp r = None /\ proxyForHttps r = None
            /\ proxyForFtp r = None /\ fallbackProxy r = None)).
Proof.
  exact (generateProxyConfig_fixed_exclusive fixed_form fixed_group
           eq_refl eq_refl).
Defined.

(** The single proxy box of [fixed_form] is checked and its Http triple has
    no port: the per-scheme entries are extracted. *)
Lemma generateProxyConfig_single_incomplete_witness :
  generateProxyConfig_ fixed_form =
    Return (Some {| mode := "fixed_servers"; pacScript := None;
                    rules := Some {| singleProxy := None;
                                     proxyForHttp := None;
                                     proxyForHttps :=
                                       Some {| scheme := "https";
                                               host := "secure.example";
                                               port := 443 |};
                                     proxyForFtp := None;
                                     fallbackProxy := None;
                                     bypassList := Some [] |} |}).
Proof.
  exact (generateProxyConfig_single_incomplete fixed_form fixed_group
           eq_refl eq_refl eq_refl
           (or_intror (or_intror (or_introl eq_refl)))).
Defined.

(** ** Activation of a group: [changeActive_] *)

Lemma check_radio_some (l : list Input) :
  existsb radio l = true -> exists l', check_radio l = Some l'.
Proof.
  induction l as [|i l IH]; simpl; [discriminate|].
  destruct (radio i); simpl.
  - eexists; reflexivity.
  - intros H. destruct (IH H) as [l' ->]. eexists; reflexivity.
Qed.

(** Every group of the page [popup] has its radio. *)
Lemma popup_has_radios : Forall has_radio (configGroups popup).
Proof. repeat constructor. Qed.

(** The first radio is the only input that [check_radio] touches, and it
    only touches its [checked] property. *)
Lemma check_radio_frame (l l' : list Input) :
  check_radio l = Some l' ->
  map radio l' = map radio l /\ map disabled l' = map disabled l.
Proof.
  revert l'. induction l as [|i l IH]; simpl; intros l'; [discriminate|].
  destruct (radio i) eqn:Hr.
  - intros H; injection H as <-. simpl. rewrite ?Hr. split; reflexivity.
  - destruct (check_radio l) as [l0|]; simpl; [|discriminate].
    intros H; injection H as <-. simpl.
    destruct (IH l0 eq_refl) as [-> ->]. rewrite ?Hr. split; reflexivity.
Qed.

(** Past the group to activate, the loop removes the mark of every group. *)
Lemma changeActive_loop_after (n i : nat) (els : list Fieldset) :
  (n < i)%nat ->
  changeActive_loop (Some n) i els = (Return tt, map (with_active false) els).
Proof.
  revert i. induction els as [|el els IH]; intros i Hi; simpl; [reflexivity|].
  destruct (Nat.eqb_spec n i); [lia|].
  rewrite IH by lia. reflexivity.
Qed.

(** Up to the group to activate, the same; that group gets the mark and its
    first radio is checked. *)
Lemma changeActive_loop_at (n i : nat) (els : list Fieldset) (el : Fieldset)
  (l : list Input) :
  (i <= n)%nat ->
  nth_error els (n - i) = Some el ->
  check_radio (inputs el) = Some l ->
  changeActive_loop (Some n) i els =
    (Return tt,
     (map (with_active false) (firstn (n - i) els)
      ++ with_inputs l (with_active true el)
      :: map (with_active false) (skipn (S (n - i)) els))%list).
Proof.
  revert i. induction els as [|e els IH]; intros i Hi Hnth Hrad.
  - destruct (n - i)%nat; discriminate.
  - simpl changeActive_loop. destruct (Nat.eqb_spec n i) as [->|Hne].
    + rewrite Nat.sub_diag in *. simpl in Hnth. injection Hnth as ->.
      simpl. rewrite Hrad.
      rewrite changeActive_loop_after by lia. reflexivity.
    + replace (n - i)%nat with (S (n - S i)) in * by lia.
      simpl in Hnth. rewrite (IH (S i)) by (auto; lia).
      reflexivity.
Qed.

Lemma changeActive_returns (d : Document) (n : nat) (el : Fieldset) :
  nth_error (configGroups d) n = Some el ->
  has_radio el ->
  exists l,
    check_radio (inputs el) = Some l
    /\ changeActive_ (Some n) d =
         (Return tt,
          recalcDisabledInputs_
            (with_configGroups (activated n el l (configGroups d)) d),
          []).
Proof.
  intros Hnth Hrad. destruct (check_radio_some _ Hrad) as [l Hl].
  exists l; split; [exact Hl|].
  unfold changeActive_.
  rewrite (changeActive_loop_at n 0 (configGroups d) el l);
    [ rewrite Nat.sub_0_r; reflexivity
    | lia
    | rewrite Nat.sub_0_r; exact Hnth
    | exact Hl ].
Qed.

Lemma check_radio_none (l : list Input) :
  existsb radio l = false -> check_radio l = None.
Proof.
  induction l as [|i l IH]; simpl; [reflexivity|].
  destruct (radio i); simpl; [discriminate|].
  intros H. rewrite (IH H). reflexivity.
Qed.

(** X9.  The activation of a group that has no radio throws a [TypeError]:
    the assignment to [radio.checked] is on [null]. *)
Lemma changeActive_without_radio (d : Document) (n : nat) (el : Fieldset) :
  nth_error (configGroups d) n = Some el ->
  existsb radio (inputs el) = false ->
  outcome (changeActive_ (Some n) d) = Throw TypeError.
Proof.
  intros Hnth Hrad. unfold changeActive_, outcome.
  assert (H : forall els i,
             nth_error els n = Some el ->
             fst (changeActive_loop (Some (i + n)%nat) i els) = Throw TypeError).
  { clear Hnth. revert el Hrad.
    induction n as [|n IH]; intros el Hrad [|e els] i Hnth; try discriminate.
    - simpl in Hnth. injection Hnth as ->. simpl.
      rewrite Nat.add_0_r, Nat.eqb_refl, (check_radio_none _ Hrad). reflexivity.
    - simpl in Hnth. simpl.
      destruct (Nat.eqb_spec (i + S n) i) as [Habs|_]; [lia|].
      specialize (IH el Hrad els (S i) Hnth).
      replace (S i + n)%nat with (i + S n)%nat in IH by lia.
      destruct (changeActive_loop (Some (i + S n)%nat) (S i) els); simpl in *.
      exact IH. }
  specialize (H (configGroups d) 0%nat Hnth). simpl in H.
  destruct (changeActive_loop (Some n) 0 (configGroups d)) as [r els].
  simpl in H. subst r. reflexivity.
Qed.

Lemma filter_active_unmarked (els : list Fieldset) :
  filter active (map recalc_group (map (with_active false) els)) = [].
Proof. induction els; simpl; auto. Qed.

Lemma nth_error_unmarked (els : list Fieldset) (m : nat) (el : Fieldset) :
  nth_error (map recalc_group (map (with_active false) els)) m = Some el ->
  active el = false.
Proof.
  rewrite map_map. intros H. apply nth_error_In in H.
  apply in_map_iff in H. destruct H as [x [<- _]]. reflexivity.
Qed.

Lemma recalc_inputs_disabled (l : list Input) (i : Input) :
  In i (recalc_inputs false l) -> radio i = false -> disabled i = true.
Proof.
  unfold recalc_inputs. intros H Hr.
  apply in_map_iff in H. destruct H as [x [<- Hx]].
  destruct (radio x) eqn:E; simpl in *; [congruence | reflexivity].
Qed.

Lemma recalc_inputs_radios (b : bool) (l : list Input) :
  filter radio (recalc_inputs b l) = filter radio l.
Proof.
  unfold recalc_inputs. induction l as [|i l IH]; simpl; [reflexivity|].
  destruct (radio i) eqn:E; simpl; rewrite ?E, IH; reflexivity.
Qed.

(** The group at each position after the activation of position [n]. *)
Lemma nth_error_activated (n : nat) (el : Fieldset) (l : list Input) :
  forall (els : list Fieldset) (m : nat),
    nth_error els n = Some el ->
    nth_error (map recalc_group (activated n el l els)) m =
      if (m =? n)%nat
      then Some (recalc_group (with_inputs l (with_active true el)))
      else option_map (fun e => recalc_group (with_active false e))
             (nth_error els m).
Proof.
  unfold activated.
  induction n as [|n IH]; intros [|e els] m Hnth; try discriminate.
  - simpl in Hnth. injection Hnth as ->.
    destruct m as [|m]; simpl; [reflexivity|].
    rewrite map_map, nth_error_map. reflexivity.
  - simpl in Hnth. destruct m as [|m]; simpl; [reflexivity|].
    apply (IH els m Hnth).
Qed.

Lemma filter_active_activated (n : nat) (el : Fieldset) (l : list Input)
  (els : list Fieldset) :
  filter active (map recalc_group (activated n el l els)) =
    [recalc_group (with_inputs l (with_active true el))].
Proof.
  unfold activated.
  rewrite map_app, filter_app. simpl.
  rewrite !filter_active_unmarked. reflexivity.
Qed.

(** On a group that has no radio the loop stops at that group, which it has
    marked: the groups before it are unmarked, those after it are as they
    were. *)
Lemma changeActive_loop_throws (n : nat) (el : Fieldset) :
  existsb radio (inputs el) = false ->
  forall els i,
    nth_error els n = Some el ->
    changeActive_loop (Some (i + n)%nat) i els =
      (Throw TypeError,
       (map (with_active false) (firstn n els)
        ++ with_active true el :: skipn (S n) els)%list).
Proof.
  intros Hrad.
  induction n as [|n IH]; intros [|e els] i Hnth; try discriminate.
  - simpl in Hnth. injection Hnth as ->. simpl.
    rewrite Nat.add_0_r, Nat.eqb_refl, (check_radio_none _ Hrad). reflexivity.
  - simpl in Hnth. cbn [changeActive_loop].
    destruct (Nat.eqb_spec (i + S n) i) as [Habs|_]; [lia|].
    specialize (IH els (S i) Hnth).
    replace (S i + n)%nat with (i + S n)%nat in IH by lia.
    rewrite IH. reflexivity.
Qed.

(** C6, as the code has it, for every group of the form.  After the
    activation of a group that has its radio, exactly one group is marked
    active, it is that group, and every input other than a radio in every
    other group is disabled; the radios keep the [disabled] state they had.
    The activation of a group that has no radio throws a [TypeError] once it
    has marked that group: the groups before it are unmarked, the groups
    after it keep the marks they had, and no input is disabled or
    enabled. *)
Theorem changeActive_exclusive (d : Document) (n : nat) (el : Fieldset) :
  nth_error (configGroups d) n = Some el ->
  (has_radio el ->
   exists d',
     changeActive_ (Some n) d = (Return tt, d', [])
     /\ List.length (filter active (configGroups d')) = 1%nat
     /\ (forall m el',
           nth_error (configGroups d') m = Some el' ->
           (active el' = true <-> m = n))
     /\ (forall el' i,
           In el' (configGroups d') -> active el' = false ->
           In i (inputs el') -> radio i = false -> disabled i = true)
     /\ (forall m el0 el',
           nth_error (configGroups d) m = Some el0 ->
           nth_error (configGroups d') m = Some el' ->
           map disabled (filter radio (inputs el'))
           = map disabled (filter radio (inputs el0))))
  /\ (existsb radio (inputs el) = false ->
      changeActive_ (Some n) d =
        (Throw TypeError,
         with_configGroups
           (map (with_active false) (firstn n (configGroups d))
            ++ with_active true el :: skipn (S n) (configGroups d))%list
           d,
         [])).
Proof.
  intros Hnth. split; [intros Hrad | intros Hrad].
  2:{ unfold changeActive_.
      pose proof (changeActive_loop_throws n el Hrad (configGroups d) 0 Hnth)
        as Hloop.
      rewrite Nat.add_0_l in Hloop. rewrite Hloop. reflexivity. }
  destruct (changeActive_returns d n el Hnth Hrad) as [l [Hl Hrun]].
  eexists; split; [exact Hrun|].
  unfold recalcDisabledInputs_; simpl.
  fold recalc_group.
  split; [|split; [|split]].
  - rewrite filter_active_activated. reflexivity.
  - intros m el' H.
    rewrite (nth_error_activated n el l _ m Hnth) in H.
    destruct (Nat.eqb_spec m n) as [->|Hne].
    + injection H as <-. simpl. split; reflexivity.
    + destruct (nth_error (configGroups d) m); simpl in H; [|discriminate].
      injection H as <-. simpl. split; [discriminate | contradiction].
  - intros el' i Hin Hact Hi Hr.
    apply In_nth_error in Hin. destruct Hin as [m Hm].
    rewrite (nth_error_activated n el l _ m Hnth) in Hm.
    destruct (m =? n)%nat.
    + injection Hm as <-. simpl in Hact. discriminate.
    + destruct (nth_error (configGroups d) m); simpl in Hm; [|discriminate].
      injection Hm as <-. simpl in Hi.
      apply (recalc_inputs_disabled _ _ Hi Hr).
  - intros m el0 el' H0 H'.
    rewrite (nth_error_activated n el l _ m Hnth) in H'.
    destruct (Nat.eqb_spec m n) as [->|].
    + injection H' as <-. simpl.
      rewrite recalc_inputs_radios.
      rewrite Hnth in H0. injection H0 as <-.
      clear - Hl. revert l Hl.
      induction (inputs el) as [|i r IH]; intros l Hl; [discriminate|].
      simpl in Hl. destruct (radio i) eqn:Hr.
      * injection Hl as <-. simpl. rewrite Hr. reflexivity.
      * destruct (check_radio r) as [l0|]; [|discriminate].
        injection Hl as <-. simpl. rewrite Hr. apply IH. reflexivity.
    + rewrite H0 in H'. simpl in H'. injection H' as <-. simpl.
      rewrite recalc_inputs_radios. reflexivity.
Qed.

(** The activation of the PAC group of the page [popup], and that of the
    second group of the page [bare_page], which has no radio: it throws and
    leaves the first and the second group marked. *)
Lemma changeActive_exclusive_witness :
  (exists d',
     changeActive_ (Some 2%nat) popup = (Return tt, d', [])
     /\ List.length (filter active (configGroups d')) = 1%nat)
  /\ outcome (changeActive_ (Some 1%nat) bare_page) = Throw TypeError
  /\ map active (configGroups (state (changeActive_ (Some 1%nat) bare_page)))
     = [false; true]
  /\ map active (configGroups (state (changeActive_ (Some 1%nat) two_marks_page)))
     = [false; true; true].
Proof.
  split; [|split; [|split]].
  - destruct (changeActive_exclusive popup 2
                {| fs_id := "pac_script"; active := false;
                   inputs := [radio_input; other_input; other_input] |}
                eq_refl)
      as [H _].
    destruct (H eq_refl) as [d' [H1 [H2 _]]].
    exists d'. split; assumption.
  - rewrite (proj2 (changeActive_exclusive bare_page 1
                      {| fs_id := "direct"; active := false;
                         inputs := [other_input] |}
                      eq_refl) eq_refl).
    reflexivity.
  - reflexivity.
  - reflexivity.
Defined.

(** C6, as the claim words it, fails on the radios: after the activation of
    the first group of the page, the radio of the second group, which is not
    active, is not disabled. *)
Lemma changeActive_radio_not_disabled :
  outcome (changeActive_ (Some 0%nat) popup) = Return tt
  /\ ~ (forall el i,
          In el (configGroups (state (changeActive_ (Some 0%nat) popup))) ->
          active el = false ->
          In i (inputs el) ->
          disabled i = true).
Proof.
  split; [reflexivity|].
  intros H.
  specialize (H {| fs_id := "direct"; active := false; inputs := [radio_input] |}
                radio_input).
  simpl in H.
  assert (C : false = true) by (apply H; auto).
  discriminate C.
Qed.

(** ** Rendering: [recalcFormValues_] *)

Lemma with_config_same (config : WindowTypes) (w : World) :
  forall which,
    config_of which (with_config config (config_of config w) w)
    = config_of which w.
Proof. intros which; destruct which, config; reflexivity. Qed.

(** The configuration objects after a rendering, whether it returns or
    throws: the rendered one has been normalized, and that is all. *)
Lemma recalcFormValues_configs (config : WindowTypes) (w : World) :
  forall which,
    config_of which (state (recalcFormValues_ config w)) =
      config_of which (with_config config (normalized (config_of config w)) w).
Proof.
  intros which. unfold recalcFormValues_, normalized.
  rewrite !state_gets_bind.
  destruct (proxy (config_of config w)) as [c|] eqn:Hc;
    destruct (restrictRtc (config_of config w)) as [r|] eqn:Hr;
    try (rewrite with_config_same; reflexivity).
  rewrite state_modify_bind.
  match goal with
  | |- config_of which (state (?m ?w1)) = _ =>
      change (config_of which (state (m w1)) = config_of which w1);
      generalize w1; fold (preserves (config_of which) m)
  end.
  repeat (apply preserves_bind; [|intros _]);
    apply preserves_on_document; intros d w0; destruct which; reflexivity.
Qed.

(** C9, as the code has it.  A rendering leaves both configuration objects
    as they are, but for the mode of the rendered one: when that object has
    its two properties and its mode is auto-detect, the mode is rewritten in
    place to the PAC mode; its other properties are not touched.  This holds
    whether the rendering returns or throws. *)
Theorem recalcFormValues_model (config : WindowTypes) (w : World) :
  (forall which,
     restrictRtc (config_of which (state (recalcFormValues_ config w)))
     = restrictRtc (config_of which w))
  /\ (forall which,
        which <> config ->
        config_of which (state (recalcFormValues_ config w))
        = config_of which w)
  /\ (proxy (config_of config w) = None ->
      config_of config (state (recalcFormValues_ config w))
      = config_of config w)
  /\ (restrictRtc (config_of config w) = None ->
      config_of config (state (recalcFormValues_ config w))
      = config_of config w)
  /\ (forall c,
        proxy (config_of config w) = Some c ->
        mode c <> ProxyTypes.AUTO ->
        config_of config (state (recalcFormValues_ config w))
        = config_of config w)
  /\ (forall c r,
        proxy (config_of config w) = Some c ->
        restrictRtc (config_of config w) = Some r ->
        mode c = ProxyTypes.AUTO ->
        proxy (config_of config (state (recalcFormValues_ config w)))
        = Some {| mode := ProxyTypes.PAC;
                  pacScript := pacScript c;
                  rules := rules c |}).
Proof.
  assert (Hsame : forall c : Config, {| proxy := proxy c; restrictRtc := restrictRtc c |} = c)
    by (intros []; reflexivity).
  repeat split.
  - intros which. rewrite recalcFormValues_configs. unfold normalized.
    destruct (proxy (config_of config w)) as [p|];
      [destruct (restrictRtc (config_of config w)) eqn:Hr|];
      destruct which, config; simpl in *; congruence.
  - intros which Hne. rewrite recalcFormValues_configs.
    destruct which, config; simpl; congruence.
  - intros Hc. rewrite recalcFormValues_configs. unfold normalized.
    rewrite Hc. apply with_config_same.
  - intros Hr. rewrite recalcFormValues_configs. unfold normalized.
    rewrite Hr. destruct (proxy (config_of config w)); apply with_config_same.
  - intros c Hc Hm. rewrite recalcFormValues_configs. unfold normalized.
    rewrite Hc. apply String.eqb_neq in Hm. unfold ProxyTypes.AUTO in Hm.
    rewrite Hm. destruct (restrictRtc (config_of config w)) eqn:Hr.
    + unfold set_proxy. rewrite <- Hc.
      destruct config; simpl; apply Hsame.
    + apply with_config_same.
  - intros c r Hc Hr Hm. rewrite recalcFormValues_configs. unfold normalized.
    rewrite Hc, Hr. unfold ProxyTypes.AUTO in Hm. rewrite Hm. simpl.
    destruct config; reflexivity.
Qed.

(** C9, as the claim words it, fails: the regular configuration, whose mode
    is auto-detect, has the PAC mode after it has been rendered. *)
Lemma recalcFormValues_changes_auto :
  outcome (recalcFormValues_ REGULAR auto_world) = Return tt
  /\ option_map mode (proxy (regularConfig_ auto_world)) = Some "auto_detect"
  /\ option_map mode
       (proxy (regularConfig_ (state (recalcFormValues_ REGULAR auto_world))))
     = Some "pac_script"
  /\ regularConfig_ (state (recalcFormValues_ REGULAR auto_world))
     <> regularConfig_ auto_world.
Proof.
  repeat split; try reflexivity.
  intros H. discriminate H.
Qed.

Lemma manualPac_setProxyImpl_ (type : ProxyKind) (data : option ProxyServer)
  (d : Document) :
  get_manualPac (setProxyImpl_ type data d) = get_manualPac d.
Proof. destruct data; reflexivity. Qed.

Lemma manualPac_set_singleProxy (data : option ProxyServer) (d : Document) :
  get_manualPac (set_singleProxy data d) = get_manualPac d.
Proof. destruct data; reflexivity. Qed.

Lemma manualPac_set_bypassList (data : option (list string)) (d : Document) :
  get_manualPac (set_bypassList data d) = get_manualPac d.
Proof. reflexivity. Qed.

(** X27.  The field of the PAC data is not among those that a rendering
    writes: whatever configuration is rendered, and whether the rendering
    returns or throws, the field holds afterwards what it held before. *)
Lemma recalcFormValues_manualPac (config : WindowTypes) (w : World) :
  get_manualPac (document (state (recalcFormValues_ config w)))
  = get_manualPac (document w).
Proof.
  revert w.
  change (preserves (fun w => get_manualPac (document w))
            (recalcFormValues_ config)).
  unfold recalcFormValues_.
  apply preserves_bind; [auto with preserves | intros c].
  apply preserves_bind; [auto with preserves | intros r].
  destruct c as [c|]; [destruct r as [r|]|]; auto with preserves.
  apply preserves_bind;
    [apply preserves_modify; intros s; destruct config; reflexivity | intros _].
  apply preserves_bind; [|intros _].
  { apply preserves_on_document_field. intros d. unfold changeActive_, state.
    destruct (changeActive_loop _ _ _) as [[[]|e] els]; reflexivity. }
  apply preserves_bind; [|intros _].
  { apply preserves_on_document_field, preserves_modify. intros d.
    destruct (pacScript _) as [ps|]; [|reflexivity].
    destruct (url ps) as [u|]; [|reflexivity].
    destruct (Js.truthy u); reflexivity. }
  apply preserves_bind; [|intros _].
  { apply preserves_on_document_field, preserves_modify. intros d.
    unfold set_httpProxy, set_httpsProxy, set_ftpProxy, set_fallbackProxy.
    destruct (rules _) as [rs|]; [destruct (singleProxy rs)|];
      rewrite ?manualPac_set_bypassList, ?manualPac_setProxyImpl_,
        ?manualPac_set_singleProxy; reflexivity. }
  apply preserves_on_document_field, preserves_modify. intros d. reflexivity.
Qed.

(** C2, at a PAC configuration that has its script as data only.  The
    rendering returns and leaves the configuration as it is, but it does not
    bring the data to the form: the field of the PAC data is still empty,
    and the extraction that follows gives the auto-detect mode, not the
    configuration that was rendered. *)
Theorem render_extract_pac_data :
  outcome (recalcFormValues_ REGULAR pac_data_world) = Return tt
  /\ regularConfig_ (state (recalcFormValues_ REGULAR pac_data_world))
     = {| proxy := Some pac_data_config; restrictRtc := Some "default" |}
  /\ get_manualPac (document (state (recalcFormValues_ REGULAR pac_data_world)))
     = ""
  /\ generateProxyConfig_
       (document (state (recalcFormValues_ REGULAR pac_data_world)))
     = Return (Some {| mode := "auto_detect"; pacScript := None; rules := None |})
  /\ generateProxyConfig_
       (document (state (recalcFormValues_ REGULAR pac_data_world)))
     <> Return (Some pac_data_config).
Proof.
  repeat split; try reflexivity.
  intros H. discriminate H.
Qed.

(** ** Rendering, then extraction *)

Lemma find_filter {A} (f : A -> bool) (l : list A) :
  find f l = hd_error (filter f l).
Proof.
  induction l as [|a l IH]; simpl; [reflexivity|].
  destruct (f a); simpl; auto.
Qed.

Lemma getFieldsetById_spec (id : string) (els : list Fieldset) (n : nat) :
  getFieldsetById id els = Some n ->
  exists el, nth_error els n = Some el /\ fs_id el = id.
Proof.
  revert n. induction els as [|e els IH]; intros n; simpl; [discriminate|].
  destruct (String.eqb_spec (fs_id e) id) as [He|He].
  - intros H; injection H as <-. exists e. split; [reflexivity | exact He].
  - destruct (getFieldsetById id els) as [m|]; simpl; [|discriminate].
    intros H; injection H as <-. apply (IH m eq_refl).
Qed.

(** After a rendering step that activates a group, that group is the one
    that the extraction finds. *)
Lemma first_active_activated (d : Document) (n : nat) (el : Fieldset)
  (l : list Input) :
  first_active
    (recalcDisabledInputs_ (with_configGroups (activated n el l (configGroups d)) d))
  = Some (recalc_group (with_inputs l (with_active true el))).
Proof.
  unfold first_active, recalcDisabledInputs_. simpl.
  fold recalc_group.
  rewrite find_filter, filter_active_activated. reflexivity.
Qed.

Lemma getProxyImpl_rendered (p : ProxyServer) :
  ok_server p ->
  safe_port p ->
  (if Js.truthy (scheme p) && Js.truthy (host p)
      && Js.truthy_num (Js.parseInt (Js.NumberToString (port p)))
   then match Js.parseInt (Js.NumberToString (port p)) with
        | Some z => Some {| scheme := scheme p; host := host p; port := z |}
        | None => None
        end
   else None) = Some p.
Proof.
  intros [Hs [Hh Hp]] Hsafe.
  apply truthy_true_iff in Hs, Hh.
  rewrite Hs, Hh, (JsFacts.parseInt_NumberToString _ Hsafe). simpl.
  destruct (Z.eqb_spec (port p) 0); [contradiction|]. simpl.
  destruct p; reflexivity.
Qed.

Lemma getProxyImpl_setProxyImpl_ (type : ProxyKind) (o : option ProxyServer)
  (d : Document) :
  ok_entry o ->
  safe_entry o ->
  getProxyImpl_ type (setProxyImpl_ type o d) = o.
Proof.
  intros H Hsafe. destruct o as [p|].
  - unfold getProxyImpl_, setProxyImpl_.
    destruct type; simpl; apply (getProxyImpl_rendered p H Hsafe).
  - destruct type; reflexivity.
Qed.

(** The group that the extraction finds does not depend on the fields. *)
Ltac use_first_active Hfa HidA :=
  cbn -[Js.parseInt Js.NumberToString Js.split Js.join];
  rewrite Hfa, HidA;
  cbn -[Js.parseInt Js.NumberToString Js.split Js.join].

(** A triple is read from the three inputs that the rendering of an entry
    has written, whatever was written elsewhere. *)
Ltac read_back dA :=
  repeat match goal with
  | H : ok_entry ?o, S : safe_entry ?o |- context [get_httpProxy ?X] =>
      change (get_httpProxy X)
        with (getProxyImpl_ Http (setProxyImpl_ Http o dA));
      rewrite (getProxyImpl_setProxyImpl_ Http o dA H S)
  | H : ok_entry ?o, S : safe_entry ?o |- context [get_httpsProxy ?X] =>
      change (get_httpsProxy X)
        with (getProxyImpl_ Https (setProxyImpl_ Https o dA));
      rewrite (getProxyImpl_setProxyImpl_ Https o dA H S)
  | H : ok_entry ?o, S : safe_entry ?o |- context [get_ftpProxy ?X] =>
      change (get_ftpProxy X)
        with (getProxyImpl_ Ftp (setProxyImpl_ Ftp o dA));
      rewrite (getProxyImpl_setProxyImpl_ Ftp o dA H S)
  | H : ok_entry ?o, S : safe_entry ?o |- context [get_fallbackProxy ?X] =>
      change (get_fallbackProxy X)
        with (getProxyImpl_ Fallback (setProxyImpl_ Fallback o dA));
      rewrite (getProxyImpl_setProxyImpl_ Fallback o dA H S)
  | |- context [get_bypassList (set_restrictRtc ?r (set_bypassList (Some ?bl) ?X))] =>
      change (get_bypassList (set_restrictRtc r (set_bypassList (Some bl) X)))
        with (Js.split (Js.join ", " bl))
  end.

Lemma safe_ports_rules (c : ProxyConfig) (r : ProxyRules) :
  safe_ports c ->
  rules c = Some r ->
  safe_entry (singleProxy r) /\ safe_entry (proxyForHttp r)
  /\ safe_entry (proxyForHttps r) /\ safe_entry (proxyForFtp r)
  /\ safe_entry (fallbackProxy r).
Proof.
  unfold safe_ports, servers. intros H Hr. rewrite Hr in H.
  rewrite Forall_forall in H.
  assert (Hin : forall o p, o = Some p ->
                  In o [singleProxy r; proxyForHttp r; proxyForHttps r;
                        proxyForFtp r; fallbackProxy r] ->
                  safe_port p).
  { intros o p Ho Hi. apply H. apply in_flat_map. exists o.
    split; [exact Hi | rewrite Ho; left; reflexivity]. }
  repeat split;
    match goal with
    | |- safe_entry ?o =>
        destruct o as [p|] eqn:E; [|exact I];
        apply (Hin _ p E); rewrite <- E; simpl; auto 6
    end.
Qed.

(** X11.  Where the rendering and the extraction do agree: on a page that has the
    group of the mode, with radios in its groups, a well-formed
    configuration whose ports are below 2^53 in absolute value and whose
    RTC setting is one of the two that the form can show is given back by
    the extraction that follows its rendering.  For the auto-detect mode
    this needs the field of the PAC data to be empty beforehand, since the
    rendering does not write that field. *)
Lemma render_extract_roundtrip (config : WindowTypes) (w : World)
  (c : ProxyConfig) (r : string) :
  proxy (config_of config w) = Some c ->
  restrictRtc (config_of config w) = Some r ->
  well_formed c ->
  safe_ports c ->
  r = RestrictRtcTypes.DEFAULT \/ r = RestrictRtcTypes.RESTRICT ->
  Forall has_radio (configGroups (document w)) ->
  getFieldsetById (if mode c =? "auto_detect" then "pac_script" else mode c)
    (configGroups (document w)) <> None ->
  (mode c = "auto_detect" -> get_manualPac (document w) = "") ->
  outcome (recalcFormValues_ config w) = Return tt
  /\ generateProxyConfig_ (document (state (recalcFormValues_ config w)))
     = Return (Some c)
  /\ get_restrictRtc (document (state (recalcFormValues_ config w))) = r.
Proof.
  intros Hc Hr Hwf Hsafe Hrtc Hform Hgroup Hdata.
  destruct (getFieldsetById _ (configGroups (document w))) as [n|] eqn:Hn;
    [clear Hgroup | contradiction].
  destruct (getFieldsetById_spec _ _ _ Hn) as [el [Hnth Hid]].
  assert (Hrad : has_radio el).
  { rewrite Forall_forall in Hform. apply Hform.
    apply (nth_error_In _ _ Hnth). }
  destruct (changeActive_returns (document w) n el Hnth Hrad) as [l [Hl Hrun]].
  assert (Hdoc : forall c0, document (with_config config c0 w) = document w)
    by (intros; destruct config; reflexivity).
  unfold recalcFormValues_, outcome, state.
  cbv [bind gets modify on_document].
  rewrite Hc, Hr.
  replace (mode (if mode c =? "auto_detect" then set_mode "pac_script" c else c))
    with (if mode c =? "auto_detect" then "pac_script" else mode c)
    by (destruct (mode c =? "auto_detect"); reflexivity).
  rewrite Hdoc, Hn, Hrun.
  cbv beta iota zeta.
  pose proof (first_active_activated (document w) n el l) as Hfa.
  assert (Hpac : get_manualPac
                   (recalcDisabledInputs_
                      (with_configGroups
                         (activated n el l (configGroups (document w)))
                         (document w)))
                 = get_manualPac (document w)) by reflexivity.
  set (dA := recalcDisabledInputs_ _) in *.
  set (elA := recalc_group _) in *.
  assert (HidA : fs_id elA = fs_id el) by reflexivity.
  rewrite Hid in HidA.
  clearbody dA elA.
  cbn [document with_document fst snd].
  split; [reflexivity|].
  split.
  - unfold generateProxyConfig_, first_active in *.
    inversion Hwf as [ | | | u Hu | p bl Hp Hbl | a b c' d' bl Ha Hb Hc' Hd' Hbl];
      subst c; cbn in HidA.
    + use_first_active Hfa HidA. reflexivity.
    + use_first_active Hfa HidA. reflexivity.
    + use_first_active Hfa HidA.
      unfold get_manualPac in *. rewrite Hpac, (Hdata eq_refl). reflexivity.
    + apply truthy_true_iff in Hu.
      cbn -[Js.parseInt Js.NumberToString Js.split Js.join]. rewrite Hu.
      use_first_active Hfa HidA. rewrite Hu. reflexivity.
    + use_first_active Hfa HidA.
      assert (Hp' : ok_entry (Some p)) by exact Hp.
      destruct (safe_ports_rules _ _ Hsafe eq_refl) as [S1 _].
      cbn [singleProxy] in S1.
      read_back dA. rewrite (JsFacts.split_join_clean bl Hbl). reflexivity.
    + destruct (safe_ports_rules _ _ Hsafe eq_refl) as [_ [S2 [S3 [S4 S5]]]].
      cbn [proxyForHttp proxyForHttps proxyForFtp fallbackProxy] in S2, S3, S4, S5.
      destruct a as [pa|], b as [pb|], c' as [pc|], d' as [pd|];
        use_first_active Hfa HidA; read_back dA;
        rewrite (JsFacts.split_join_clean bl Hbl); reflexivity.
  - destruct Hrtc as [-> | ->];
      inversion Hwf as [ | | | u Hu | p bl Hp Hbl | a b c' d' bl Ha Hb Hc' Hd' Hbl];
      subst c; reflexivity.
Qed.

(** The per-scheme configuration [fixed_config], with its ports and its
    bypass list, is given back. *)
Lemma render_extract_roundtrip_fixed :
  generateProxyConfig_ (document (state (recalcFormValues_ REGULAR fixed_world)))
  = Return (Some fixed_config).
Proof.
  refine (proj1 (proj2 (render_extract_roundtrip REGULAR fixed_world
                          fixed_config "default" eq_refl eq_refl _ _
                          (or_introl eq_refl) popup_has_radios _ _))).
  - apply wf_per_scheme; simpl; try exact I;
      try (repeat split; discriminate).
    repeat (constructor; [split; [discriminate | reflexivity] |]).
    constructor.
  - unfold safe_ports. cbn [servers fixed_config rules flat_map app
                            singleProxy proxyForHttp proxyForHttps
                            proxyForFtp fallbackProxy].
    repeat (constructor; [reflexivity|]). constructor.
  - discriminate.
  - discriminate.
Defined.

(** The same missing write on the other side: the auto-detect mode is
    rendered into a form that still holds a script from before, and the
    extraction gives the PAC mode with that script. *)
Lemma render_extract_auto_stale_data :
  generateProxyConfig_
    (document
       (state (recalcFormValues_ REGULAR
                 (with_document (with_autoconfigData_value "x" popup) auto_world))))
  = Return (Some {| mode := "pac_script";
                    pacScript := Some {| url := None; data := Some "x";
                                         mandatory := Some true |};
                    rules := None |}).
Proof. reflexivity. Qed.

(** ** Switching profiles without the permission *)

(** C3, as the code has it.  When the access to incognito settings is not
    allowed, a switch of profile cancels the click, shows the
    permission-denied alert and returns: the form is not extracted, and the
    two configuration objects, the active profile and the whole document are
    left as they were. *)
Theorem toggleIncognitoMode_denied (w : World) :
  isAllowedIncognitoAccess_ w = false ->
  toggleIncognitoMode_ w =
    (Return tt, w, [PreventDefault; StopPropagation; Alert incognito_denied_msg]).
Proof.
  intros H. unfold toggleIncognitoMode_, bind, emit, gets, generateAlert_.
  simpl. rewrite H. reflexivity.
Qed.

(** The refused switch on the page [popup]. *)
Lemma toggleIncognitoMode_denied_witness :
  toggleIncognitoMode_ popup_world =
    (Return tt, popup_world,
     [PreventDefault; StopPropagation; Alert incognito_denied_msg]).
Proof. apply (toggleIncognitoMode_denied popup_world). reflexivity. Defined.

(** C3, as the claim words it, fails: the form shows the system mode while
    the regular configuration holds the direct mode; after the refused
    switch the regular configuration is not what the form gives. *)
Lemma toggleIncognitoMode_denied_no_extract :
  isAllowedIncognitoAccess_ popup_world = false
  /\ active_window popup_world = REGULAR
  /\ ~ (exists c,
          generateProxyConfig_ (document popup_world) = Return c
          /\ proxy (regularConfig_ (state (toggleIncognitoMode_ popup_world))) = c).
Proof.
  repeat split.
  intros [c [H1 H2]].
  vm_compute in H1. vm_compute in H2.
  injection H1 as <-. discriminate H2.
Qed.

(** ** Applying the form: [applyChanges_] *)

(** The three ways in which the pair of writes of one scope can go. *)
Lemma write_pair_run (chrome : Chrome) (scope : Scope) (which : WindowTypes)
  (error : string) (w : World) :
  write_pair chrome scope which error w =
    if proxy_settings_set chrome scope (proxy (config_of which w)) then
      if webRTCIPHandlingPolicy_set chrome scope (restrictRtc (config_of which w))
      then (Return true, w,
            [ProxySet scope (proxy (config_of which w)) true;
             RtcSet scope (restrictRtc (config_of which w)) true])
      else (Return false, w,
            [ProxySet scope (proxy (config_of which w)) true;
             RtcSet scope (restrictRtc (config_of which w)) false;
             Alert (i18n_getMessage chrome error)])
    else (Return false, w,
          [ProxySet scope (proxy (config_of which w)) false;
           Alert (i18n_getMessage chrome error)]).
Proof.
  unfold write_pair, try_catch, bind, gets, chrome_proxy_settings_set,
    chrome_webRTCIPHandlingPolicy_set, generateAlert_, emit, throw, ret.
  destruct (proxy_settings_set chrome scope _); simpl; [|reflexivity].
  destruct (webRTCIPHandlingPolicy_set chrome scope _); reflexivity.
Qed.

(** C1.  In every run of [applyChanges_] in which a write of the regular
    pair fails (the proxy setting or the RTC setting, to the scope
    [regular_only]), the run returns with the alert of the message
    [errorSettingRegularProxy] as its last action, after no other alert; it
    attempts no write to the scope [incognito_persistent] and does not close
    the window. *)
Theorem applyChanges_regular_failure (chrome : Chrome) (w : World) :
  existsb is_regular_write_failure (events (applyChanges_ chrome w)) = true ->
  outcome (applyChanges_ chrome w) = Return tt
  /\ (exists pre,
        events (applyChanges_ chrome w) =
          (pre ++ [Alert (i18n_getMessage chrome "errorSettingRegularProxy")])%list
        /\ existsb is_alert pre = false)
  /\ existsb is_incognito_write (events (applyChanges_ chrome w)) = false
  /\ existsb is_window_close (events (applyChanges_ chrome w)) = false.
Proof.
  cbv [applyChanges_ save_form_into bind emit gets modify of_outcome ret
       events outcome].
  destruct (generateProxyConfig_ (document w)) as [c|e]; [|discriminate].
  match goal with
  | |- context [write_pair chrome regular_only REGULAR _ ?w1] =>
      generalize w1; intros s
  end.
  rewrite write_pair_run.
  destruct (proxy_settings_set chrome regular_only _) eqn:Hproxy;
    [destruct (webRTCIPHandlingPolicy_set chrome regular_only _) eqn:Hrtc|].
  - (* both regular writes succeed *)
    destruct (proxy (incognitoConfig_ s)) as [p|]; [|discriminate].
    rewrite write_pair_run.
    destruct (proxy_settings_set chrome incognito_persistent _);
      [destruct (webRTCIPHandlingPolicy_set chrome incognito_persistent _)|];
      discriminate.
  - (* the RTC write fails *)
    intros _. simpl. repeat split.
    eexists [_; _; _; _; _]. split; reflexivity.
  - (* the proxy write fails *)
    intros _. simpl. repeat split.
    eexists [_; _; _; _]. split; reflexivity.
Qed.

(** The run on a browser that refuses the first write. *)
Lemma applyChanges_regular_failure_witness :
  events (applyChanges_ chrome_refusing popup_world) =
    [PreventDefault; StopPropagation; SendMessage "clearError";
     ProxySet regular_only
       (Some {| mode := "system"; pacScript := None; rules := None |}) false;
     Alert "errorSettingRegularProxy"]
  /\ existsb is_incognito_write
       (events (applyChanges_ chrome_refusing popup_world)) = false.
Proof.
  split; [reflexivity|].
  apply (applyChanges_regular_failure chrome_refusing popup_world).
  reflexivity.
Defined.

(** ** Reading the settings: [readCurrentState_] *)

Lemma changeActive_loop_total (fieldset : option nat) (els : list Fieldset) :
  Forall has_radio els ->
  forall i, fst (changeActive_loop fieldset i els) = Return tt.
Proof.
  induction 1 as [|el els Hel _ IH]; intros i; simpl; [reflexivity|].
  specialize (IH (S i)).
  destruct (changeActive_loop fieldset (S i) els) as [r rest]; simpl in IH.
  destruct (match fieldset with Some n => (n =? i)%nat | None => false end).
  - destruct (check_radio_some _ Hel) as [l Hl]. simpl. rewrite Hl. exact IH.
  - exact IH.
Qed.

Lemma changeActive_total (fieldset : option nat) (d : Document) :
  Forall has_radio (configGroups d) ->
  exists d', changeActive_ fieldset d = (Return tt, d', []).
Proof.
  intros H. unfold changeActive_.
  pose proof (changeActive_loop_total fieldset (configGroups d) H 0%nat) as Hl.
  destruct (changeActive_loop fieldset 0 (configGroups d)) as [r els].
  simpl in Hl. subst r. eexists; reflexivity.
Qed.

(** On a form whose groups all have their radio, a rendering returns; it
    reads no setting and shows no alert. *)
Lemma recalcFormValues_quiet (config : WindowTypes) (w : World) :
  Forall has_radio (configGroups (document w)) ->
  exists w' ev,
    recalcFormValues_ config w = (Return tt, w', ev)
    /\ existsb is_alert ev = false
    /\ filter is_get ev = [].
Proof.
  intros H. unfold recalcFormValues_.
  cbv [bind gets modify on_document emit].
  destruct (proxy (config_of config w)) as [c|];
    [destruct (restrictRtc (config_of config w)) as [r|]|];
    try (do 2 eexists; repeat split; reflexivity).
  assert (Hdoc : forall c0, document (with_config config c0 w) = document w)
    by (intros; destruct config; reflexivity).
  rewrite Hdoc.
  destruct (changeActive_total
              (getFieldsetById
                 (mode (if mode c =? "auto_detect" then set_mode "pac_script" c else c))
                 (configGroups (document w)))
              (document w) H) as [d' Hd].
  rewrite Hd.
  do 2 eexists; repeat split; reflexivity.
Qed.

Lemma accessOk_run {V} (c : GetDetails V) (errs : list string) (what : string) :
  accessOk_ c errs what =
    if unacceptable (levelOfControl c)
    then (false, (errs ++ [(what ++ ": " ++ levelOfControl c)%string])%list)
    else (true, errs).
Proof.
  unfold accessOk_, unacceptable.
  destruct (_ || _); reflexivity.
Qed.

Lemma changeActive_loop_outcome (fieldset : option nat) (els : list Fieldset) :
  forall i,
    fst (changeActive_loop fieldset i els) = Return tt
    \/ fst (changeActive_loop fieldset i els) = Throw TypeError.
Proof.
  induction els as [|el els IH]; intros i; simpl; [left; reflexivity|].
  specialize (IH (S i)).
  destruct (changeActive_loop fieldset (S i) els) as [r rest]; simpl in IH.
  destruct (match fieldset with Some n => (n =? i)%nat | None => false end).
  - destruct (check_radio (inputs el)); [exact IH | right; reflexivity].
  - exact IH.
Qed.

Lemma changeActive_outcome (fieldset : option nat) (d : Document) :
  exists r d',
    changeActive_ fieldset d = (r, d', [])
    /\ (r = Return tt \/ r = Throw TypeError).
Proof.
  unfold changeActive_.
  pose proof (changeActive_loop_outcome fieldset (configGroups d) 0%nat) as Hl.
  destruct (changeActive_loop fieldset 0 (configGroups d)) as [r els].
  simpl in Hl.
  destruct Hl as [-> | ->]; do 2 eexists; (split; [reflexivity|]);
    [left | right]; reflexivity.
Qed.

(** A rendering returns or throws a [TypeError]; it reads no setting and
    shows no alert.  It returns on a form whose groups all have their
    radio. *)
Lemma recalcFormValues_outcome (config : WindowTypes) (w : World) :
  exists r w' ev,
    recalcFormValues_ config w = (r, w', ev)
    /\ (r = Return tt \/ r = Throw TypeError)
    /\ existsb is_alert ev = false
    /\ filter is_get ev = []
    /\ (Forall has_radio (configGroups (document w)) -> r = Return tt).
Proof.
  assert (Hq : forall r w' ev,
             recalcFormValues_ config w = (r, w', ev) ->
             Forall has_radio (configGroups (document w)) -> r = Return tt).
  { intros r w' ev Hrun H.
    destruct (recalcFormValues_quiet config w H) as [w1 [ev1 [Hrun1 _]]].
    rewrite Hrun1 in Hrun. injection Hrun as <- _ _. reflexivity. }
  revert Hq.
  unfold recalcFormValues_.
  cbv [bind gets modify on_document emit].
  destruct (proxy (config_of config w)) as [c|];
    [destruct (restrictRtc (config_of config w)) as [r|]|];
    try (intros Hq; do 3 eexists;
         repeat split; try reflexivity; left; reflexivity).
  assert (Hdoc : forall c0, document (with_config config c0 w) = document w)
    by (intros; destruct config; reflexivity).
  rewrite Hdoc.
  destruct (changeActive_outcome
              (getFieldsetById
                 (mode (if mode c =? "auto_detect" then set_mode "pac_script" c else c))
                 (configGroups (document w)))
              (document w)) as [r0 [d' [Hd Hr]]].
  rewrite Hd.
  destruct Hr as [-> | ->]; intros Hq; do 3 eexists;
    (split; [reflexivity|]);
    (split; [(left; reflexivity) || (right; reflexivity)|]);
    (split; [reflexivity|]);
    (split; [reflexivity|]);
    intros H; exact (Hq _ _ _ eq_refl H).
Qed.

Lemma append_empty (s : string) : (s ++ EmptyString)%string = s.
Proof.
  induction s as [|c s IH]; simpl; [reflexivity|]. rewrite IH. reflexivity.
Qed.

(** The text that [join] builds with the separator [CRLF] is the first
    element, and every other element after a carriage return and a line
    feed. *)
Lemma join_lines (h : string) (l : list string) :
  Js.join CRLF (h :: l) = (h ++ line_broken l)%string.
Proof.
  unfold Js.join. revert h.
  induction l as [|e l IH]; intros h.
  - simpl. rewrite append_empty. reflexivity.
  - change (String.concat CRLF (h :: e :: l))
      with (h ++ CRLF ++ String.concat CRLF (e :: l))%string.
    rewrite IH. reflexivity.
Qed.

(** C8, as the code has it, for every load.  A load in which two reads or
    more are refused first makes every read, with no alert.  Then the
    rendering of the form returns or throws a [TypeError].  When it
    returns, which it does on a form whose groups all have their radio, the
    load returns and shows exactly one alert, as its last action: the
    heading, then the description of every refused read, in the order of
    the reads, each after a carriage return and a line feed.  When it
    throws, the load throws that [TypeError] and shows no alert. *)
Theorem readCurrentState_aggregates (chrome : Chrome) (w : World) :
  (2 <= List.length (access_errors chrome))%nat ->
  exists pre,
    filter is_get pre = read_calls chrome
    /\ existsb is_alert pre = false
    /\ ((outcome (readCurrentState_ chrome w) = Return tt
         /\ events (readCurrentState_ chrome w) =
              (pre ++ [Alert ("Failed to read state:"
                              ++ line_broken (access_errors chrome))])%list)
        \/ (outcome (readCurrentState_ chrome w) = Throw TypeError
            /\ events (readCurrentState_ chrome w) = pre))
    /\ (Forall has_radio (configGroups (document w)) ->
        outcome (readCurrentState_ chrome w) = Return tt).
Proof.
  intros Herrs.
  unfold access_errors, reads, read_calls in *.
  revert Herrs.
  unfold readCurrentState_.
  cbv [bind emit gets modify ret generateAlert_ events outcome
       isAllowedIncognitoAccess_ with_isAllowedIncognitoAccess_ with_config].
  rewrite accessOk_run.
  destruct (unacceptable (levelOfControl (proxy_settings_get chrome false))) eqn:E1;
  cbv beta iota zeta;
  rewrite accessOk_run;
  destruct (unacceptable (levelOfControl (webRTCIPHandlingPolicy_get chrome false))) eqn:E2;
  cbv beta iota zeta;
  (destruct (extension_isAllowedIncognitoAccess chrome) eqn:Ea;
   cbv beta iota zeta;
   [ rewrite accessOk_run;
     destruct (unacceptable (levelOfControl (proxy_settings_get chrome true))) eqn:E3;
     cbv beta iota zeta;
     rewrite accessOk_run;
     destruct (unacceptable (levelOfControl (webRTCIPHandlingPolicy_get chrome true))) eqn:E4;
     cbv beta iota zeta
   | ]);
  intros Herrs;
  cbn [filter app fst snd map List.length] in Herrs;
  rewrite ?E1, ?E2, ?E3, ?E4 in Herrs;
  cbn [filter app fst snd map List.length] in Herrs;
  try (exfalso; lia);
  match goal with
  | |- context [isIncognitoMode_ ?s] =>
      destruct (isIncognitoMode_ s);
      cbv beta iota zeta;
      match goal with
      | |- context [recalcFormValues_ ?c ?s'] =>
          destruct (recalcFormValues_outcome c s')
            as [r [w' [ev [Hrun [Hr [Hal [Hget Hrad]]]]]]];
          change (document s') with (document w) in Hrad
      end;
      rewrite Hrun
  end;
  destruct Hr as [-> | ->];
  cbn [filter app fst snd map List.length Nat.ltb Nat.leb];
  rewrite ?E1, ?E2, ?E3, ?E4;
  cbn [filter app fst snd map];
  rewrite ?join_lines;
  match goal with
  | |- exists pre, _ /\ _ /\ _ /\ (_ -> Return tt = Return tt) =>
      match goal with
      | |- context [(?a :: ?b :: ?c :: ?d :: ?e :: (?l ++ [Alert _]))%list] =>
          exists (a :: b :: c :: d :: e :: l)
      | |- context [(?a :: ?b :: ?c :: (?l ++ [Alert _]))%list] =>
          exists (a :: b :: c :: l)
      end
  | |- exists pre, _ /\ _ /\ ((_ /\ ?evs = _) \/ _) /\ _ =>
      exists evs
  end;
  cbn [existsb filter is_alert is_get orb app];
  rewrite ?filter_app, ?existsb_app, ?app_nil_r, ?Hget, ?Hal;
  cbn [existsb filter is_alert is_get orb app];
  (split; [reflexivity|]);
  (split; [reflexivity|]);
  (split;
   [ (left; split; reflexivity) || (right; split; reflexivity)
   | exact Hrad || (intros _; reflexivity) ]).
Qed.

(** The load on a browser that refuses the two regular reads: one alert,
    with the heading and the two descriptions on three lines. *)
Lemma readCurrentState_aggregates_witness :
  outcome (readCurrentState_ chrome_refusing popup_world) = Return tt
  /\ exists pre,
       events (readCurrentState_ chrome_refusing popup_world) =
         (pre ++ [Alert
                    ("Failed to read state:"
                     ++ String "013"%char (String "010"%char
                          ("regular/proxy: controlled_by_other_extensions"
                           ++ String "013"%char (String "010"%char
                                "regular/privacy: not_controllable"))))])%list
       /\ existsb is_alert pre = false
       /\ filter is_get pre = [ProxyGet false; RtcGet false].
Proof.
  destruct (readCurrentState_aggregates chrome_refusing popup_world (le_n 2))
    as [pre [Hget [Hal [Hev Hret]]]].
  pose proof (Hret popup_has_radios) as Ho.
  split; [exact Ho|].
  exists pre.
  destruct Hev as [[_ He] | [Ht _]].
  - split; [exact He|]. split; [exact Hal | exact Hget].
  - rewrite Ho in Ht. discriminate Ht.
Defined.

(** C8 does not hold of every load: on a page whose direct group has no
    radio, a browser that accepts the regular reads and refuses the two
    incognito reads makes the rendering throw, and the load ends with a
    [TypeError] and without any alert. *)
Lemma readCurrentState_throws_without_alert :
  (2 <= List.length (access_errors chrome_incognito_unreadable))%nat
  /\ outcome (readCurrentState_ chrome_incognito_unreadable bare_world)
     = Throw TypeError
  /\ existsb is_alert
       (events (readCurrentState_ chrome_incognito_unreadable bare_world))
     = false
  /\ filter is_get
       (events (readCurrentState_ chrome_incognito_unreadable bare_world))
     = [ProxyGet false; RtcGet false; ProxyGet true; RtcGet true].
Proof.
  split; [apply le_n|]. split; [|split]; vm_compute; reflexivity.
Qed.

(** ** The constructor *)

(** The comparison of the negation of a node name with a tag name is a
    comparison of a boolean with a string that is not a number: it is
    false whatever the node is. *)
Lemma negated_nodeName_never_equal (x : option Element) :
  Js.loose_eq_bool_string (negb (Js.truthy_opt (optional_nodeName x))) "H1" = false
  /\ Js.loose_eq_bool_string (negb (Js.truthy_opt (optional_nodeName x))) "FORM" = false.
Proof.
  destruct (negb (Js.truthy_opt (optional_nodeName x))); split; reflexivity.
Qed.

(** The constructor never throws one of its two messages. *)
Lemma ProxyFormController_never_throws_message (headerId formId : string)
  (d : Document) (v : string) :
  fst (ProxyFormController headerId formId d) <> Throw (Thrown v).
Proof.
  unfold ProxyFormController, querySelectorAll_groups.
  destruct (negated_nodeName_never_equal (getElementById headerId d)) as [-> _].
  destruct (negated_nodeName_never_equal (getElementById formId d)) as [_ ->].
  destruct (selector_parses d _); [|simpl; discriminate].
  destruct (getElementById formId d); simpl; discriminate.
Qed.

(** A form id that names nothing does stop the constructor, but later and
    otherwise: by the call of [addEventListener] on [null]. *)
Lemma ProxyFormController_null_form :
  ProxyFormController "title" "missing" popup = (Throw TypeError, []).
Proof. reflexivity. Qed.

(** C4, on a header id that names a [DIV], on a header id that names
    nothing and on a form id that names a [DIV]: the constructor does not
    throw, it binds the click handler and starts the load with these
    nodes. *)
Theorem ProxyFormController_accepts_wrong_header :
  getElementById "banner" popup = Some {| nodeName := "DIV" |}
  /\ getElementById "missing" popup = None
  /\ (exists w,
        ProxyFormController "banner" "proxyForm" popup =
          (Return w,
           [AddEventListener "click"; Invoke_readCurrentState_;
            SendMessage "getError"])
        /\ header_ w = Some {| nodeName := "DIV" |})
  /\ (exists w,
        ProxyFormController "missing" "proxyForm" popup =
          (Return w,
           [AddEventListener "click"; Invoke_readCurrentState_;
            SendMessage "getError"])
        /\ header_ w = None)
  /\ (exists w,
        ProxyFormController "title" "banner" popup =
          (Return w,
           [AddEventListener "click"; Invoke_readCurrentState_;
            SendMessage "getError"])
        /\ form_ w = {| nodeName := "DIV" |}).
Proof.
  repeat split; eexists; split; reflexivity.
Qed.

(** * Further properties of the controller *)

(** ** The constructor, as a whole *)


(** On a page whose form has the id [9form], which is no identifier, the
    constructor stops at the selector; so it does for the empty id. *)
Lemma ProxyFormController_bad_selector :
  getElementById "9form" numbered_page = Some {| nodeName := "FORM" |}
  /\ ProxyFormController "title" "9form" numbered_page = (Throw SyntaxError, [])
  /\ ProxyFormController "title" "" popup = (Throw SyntaxError, []).
Proof. repeat split. Qed.

(** ** The accessors of the form fields *)

(** X2.  A server written to the three inputs of a scheme is read back
    from them when it is absent, or has a non-empty scheme, a non-empty
    host and a port other than zero that is below 2^53 in absolute value.
    What is read back as it was written is absent or has its three parts.
    The write leaves the triples of the other schemes as they read
    before. *)
Theorem proxy_triple_write_read (type : ProxyKind) (o : option ProxyServer)
  (d : Document) :
  (ok_entry o -> safe_entry o ->
   getProxyImpl_ type (setProxyImpl_ type o d) = o)
  /\ (getProxyImpl_ type (setProxyImpl_ type o d) = o -> ok_entry o)
  /\ (forall other, other <> type ->
        getProxyImpl_ other (setProxyImpl_ type o d) = getProxyImpl_ other d).
Proof.
  split; [|split].
  - apply getProxyImpl_setProxyImpl_.
  - destruct o as [p|]; [|intros _; exact I].
    intros H. apply getProxyImpl_complete in H.
    destruct H as [_ [Hs [_ [Hh [_ Hp]]]]]. repeat split; assumption.
  - intros other Hne.
    destruct o, type, other; try reflexivity; contradiction.
Qed.

(** A server written to the Https triple of the page [popup] and read
    back. *)
Lemma proxy_triple_write_read_witness :
  getProxyImpl_ Https
    (setProxyImpl_ Https
       (Some {| scheme := "https"; host := "proxy.example"; port := 3128 |})
       popup)
  = Some {| scheme := "https"; host := "proxy.example"; port := 3128 |}.
Proof.
  refine (proj1 (proxy_triple_write_read Https
                   (Some {| scheme := "https"; host := "proxy.example";
                            port := 3128 |})
                   popup) _ _).
  - repeat split; discriminate.
  - reflexivity.
Defined.

(** Beyond: the port 10^21 is written in the exponent notation and read
    back as 1; the port 2^64 is written with zeros in place of its last
    digits and read back as it is. *)
Lemma setProxyImpl_large_ports :
  proxyPort (proxyHttp (setProxyImpl_ Http
    (Some {| scheme := "http"; host := "h"; port := 10 ^ 21 |}) popup)) = "1e+21"
  /\ getProxyImpl_ Http (setProxyImpl_ Http
       (Some {| scheme := "http"; host := "h"; port := 10 ^ 21 |}) popup)
     = Some {| scheme := "http"; host := "h"; port := 1 |}
  /\ proxyPort (proxyHttp (setProxyImpl_ Http
       (Some {| scheme := "http"; host := "h"; port := 2 ^ 64 |}) popup))
     = "18446744073709552000"
  /\ getProxyImpl_ Http (setProxyImpl_ Http
       (Some {| scheme := "http"; host := "h"; port := 2 ^ 64 |}) popup)
     = Some {| scheme := "http"; host := "h"; port := 2 ^ 64 |}.
Proof. repeat split; vm_compute; reflexivity. Qed.

Module PortFacts.
Import Js.

Lemma digits_app_stop (s t : string) :
  all_digits s = true -> no_leading_digit t = true ->
  forall acc, digits (s ++ t) acc = digits s acc.
Proof.
  intros Hs Ht. induction s as [|c s IH]; intros acc.
  - simpl. destruct t as [|c r]; [reflexivity|].
    simpl in *. destruct (digit c); [discriminate | reflexivity].
  - simpl in *. destruct (digit c); [|discriminate]. apply IH. exact Hs.
Qed.

Lemma all_digits_uint (u : Decimal.uint) :
  all_digits (NilEmpty.string_of_uint u) = true.
Proof. induction u; simpl; auto. Qed.

Lemma all_digits_uint0 (u : Decimal.uint) :
  all_digits (NilZero.string_of_uint u) = true.
Proof. destruct u; try reflexivity; apply (all_digits_uint (_ u)). Qed.

Lemma parseInt_uint_app (u : Decimal.uint) (t : string) :
  parseInt_mathInt (NilZero.string_of_uint u ++ t)
  = digits (NilZero.string_of_uint u ++ t) None.
Proof. destruct u; reflexivity. Qed.

(** [parseInt] reads the decimal notation of an integer and ignores what
    follows it. *)
Lemma parseInt_mathInt_decimal_app (z : Z) (t : string) :
  no_leading_digit t = true ->
  parseInt_mathInt (decimal z ++ t) = Some z.
Proof.
  intros Ht.
  pose proof (JsFacts.parseInt_mathInt_decimal z) as H.
  unfold decimal in *. destruct z as [|p|p].
  - cbn [Z.to_int NilZero.string_of_int] in *.
    rewrite parseInt_uint_app, digits_app_stop by (auto using all_digits_uint0).
    reflexivity.
  - cbn [Z.to_int NilZero.string_of_int] in *.
    rewrite parseInt_uint_app, digits_app_stop by (auto using all_digits_uint0).
    rewrite JsFacts.parseInt_uint in H. exact H.
  - cbn [Z.to_int NilZero.string_of_int] in *.
    unfold parseInt_mathInt in *. cbn [trimStart append] in *.
    change (isStrWhiteSpaceChar "-") with false in *. cbv iota in *.
    rewrite digits_app_stop by (auto using all_digits_uint0).
    exact H.
Qed.

(** The Number value of an integer is zero for zero only. *)
Lemma to_double_zero (z : Z) : to_double z = 0%Z <-> z = 0%Z.
Proof.
  unfold to_double.
  destruct (Z.ltb_spec (Z.abs z) (2 ^ 53)) as [Hlt|Hge]; [tauto|].
  assert (H53 : (0 < 2 ^ 53)%Z) by reflexivity.
  assert (Ha : (0 < Z.abs z)%Z) by lia.
  assert (Hlog : (53 <= Z.log2 (Z.abs z))%Z).
  { rewrite <- (Z.log2_pow2 53) by lia. apply Z.log2_le_mono. exact Hge. }
  cbv zeta.
  set (shift := (Z.log2 (Z.abs z) - 52)%Z).
  assert (Hshift : (0 <= shift)%Z) by (unfold shift; lia).
  assert (Hq : (0 < Z.shiftr (Z.abs z) shift)%Z).
  { rewrite Z.shiftr_div_pow2 by exact Hshift.
    apply Z.div_str_pos. split; [apply Z.pow_pos_nonneg; lia|].
    apply Z.le_trans with (2 ^ Z.log2 (Z.abs z))%Z.
    - apply Z.pow_le_mono_r; unfold shift; lia.
    - apply (Z.log2_spec _ Ha). }
  set (q := Z.shiftr (Z.abs z) shift) in *.
  match goal with
  | |- context [if ?c then (q + 1)%Z else q] =>
      set (q' := if c then (q + 1)%Z else q);
      assert (Hq' : (0 < q')%Z) by (unfold q'; destruct c; lia)
  end.
  assert (Hv : (0 < Z.shiftl q' shift)%Z).
  { rewrite Z.shiftl_mul_pow2 by exact Hshift.
    apply Z.mul_pos_pos; [exact Hq' | apply Z.pow_pos_nonneg; lia]. }
  assert (Hinf : (0 < infinity)%Z) by (apply Z.pow_pos_nonneg; lia).
  split; [|lia].
  intros H. apply Z.mul_eq_0 in H. destruct H as [H|H].
  - lia.
  - destruct (infinity <=? Z.shiftl q' shift)%Z; lia.
Qed.

End PortFacts.

(** X3.  The port of a triple is read leniently: when the port field holds
    the decimal notation of an integer followed by any text that does not
    start with a digit, and the scheme and the host are not empty, the
    triple is read as absent when the integer is zero, and else with the
    Number value of that integer as its port: the integer itself below
    2^53, the nearest double beyond. *)
Theorem getProxyImpl_lenient_port (type : ProxyKind) (d : Document)
  (z : Z) (t : string) :
  proxyScheme (proxyInputs type d) <> "" ->
  proxyHost (proxyInputs type d) <> "" ->
  proxyPort (proxyInputs type d) = Js.decimal z ++ t ->
  no_leading_digit t = true ->
  getProxyImpl_ type d =
    (if (z =? 0)%Z then None
     else Some {| scheme := proxyScheme (proxyInputs type d);
                  host := proxyHost (proxyInputs type d);
                  port := Js.to_double z |})
  /\ ((Z.abs z < 2 ^ 53)%Z -> Js.to_double z = z).
Proof.
  intros Hs Hh Hp Ht.
  split; [|apply JsFacts.to_double_small].
  unfold getProxyImpl_, Js.parseInt.
  apply truthy_true_iff in Hs, Hh.
  rewrite Hs, Hh, Hp, (PortFacts.parseInt_mathInt_decimal_app z t Ht).
  cbn [option_map Js.truthy_num andb].
  pose proof (PortFacts.to_double_zero z) as Hz.
  destruct (Z.eqb_spec z 0) as [->|Hne].
  - reflexivity.
  - destruct (Z.eqb_spec (Js.to_double z) 0) as [H0|_]; [tauto|]. reflexivity.
Qed.

(** The port [8080/tcp] is read as 8080, and the port
    [9007199254740993] as 9007199254740992. *)
Lemma getProxyImpl_lenient_port_witness :
  getProxyImpl_ Http port_form =
    Some {| scheme := "http"; host := "proxy.example"; port := 8080 |}
  /\ getProxyImpl_ Http
       (with_proxyInputs Http
          {| proxyScheme := "http"; proxyHost := "proxy.example";
             proxyPort := "9007199254740993" |} popup) =
     Some {| scheme := "http"; host := "proxy.example";
             port := 9007199254740992 |}.
Proof.
  split.
  - refine (proj1 (getProxyImpl_lenient_port Http port_form 8080 "/tcp"
                     _ _ eq_refl eq_refl));
      discriminate.
  - refine (proj1 (getProxyImpl_lenient_port Http
                     (with_proxyInputs Http
                        {| proxyScheme := "http"; proxyHost := "proxy.example";
                           proxyPort := "9007199254740993" |} popup)
                     9007199254740993 "" _ _ eq_refl eq_refl));
      discriminate.
Defined.

(** X4.  The single proxy written to the form is read back when it is
    absent, or complete with a port below 2^53 in absolute value; what is
    read back as it was written is absent or complete.  After the write the
    box is checked exactly when a proxy was given, the class [single] of
    its section agrees with the box, and the write of no proxy leaves the
    Http triple as it was. *)
Theorem singleProxy_write_read (o : option ProxyServer) (d : Document) :
  (ok_entry o -> safe_entry o -> get_singleProxy (set_singleProxy o d) = o)
  /\ (get_singleProxy (set_singleProxy o d) = o -> ok_entry o)
  /\ single_class (set_singleProxy o d)
     = singleProxyForEverything_checked (set_singleProxy o d)
  /\ singleProxyForEverything_checked (set_singleProxy o d)
     = match o with Some _ => true | None => false end
  /\ (o = None -> get_httpProxy (set_singleProxy o d) = get_httpProxy d).
Proof.
  split; [|split; [|split; [|split]]].
  - intros H Hsafe. destruct o as [p|]; [|reflexivity].
    unfold get_singleProxy, set_singleProxy. cbn -[Js.parseInt Js.NumberToString].
    apply (getProxyImpl_rendered p H Hsafe).
  - destruct o as [p|]; [|intros _; exact I].
    unfold get_singleProxy, set_singleProxy. cbn -[Js.parseInt Js.NumberToString].
    intros H. apply (getProxyImpl_complete Http) in H.
    destruct H as [_ [Hs [_ [Hh [_ Hp]]]]]. repeat split; assumption.
  - destruct o; reflexivity.
  - destruct o; reflexivity.
  - intros ->. reflexivity.
Qed.

(** A single proxy written to the page [popup] and read back. *)
Lemma singleProxy_write_read_witness :
  get_singleProxy
    (set_singleProxy
       (Some {| scheme := "socks5"; host := "proxy.example"; port := 1080 |})
       popup)
  = Some {| scheme := "socks5"; host := "proxy.example"; port := 1080 |}.
Proof.
  refine (proj1 (singleProxy_write_read
                   (Some {| scheme := "socks5"; host := "proxy.example";
                            port := 1080 |})
                   popup) _ _).
  - repeat split; discriminate.
  - reflexivity.
Defined.

(** X5.  A bypass list written to the form is read back as it was given,
    when each of its entries is not empty and holds no white space and no
    comma; a list that is absent is read back as the empty list. *)
Theorem bypassList_write_read (o : option (list string)) (d : Document) :
  match o with Some l => ok_bypass l | None => True end ->
  get_bypassList (set_bypassList o d) = match o with Some l => l | None => [] end.
Proof.
  intros H. unfold get_bypassList, set_bypassList. cbn.
  destruct o as [l|]; [|reflexivity].
  apply JsFacts.split_join_clean. exact H.
Qed.

(** A list of two entries. *)
Lemma bypassList_write_read_witness :
  get_bypassList (set_bypassList (Some ["localhost"; "*.example.com"]) popup)
  = ["localhost"; "*.example.com"].
Proof.
  refine (bypassList_write_read (Some ["localhost"; "*.example.com"]) popup _).
  repeat (constructor; [split; [discriminate | reflexivity] |]).
  constructor.
Defined.

(** ** Extraction, in every case *)

Lemma getProxyImpl_ok (type : ProxyKind) (d : Document) :
  ok_entry (getProxyImpl_ type d).
Proof.
  destruct (getProxyImpl_ type d) as [p|] eqn:H; [|exact I].
  apply getProxyImpl_complete in H.
  destruct H as [_ [Hs [_ [Hh [_ Hp]]]]]. repeat split; assumption.
Qed.

(** X6.  Extraction throws a [TypeError] when no group is active.
    Otherwise it returns: [undefined] exactly when the id of the active
    group is none of the four modes that have a group, and else a
    configuration whose mode is that id (or auto-detect, for the PAC
    group), that has a PAC script exactly in the PAC mode and rules exactly
    in the fixed-servers mode.  Its PAC script is mandatory and is either a
    non-empty URL or a non-empty text, never both; its rules carry the
    bypass list of the form, and every server they name has a non-empty
    scheme, a non-empty host and a port other than zero. *)
Theorem generateProxyConfig_outcome (d : Document) :
  match first_active d with
  | None => generateProxyConfig_ d = Throw TypeError
  | Some el =>
      exists c,
        generateProxyConfig_ d = Return c
        /\ (c = None <->
            ~ In (fs_id el) [ProxyTypes.SYSTEM; ProxyTypes.DIRECT;
                              ProxyTypes.PAC; ProxyTypes.FIXED])
        /\ forall c', c = Some c' ->
             (mode c' = fs_id el
              \/ (fs_id el = ProxyTypes.PAC /\ mode c' = ProxyTypes.AUTO))
             /\ (pacScript c' <> None <-> mode c' = ProxyTypes.PAC)
             /\ (rules c' <> None <-> mode c' = ProxyTypes.FIXED)
             /\ (forall ps, pacScript c' = Some ps ->
                   mandatory ps = Some true
                   /\ ((exists u, url ps = Some u /\ u <> "" /\ data ps = None)
                       \/ (exists s, data ps = Some s /\ s <> "" /\ url ps = None)))
             /\ (forall r, rules c' = Some r ->
                   bypassList r = Some (get_bypassList d))
             /\ Forall ok_server (servers c')
  end.
Proof.
  unfold generateProxyConfig_.
  destruct (first_active d) as [el|]; [|reflexivity].
  unfold ProxyTypes.SYSTEM, ProxyTypes.DIRECT, ProxyTypes.PAC, ProxyTypes.FIXED,
    ProxyTypes.AUTO.
  destruct (String.eqb_spec (fs_id el) "system") as [Hs|Hs];
    [|destruct (String.eqb_spec (fs_id el) "direct") as [Hd|Hd];
      [|destruct (String.eqb_spec (fs_id el) "pac_script") as [Hp|Hp];
        [|destruct (String.eqb_spec (fs_id el) "fixed_servers") as [Hf|Hf]]]].
  - eexists; split; [reflexivity|]. split.
    + split; [discriminate|]. intros H; exfalso; apply H; simpl; auto.
    + intros c' H; injection H as <-; cbn.
      repeat split; try discriminate; try congruence; auto;
        try (intros H; contradiction).
  - eexists; split; [reflexivity|]. split.
    + split; [discriminate|]. intros H; exfalso; apply H; simpl; auto.
    + intros c' H; injection H as <-; cbn.
      repeat split; try discriminate; try congruence; auto;
        try (intros H; contradiction).
  - destruct (Js.truthy (get_pacURL d)) eqn:Hu;
      [|destruct (Js.truthy (get_manualPac d)) eqn:Hm];
      (eexists; split; [reflexivity|]; split;
       [ split; [discriminate|]; intros H; exfalso; apply H; simpl; auto |]);
      intros c' H; injection H as <-; cbn;
      (split; [auto|]); (split; [split; congruence|]);
      (split; [split; [intros H; contradiction | discriminate]|]);
      (split; [|split; [discriminate | constructor]]).
    + intros ps H; injection H as <-; cbn. split; [reflexivity|]. left.
      eexists; repeat split. apply truthy_true_iff; exact Hu.
    + intros ps H; injection H as <-; cbn. split; [reflexivity|]. right.
      eexists; repeat split. apply truthy_true_iff; exact Hm.
    + discriminate.
  - pose proof (getProxyImpl_ok Http d) as Hh.
    pose proof (getProxyImpl_ok Https d) as Hhs.
    pose proof (getProxyImpl_ok Ftp d) as Hft.
    pose proof (getProxyImpl_ok Fallback d) as Hfb.
    assert (Hsp : ok_entry (get_singleProxy d)).
    { unfold get_singleProxy. destruct (singleProxyForEverything_checked d);
        [exact Hh | exact I]. }
    unfold get_httpProxy, get_httpsProxy, get_ftpProxy, get_fallbackProxy.
    destruct (get_singleProxy d) as [sp|] eqn:Esp;
      (eexists; split; [reflexivity|]; split;
       [ split; [discriminate|]; intros H; exfalso; apply H; simpl; auto |]);
      intros c' H; injection H as <-; cbn [mode pacScript rules];
      (split; [auto|]); (split; [split; [intros H; contradiction | congruence]|]);
      (split; [split; congruence|]);
      (split; [discriminate|]);
      (split; [intros r H; injection H as <-; reflexivity|]).
    + unfold servers; cbn. constructor; [exact Hsp | constructor].
    + unfold servers; cbn [rules].
      destruct (getProxyImpl_ Http d), (getProxyImpl_ Https d),
        (getProxyImpl_ Ftp d), (getProxyImpl_ Fallback d); cbn;
        repeat (apply Forall_cons; [assumption|]); apply Forall_nil.
  - eexists; split; [reflexivity|]. split.
    + split; [intros _|reflexivity].
      simpl. intros [H|[H|[H|[H|[]]]]]; congruence.
    + discriminate.
Qed.

(** ** Activation, on the side of the activated group *)

Lemma check_radio_checked (l l' : list Input) :
  check_radio l = Some l' ->
  option_map checked (find radio l') = Some true.
Proof.
  revert l'. induction l as [|i l IH]; simpl; intros l'; [discriminate|].
  destruct (radio i) eqn:Hr.
  - intros H; injection H as <-. simpl. rewrite Hr. reflexivity.
  - destruct (check_radio l) as [l0|]; simpl; [|discriminate].
    intros H; injection H as <-. simpl. rewrite Hr. apply (IH l0 eq_refl).
Qed.

Lemma find_radio_recalc_inputs (b : bool) (l : list Input) :
  find radio (recalc_inputs b l) = find radio l.
Proof.
  unfold recalc_inputs. induction l as [|i l IH]; simpl; [reflexivity|].
  destruct (radio i) eqn:E; simpl; rewrite ?E; [reflexivity | exact IH].
Qed.

Lemma recalc_inputs_enabled (l : list Input) (i : Input) :
  In i (recalc_inputs true l) -> radio i = false -> disabled i = false.
Proof.
  unfold recalc_inputs. intros H Hr.
  apply in_map_iff in H. destruct H as [x [<- Hx]].
  destruct (radio x) eqn:E; simpl in *; [congruence | reflexivity].
Qed.

Lemma map_fs_id_activated (n : nat) (el : Fieldset) (l : list Input) :
  forall els,
    nth_error els n = Some el ->
    map fs_id (map recalc_group (activated n el l els)) = map fs_id els.
Proof.
  unfold activated.
  induction n as [|n IH]; intros [|e els] Hnth; try discriminate.
  - simpl in Hnth. injection Hnth as ->. simpl. f_equal.
    rewrite !map_map. reflexivity.
  - simpl in Hnth. simpl. f_equal. apply (IH els Hnth).
Qed.

(** X7.  The activation of a group that has its radio returns and leaves
    that group marked active, with its first radio checked and with every
    input other than a radio enabled.  The groups keep their ids and their
    order, and nothing of the page but the groups is changed. *)
Theorem changeActive_activates (d : Document) (n : nat) (el : Fieldset) :
  nth_error (configGroups d) n = Some el ->
  has_radio el ->
  exists d' el',
    changeActive_ (Some n) d = (Return tt, d', [])
    /\ nth_error (configGroups d') n = Some el'
    /\ fs_id el' = fs_id el
    /\ active el' = true
    /\ option_map checked (find radio (inputs el')) = Some true
    /\ (forall i, In i (inputs el') -> radio i = false -> disabled i = false)
    /\ map fs_id (configGroups d') = map fs_id (configGroups d)
    /\ with_configGroups (configGroups d) d' = d.
Proof.
  intros Hnth Hrad.
  destruct (changeActive_returns d n el Hnth Hrad) as [l [Hl Hrun]].
  do 2 eexists. split; [exact Hrun|].
  unfold recalcDisabledInputs_; simpl. fold recalc_group.
  split.
  { rewrite (nth_error_activated n el l _ n Hnth), Nat.eqb_refl. reflexivity. }
  split; [reflexivity|]. split; [reflexivity|].
  split.
  { simpl. rewrite find_radio_recalc_inputs. apply (check_radio_checked _ _ Hl). }
  split.
  { simpl. apply recalc_inputs_enabled. }
  split.
  { apply (map_fs_id_activated n el l _ Hnth). }
  destruct d; reflexivity.
Qed.

(** The activation of the fixed-servers group of the page [popup]. *)
Lemma changeActive_activates_witness :
  exists d' el',
    changeActive_ (Some 3%nat) popup = (Return tt, d', [])
    /\ nth_error (configGroups d') 3 = Some el'
    /\ fs_id el' = "fixed_servers"
    /\ active el' = true.
Proof.
  destruct (changeActive_activates popup 3
              {| fs_id := "fixed_servers"; active := false;
                 inputs := [radio_input; other_input; other_input; other_input] |}
              eq_refl eq_refl)
    as [d' [el' [H1 [H2 [H3 [H4 _]]]]]].
  exists d', el'. repeat split; assumption.
Defined.

Lemma recalc_inputs_idem (b : bool) (l : list Input) :
  recalc_inputs b (recalc_inputs b l) = recalc_inputs b l.
Proof.
  unfold recalc_inputs. rewrite map_map. apply map_ext.
  intros i. destruct (radio i) eqn:E; simpl; rewrite E; reflexivity.
Qed.

Lemma check_radio_recalc_inputs (b : bool) (l0 l : list Input) :
  check_radio l0 = Some l ->
  check_radio (recalc_inputs b l) = Some (recalc_inputs b l).
Proof.
  unfold recalc_inputs.
  revert l. induction l0 as [|i l0 IH]; simpl; intros l; [discriminate|].
  destruct (radio i) eqn:Hr.
  - intros H; injection H as <-. simpl. rewrite Hr. simpl. rewrite Hr.
    reflexivity.
  - destruct (check_radio l0) as [l1|]; simpl; [|discriminate].
    intros H; injection H as <-. simpl. rewrite Hr. simpl. rewrite Hr.
    rewrite (IH l1 eq_refl). reflexivity.
Qed.

Lemma unmarked_idem (els : list Fieldset) :
  map recalc_group (map (with_active false)
     (map recalc_group (map (with_active false) els)))
  = map recalc_group (map (with_active false) els).
Proof.
  rewrite !map_map. apply map_ext. intros e.
  unfold recalc_group, with_active, with_inputs. simpl.
  rewrite recalc_inputs_idem. reflexivity.
Qed.

Lemma activated_idem (n : nat) (el : Fieldset) (l : list Input) :
  forall els,
    nth_error els n = Some el ->
    let el2 := recalc_group (with_inputs l (with_active true el)) in
    map recalc_group
      (activated n el2 (inputs el2) (map recalc_group (activated n el l els)))
    = map recalc_group (activated n el l els).
Proof.
  unfold activated.
  induction n as [|n IH]; intros [|e els] Hnth; try discriminate.
  - simpl in Hnth. injection Hnth as ->. cbn [firstn skipn map app].
    f_equal.
    + unfold recalc_group, with_inputs, with_active. simpl.
      rewrite recalc_inputs_idem. reflexivity.
    + apply unmarked_idem.
  - simpl in Hnth. cbn [firstn skipn map app]. f_equal.
    + unfold recalc_group, with_inputs, with_active. simpl.
      rewrite recalc_inputs_idem. reflexivity.
    + apply (IH els Hnth).
Qed.

(** X8.  The activation of a group is idempotent: once a group that has its
    radio has been activated, its activation again returns and changes
    nothing. *)
Theorem changeActive_idempotent (d : Document) (n : nat) (el : Fieldset) :
  nth_error (configGroups d) n = Some el ->
  has_radio el ->
  outcome (changeActive_ (Some n) d) = Return tt
  /\ changeActive_ (Some n) (state (changeActive_ (Some n) d))
     = (Return tt, state (changeActive_ (Some n) d), []).
Proof.
  intros Hnth Hrad.
  destruct (changeActive_returns d n el Hnth Hrad) as [l [Hl Hrun]].
  rewrite Hrun. unfold outcome, state. cbn [fst snd].
  split; [reflexivity|].
  set (el2 := recalc_group (with_inputs l (with_active true el))).
  assert (Hnth2 : nth_error
                    (configGroups
                       (recalcDisabledInputs_
                          (with_configGroups (activated n el l (configGroups d)) d)))
                    n = Some el2).
  { unfold recalcDisabledInputs_; cbn [configGroups with_configGroups].
    fold recalc_group.
    rewrite (nth_error_activated n el l _ n Hnth), Nat.eqb_refl. reflexivity. }
  assert (Hl2 : check_radio (inputs el2) = Some (inputs el2)).
  { apply (check_radio_recalc_inputs true (inputs el) l Hl). }
  unfold changeActive_.
  rewrite (changeActive_loop_at n 0 _ el2 (inputs el2));
    [ | lia | rewrite Nat.sub_0_r; exact Hnth2 | exact Hl2 ].
  rewrite Nat.sub_0_r. fold (activated n el2 (inputs el2)
    (configGroups (recalcDisabledInputs_
       (with_configGroups (activated n el l (configGroups d)) d)))).
  unfold recalcDisabledInputs_; cbn [configGroups with_configGroups].
  fold recalc_group.
  unfold with_configGroups; cbn.
  fold recalc_group.
  pose proof (activated_idem n el l (configGroups d) Hnth) as Hidem.
  cbv zeta in Hidem. fold el2 in Hidem.
  match goal with
  | |- (_, ?a, _) = (_, ?b, _) => assert (a = b) as ->; [|reflexivity]
  end.
  f_equal. exact Hidem.
Qed.

(** The PAC group of the page [popup], activated twice. *)
Lemma changeActive_idempotent_witness :
  changeActive_ (Some 2%nat) (state (changeActive_ (Some 2%nat) popup))
  = (Return tt, state (changeActive_ (Some 2%nat) popup), []).
Proof.
  exact (proj2 (changeActive_idempotent popup 2
                  {| fs_id := "pac_script"; active := false;
                     inputs := [radio_input; other_input; other_input] |}
                  eq_refl eq_refl)).
Defined.

(** The activation of the second group of the page [bare_page], which has
    no radio. *)
Lemma changeActive_without_radio_witness :
  outcome (changeActive_ (Some 1%nat) bare_page) = Throw TypeError.
Proof.
  exact (changeActive_without_radio bare_page 1
           {| fs_id := "direct"; active := false; inputs := [other_input] |}
           eq_refl eq_refl).
Defined.

(** ** Rendering a mode that has no group *)

Lemma changeActive_loop_null (i : nat) (els : list Fieldset) :
  changeActive_loop None i els = (Return tt, map (with_active false) els).
Proof.
  revert i. induction els as [|el els IH]; intros i; simpl; [reflexivity|].
  rewrite IH. reflexivity.
Qed.

Lemma changeActive_null (d : Document) :
  changeActive_ None d =
    (Return tt,
     with_configGroups
       (map recalc_group (map (with_active false) (configGroups d))) d,
     []).
Proof.
  unfold changeActive_. rewrite changeActive_loop_null. reflexivity.
Qed.

Lemma configGroups_setProxyImpl_ (type : ProxyKind) (data : option ProxyServer)
  (d : Document) :
  configGroups (setProxyImpl_ type data d) = configGroups d.
Proof. destruct data; reflexivity. Qed.

Lemma configGroups_set_singleProxy (data : option ProxyServer) (d : Document) :
  configGroups (set_singleProxy data d) = configGroups d.
Proof. destruct data; reflexivity. Qed.

Lemma configGroups_set_bypassList (data : option (list string)) (d : Document) :
  configGroups (set_bypassList data d) = configGroups d.
Proof. reflexivity. Qed.

(** The groups after a rendering are those that its activation step
    leaves. *)
Lemma recalcFormValues_groups (config : WindowTypes) (w : World)
  (c : ProxyConfig) (r : string) :
  proxy (config_of config w) = Some c ->
  restrictRtc (config_of config w) = Some r ->
  exists res d1,
    changeActive_
      (getFieldsetById (if mode c =? "auto_detect" then "pac_script" else mode c)
         (configGroups (document w)))
      (document w) = (res, d1, [])
    /\ outcome (recalcFormValues_ config w) = res
    /\ configGroups (document (state (recalcFormValues_ config w)))
       = configGroups d1.
Proof.
  intros Hc Hr.
  assert (Hdoc : forall c0, document (with_config config c0 w) = document w)
    by (intros; destruct config; reflexivity).
  unfold recalcFormValues_, outcome, state.
  cbv [bind gets modify on_document].
  rewrite Hc, Hr.
  replace (mode (if mode c =? "auto_detect" then set_mode "pac_script" c else c))
    with (if mode c =? "auto_detect" then "pac_script" else mode c)
    by (destruct (mode c =? "auto_detect"); reflexivity).
  rewrite Hdoc.
  assert (Hev : forall f d0, snd (changeActive_ f d0) = []).
  { intros f d0. unfold changeActive_.
    destruct (changeActive_loop f 0 (configGroups d0)) as [[[]|e] els]; reflexivity. }
  match goal with
  | |- context [changeActive_ ?f ?d0] =>
      specialize (Hev f d0);
      destruct (changeActive_ f d0) as [[res d1] ev]
  end.
  simpl in Hev. subst ev.
  exists res, d1. split; [reflexivity|].
  destruct res as [[]|e]; cbn [fst snd document with_document];
    [|split; reflexivity].
  split; [reflexivity|].
  unfold set_httpProxy, set_httpsProxy, set_ftpProxy, set_fallbackProxy,
    set_restrictRtc, set_pacURL.
  cbn [configGroups with_restrictRtc_checked].
  destruct (rules _) as [rs|]; [destruct (singleProxy rs)|];
    rewrite ?configGroups_set_bypassList, ?configGroups_setProxyImpl_,
      ?configGroups_set_singleProxy;
    (destruct (pacScript _) as [ps|]; [|reflexivity]);
    (destruct (url ps) as [u|]; [|reflexivity]);
    destruct (Js.truthy u); reflexivity.
Qed.

Lemma getFieldsetById_none (id : string) (els : list Fieldset) :
  getFieldsetById id els = None <-> ~ In id (map fs_id els).
Proof.
  induction els as [|e els IH]; simpl; [tauto|].
  destruct (String.eqb_spec (fs_id e) id) as [He|He].
  - split; [discriminate|]. intros H; exfalso; apply H; auto.
  - destruct (getFieldsetById id els); simpl.
    + split; [discriminate|]. intros H. exfalso.
      assert (H0 : ~ In id (map fs_id els)) by tauto.
      apply IH in H0. discriminate.
    + split; [|reflexivity]. intros _ [H|H]; [contradiction|].
      apply IH in H; auto.
Qed.

(** X10.  When a configuration is rendered whose mode (the PAC mode, for
    auto-detect) is the id of no group of the page, the rendering returns
    and leaves no group active: every group is unmarked and each of its
    inputs other than a radio is disabled.  The extraction that follows
    throws a [TypeError]. *)
Theorem recalcFormValues_unknown_mode (config : WindowTypes) (w : World)
  (c : ProxyConfig) (r : string) :
  proxy (config_of config w) = Some c ->
  restrictRtc (config_of config w) = Some r ->
  ~ In (if mode c =? "auto_detect" then "pac_script" else mode c)
       (map fs_id (configGroups (document w))) ->
  outcome (recalcFormValues_ config w) = Return tt
  /\ (forall el,
        In el (configGroups (document (state (recalcFormValues_ config w)))) ->
        active el = false
        /\ forall i, In i (inputs el) -> radio i = false -> disabled i = true)
  /\ generateProxyConfig_ (document (state (recalcFormValues_ config w)))
     = Throw TypeError.
Proof.
  intros Hc Hr Hid.
  apply getFieldsetById_none in Hid.
  destruct (recalcFormValues_groups config w c r Hc Hr) as [res [d1 [Hrun [Hout Hg]]]].
  rewrite Hid, changeActive_null in Hrun.
  injection Hrun as <- <-.
  split; [exact Hout|].
  cbn [configGroups with_configGroups] in Hg.
  split.
  - rewrite Hg. intros el Hin.
    rewrite map_map in Hin. apply in_map_iff in Hin.
    destruct Hin as [x [<- Hx]]. split; [reflexivity|].
    simpl. apply recalc_inputs_disabled.
  - unfold generateProxyConfig_, first_active. rewrite Hg.
    rewrite find_filter, filter_active_unmarked. reflexivity.
Qed.

(** The fixed-servers mode rendered on a page that has no group for it. *)
Lemma recalcFormValues_unknown_mode_witness :
  outcome (recalcFormValues_ REGULAR small_world) = Return tt
  /\ generateProxyConfig_ (document (state (recalcFormValues_ REGULAR small_world)))
     = Throw TypeError.
Proof.
  destruct (recalcFormValues_unknown_mode REGULAR small_world fixed_config
              "default" eq_refl eq_refl) as [H1 [_ H2]].
  - simpl. intros [H|[H|[]]]; discriminate.
  - split; assumption.
Defined.

(** ** Reading the settings, whatever is refused *)

(** On a form whose groups all have their radio, a rendering returns and
    does nothing outside the page but, at most, log an error. *)
Lemma recalcFormValues_log (config : WindowTypes) (w : World) :
  Forall has_radio (configGroups (document w)) ->
  exists w' ev,
    recalcFormValues_ config w = (Return tt, w', ev)
    /\ forallb is_quiet ev = true
    /\ forallb is_local ev = true
    /\ filter is_get ev = [].
Proof.
  intros H. unfold recalcFormValues_.
  cbv [bind gets modify on_document emit].
  destruct (proxy (config_of config w)) as [c|];
    [destruct (restrictRtc (config_of config w)) as [r|]|];
    try (do 2 eexists; repeat split; reflexivity).
  assert (Hdoc : forall c0, document (with_config config c0 w) = document w)
    by (intros; destruct config; reflexivity).
  rewrite Hdoc.
  destruct (changeActive_total
              (getFieldsetById
                 (mode (if mode c =? "auto_detect" then set_mode "pac_script" c else c))
                 (configGroups (document w)))
              (document w) H) as [d' Hd].
  rewrite Hd.
  do 2 eexists; repeat split; reflexivity.
Qed.

(** X12.  On a form whose groups all have their radio, a load returns.  It
    shows an alert exactly when a read is refused, be it a single one: the
    alert is then its last action and holds the heading, then the
    description of every refused read after a carriage return and a line
    feed.  Before that it does nothing but ask for the permission, read
    the settings (the regular ones, then the incognito ones when allowed)
    and, at most, log an error: it writes no setting and does not close the
    window. *)
Theorem readCurrentState_alert (chrome : Chrome) (w : World) :
  Forall has_radio (configGroups (document w)) ->
  outcome (readCurrentState_ chrome w) = Return tt
  /\ exists pre,
       events (readCurrentState_ chrome w) =
         (pre ++ match access_errors chrome with
                 | [] => []
                 | errs => [Alert ("Failed to read state:" ++ line_broken errs)]
                 end)%list
       /\ forallb is_quiet pre = true
       /\ filter is_get pre = read_calls chrome.
Proof.
  intros Hform.
  unfold access_errors, reads, read_calls in *.
  unfold readCurrentState_.
  cbv [bind emit gets modify ret generateAlert_ events outcome
       isAllowedIncognitoAccess_ with_isAllowedIncognitoAccess_ with_config].
  rewrite accessOk_run.
  destruct (unacceptable (levelOfControl (proxy_settings_get chrome false))) eqn:E1;
  cbv beta iota zeta;
  rewrite accessOk_run;
  destruct (unacceptable (levelOfControl (webRTCIPHandlingPolicy_get chrome false))) eqn:E2;
  cbv beta iota zeta;
  (destruct (extension_isAllowedIncognitoAccess chrome) eqn:Ea;
   cbv beta iota zeta;
   [ rewrite accessOk_run;
     destruct (unacceptable (levelOfControl (proxy_settings_get chrome true))) eqn:E3;
     cbv beta iota zeta;
     rewrite accessOk_run;
     destruct (unacceptable (levelOfControl (webRTCIPHandlingPolicy_get chrome true))) eqn:E4;
     cbv beta iota zeta
   | ]);
  match goal with
  | |- context [isIncognitoMode_ ?s] =>
      assert (Hs : Forall has_radio (configGroups (document s))) by exact Hform;
      destruct (isIncognitoMode_ s);
      cbv beta iota zeta;
      match goal with
      | |- context [recalcFormValues_ ?c ?s'] =>
          destruct (recalcFormValues_log c s' Hs) as [w' [ev [Hrun [Hal [_ Hget]]]]]
      end;
      rewrite Hrun
  end;
  cbn [filter app fst snd map List.length Nat.ltb Nat.leb];
  rewrite ?E1, ?E2, ?E3, ?E4;
  cbn [filter app fst snd map];
  rewrite ?join_lines;
  (split; [reflexivity|]);
  match goal with
  | |- exists pre, ?a :: ?b :: ?c :: ?d :: ?e :: (?l ++ _)%list = _ /\ _ =>
      exists (a :: b :: c :: d :: e :: l)
  | |- exists pre, ?a :: ?b :: ?c :: (?l ++ _)%list = _ /\ _ =>
      exists (a :: b :: c :: l)
  end;
  (split; [reflexivity|]);
  cbn [forallb filter is_quiet is_get andb];
  rewrite Hget; (split; [exact Hal | reflexivity]).
Qed.

(** The load on a browser that refuses one read: one alert, with the
    heading and the description on two lines. *)
Lemma readCurrentState_alert_witness :
  outcome (readCurrentState_ chrome_one_refusal popup_world) = Return tt
  /\ exists pre,
       events (readCurrentState_ chrome_one_refusal popup_world) =
         (pre ++ [Alert
                    ("Failed to read state:"
                     ++ String "013"%char (String "010"%char
                          "regular/privacy: not_controllable"))])%list
       /\ forallb is_quiet pre = true
       /\ filter is_get pre = [ProxyGet false; RtcGet false].
Proof.
  exact (readCurrentState_alert chrome_one_refusal popup_world
           popup_has_radios).
Defined.

Lemma recalcFormValues_controller_frame (config : WindowTypes) (w : World) :
  controller_frame (state (recalcFormValues_ config w)) = controller_frame w.
Proof.
  revert w.
  change (preserves controller_frame (recalcFormValues_ config)).
  unfold recalcFormValues_.
  apply preserves_bind; [auto with preserves | intros c].
  apply preserves_bind; [auto with preserves | intros r].
  destruct c as [c|]; [destruct r as [r|]|]; auto with preserves.
  apply preserves_bind;
    [apply preserves_modify; intros s; destruct config; reflexivity | intros _].
  repeat (apply preserves_bind; [|intros _]);
    apply preserves_on_document; intros d w0; reflexivity.
Qed.

Lemma page_frame_setProxyImpl_ (type : ProxyKind) (data : option ProxyServer)
  (d : Document) :
  page_frame (setProxyImpl_ type data d) = page_frame d.
Proof. destruct data; reflexivity. Qed.

Lemma page_frame_set_singleProxy (data : option ProxyServer) (d : Document) :
  page_frame (set_singleProxy data d) = page_frame d.
Proof. destruct data; reflexivity. Qed.

Lemma page_frame_set_bypassList (data : option (list string)) (d : Document) :
  page_frame (set_bypassList data d) = page_frame d.
Proof. reflexivity. Qed.

Lemma recalcFormValues_page_frame (config : WindowTypes) (w : World) :
  page_frame (document (state (recalcFormValues_ config w)))
  = page_frame (document w).
Proof.
  revert w.
  change (preserves (fun w => page_frame (document w))
            (recalcFormValues_ config)).
  unfold recalcFormValues_.
  apply preserves_bind; [auto with preserves | intros c].
  apply preserves_bind; [auto with preserves | intros r].
  destruct c as [c|]; [destruct r as [r|]|]; auto with preserves.
  apply preserves_bind;
    [apply preserves_modify; intros s; destruct config; reflexivity | intros _].
  apply preserves_bind; [|intros _].
  { apply preserves_on_document_field. intros d. unfold changeActive_, state.
    destruct (changeActive_loop _ _ _) as [[[]|e] els]; reflexivity. }
  apply preserves_bind; [|intros _].
  { apply preserves_on_document_field, preserves_modify. intros d.
    destruct (pacScript _) as [ps|]; [|reflexivity].
    destruct (url ps) as [u|]; [|reflexivity].
    destruct (Js.truthy u); reflexivity. }
  apply preserves_bind; [|intros _].
  { apply preserves_on_document_field, preserves_modify. intros d.
    unfold set_httpProxy, set_httpsProxy, set_ftpProxy, set_fallbackProxy.
    destruct (rules _) as [rs|]; [destruct (singleProxy rs)|];
      rewrite ?page_frame_set_bypassList, ?page_frame_setProxyImpl_,
        ?page_frame_set_singleProxy; reflexivity. }
  apply preserves_on_document_field, preserves_modify. intros d. reflexivity.
Qed.

(** A load is its reads followed by the rendering of the configuration of
    the profile that the form shows. *)
Lemma readCurrentState_state (chrome : Chrome) (w : World) :
  state (readCurrentState_ chrome w)
  = state (recalcFormValues_ (active_window w) (after_reads chrome w)).
Proof.
  assert (Hsame : forall c : Config, {| proxy := proxy c; restrictRtc := restrictRtc c |} = c)
    by (intros []; reflexivity).
  unfold after_reads, loaded, taken, active_window.
  unfold readCurrentState_.
  cbv [bind emit gets modify ret generateAlert_ events outcome state
       with_isAllowedIncognitoAccess_ with_config].
  rewrite accessOk_run.
  destruct (unacceptable (levelOfControl (proxy_settings_get chrome false))) eqn:E1;
  cbv beta iota zeta;
  rewrite accessOk_run;
  destruct (unacceptable (levelOfControl (webRTCIPHandlingPolicy_get chrome false))) eqn:E2;
  cbv beta iota zeta;
  cbn [isAllowedIncognitoAccess_];
  (destruct (extension_isAllowedIncognitoAccess chrome) eqn:Ea;
   cbv beta iota zeta;
   [ rewrite accessOk_run;
     destruct (unacceptable (levelOfControl (proxy_settings_get chrome true))) eqn:E3;
     cbv beta iota zeta;
     rewrite accessOk_run;
     destruct (unacceptable (levelOfControl (webRTCIPHandlingPolicy_get chrome true))) eqn:E4;
     cbv beta iota zeta
   | ]);
  match goal with
  | |- context [isIncognitoMode_ ?s] =>
      change (isIncognitoMode_ s) with (isIncognitoMode_ w);
      destruct (isIncognitoMode_ w);
      cbv beta iota zeta
  end;
  cbn [set_proxy set_restrictRtc_of regularConfig_ incognitoConfig_ proxy restrictRtc
       isAllowedIncognitoAccess_ header_ form_ document];
  rewrite ?Hsame;
  match goal with
  | |- snd (fst ?L) = snd (fst (recalcFormValues_ ?c ?s2)) =>
      match L with
      | context [recalcFormValues_ c ?s1] =>
          replace s1 with s2
            by (unfold set_proxy, set_restrictRtc_of; cbn; rewrite ?Hsame; reflexivity)
      end;
      destruct (recalcFormValues_ c s2) as [[r s''] ev]
  end;
  cbn [List.length app Nat.ltb Nat.leb];
  destruct r as [[]|e]; reflexivity.
Qed.

(** X13.  What a load stores, whether it returns or throws: the answer of
    the browser on the access to incognito settings; in the regular
    configuration, each of the two properties whose read is accepted, the
    other ones being left as they were; the same in the incognito
    configuration when the access is allowed, and nothing there when it is
    not.  The configuration of the profile that the form shows is then
    normalized by the rendering. *)
Theorem readCurrentState_configs (chrome : Chrome) (w : World) :
  isAllowedIncognitoAccess_ (state (readCurrentState_ chrome w))
  = extension_isAllowedIncognitoAccess chrome
  /\ forall which,
       config_of which (state (readCurrentState_ chrome w)) =
         if window_eqb which (active_window w)
         then normalized (loaded chrome which w)
         else loaded chrome which w.
Proof.
  rewrite readCurrentState_state. split.
  - pose proof (recalcFormValues_controller_frame (active_window w)
                  (after_reads chrome w)) as H.
    unfold controller_frame in H. injection H as _ _ H. exact H.
  - intros which. rewrite recalcFormValues_configs.
    destruct which, (active_window w); reflexivity.
Qed.



(** ** Applying the form, beyond the regular failure *)

(** X15.  In a run of [applyChanges_] in which the extraction returns and no
    write fails, the click is cancelled, the pending error is cleared, the
    regular configuration is written to the regular scope (proxy settings,
    then RTC policy), then the incognito configuration to the incognito
    scope if and only if it has proxy settings, and the window is closed as
    the last action; no alert is shown. *)
Theorem applyChanges_success (chrome : Chrome) (w : World) (c : option ProxyConfig) :
  generateProxyConfig_ (document w) = Return c ->
  existsb is_write_failure (events (applyChanges_ chrome w)) = false ->
  outcome (applyChanges_ chrome w) = Return tt
  /\ events (applyChanges_ chrome w) =
       ([PreventDefault; StopPropagation; SendMessage "clearError";
         ProxySet regular_only
           (proxy (regularConfig_ (state (applyChanges_ chrome w)))) true;
         RtcSet regular_only
           (restrictRtc (regularConfig_ (state (applyChanges_ chrome w)))) true]
        ++ match proxy (incognitoConfig_ (state (applyChanges_ chrome w))) with
           | Some _ =>
               [ProxySet incognito_persistent
                  (proxy (incognitoConfig_ (state (applyChanges_ chrome w)))) true;
                RtcSet incognito_persistent
                  (restrictRtc (incognitoConfig_ (state (applyChanges_ chrome w)))) true]
           | None => []
           end
        ++ [WindowClose])%list.
Proof.
  intros Hc.
  cbv [applyChanges_ save_form_into bind emit gets modify of_outcome ret
       events outcome state].
  rewrite Hc.
  match goal with
  | |- context [write_pair chrome regular_only REGULAR _ ?w1] =>
      generalize w1; intros s
  end.
  rewrite write_pair_run.
  destruct (proxy_settings_set chrome regular_only _) eqn:Hproxy;
    [destruct (webRTCIPHandlingPolicy_set chrome regular_only _) eqn:Hrtc|];
    try discriminate.
  cbv beta iota zeta.
  destruct (proxy (incognitoConfig_ s)) as [p|] eqn:Hp.
  - rewrite write_pair_run.
    destruct (proxy_settings_set chrome incognito_persistent _);
      [destruct (webRTCIPHandlingPolicy_set chrome incognito_persistent _)|];
      try discriminate.
    intros _. cbn. rewrite Hp. split; reflexivity.
  - intros _. cbn. rewrite Hp. split; reflexivity.
Qed.

(** The form of the page [popup] applied on a browser that accepts the
    writes; the controller has no incognito configuration. *)
Lemma applyChanges_success_witness :
  events (applyChanges_ chrome_granting popup_world) =
    [PreventDefault; StopPropagation; SendMessage "clearError";
     ProxySet regular_only
       (Some {| mode := "system"; pacScript := None; rules := None |}) true;
     RtcSet regular_only (Some "default") true;
     WindowClose].
Proof.
  exact (proj2 (applyChanges_success chrome_granting popup_world
                  (Some {| mode := "system"; pacScript := None; rules := None |})
                  eq_refl eq_refl)).
Defined.

(** X16.  In every run of [applyChanges_] in which a write to the incognito
    scope fails, the two writes to the regular scope have been made and
    have succeeded; the run returns with the alert of the message
    [errorSettingIncognitoProxy] as its last action, after no other alert,
    and does not close the window. *)
Theorem applyChanges_incognito_failure (chrome : Chrome) (w : World) :
  existsb is_incognito_write_failure (events (applyChanges_ chrome w)) = true ->
  outcome (applyChanges_ chrome w) = Return tt
  /\ (exists v r rest,
        events (applyChanges_ chrome w) =
          ([PreventDefault; StopPropagation; SendMessage "clearError";
            ProxySet regular_only v true; RtcSet regular_only r true]
           ++ rest
           ++ [Alert (i18n_getMessage chrome "errorSettingIncognitoProxy")])%list
        /\ existsb is_alert rest = false)
  /\ existsb is_window_close (events (applyChanges_ chrome w)) = false.
Proof.
  cbv [applyChanges_ save_form_into bind emit gets modify of_outcome ret
       events outcome].
  destruct (generateProxyConfig_ (document w)) as [c|e]; [|discriminate].
  match goal with
  | |- context [write_pair chrome regular_only REGULAR _ ?w1] =>
      generalize w1; intros s
  end.
  rewrite write_pair_run.
  destruct (proxy_settings_set chrome regular_only _) eqn:Hproxy;
    [destruct (webRTCIPHandlingPolicy_set chrome regular_only _) eqn:Hrtc|];
    try discriminate.
  cbv beta iota zeta.
  destruct (proxy (incognitoConfig_ s)) as [p|]; [|discriminate].
  rewrite write_pair_run.
  destruct (proxy_settings_set chrome incognito_persistent _);
    [destruct (webRTCIPHandlingPolicy_set chrome incognito_persistent _)|];
    try discriminate; intros _; (split; [reflexivity|]);
    (split; [|reflexivity]).
  - do 2 eexists. eexists [_; _]. split; reflexivity.
  - do 2 eexists. eexists [_]. split; reflexivity.
Qed.

(** The form applied on a browser that refuses the writes of the incognito
    scope, by a controller that has an incognito configuration. *)
Lemma applyChanges_incognito_failure_witness :
  outcome (applyChanges_ chrome_incognito_refusing both_world) = Return tt
  /\ existsb is_window_close
       (events (applyChanges_ chrome_incognito_refusing both_world)) = false.
Proof.
  destruct (applyChanges_incognito_failure chrome_incognito_refusing both_world
              eq_refl) as [H1 [_ H2]].
  split; assumption.
Defined.

(** The controller after [applyChanges_], when the extraction returns. *)
Lemma applyChanges_state (chrome : Chrome) (w : World)
  (c : option ProxyConfig) :
  generateProxyConfig_ (document w) = Return c ->
  outcome (applyChanges_ chrome w) = Return tt
  /\ state (applyChanges_ chrome w) =
       with_config (active_window w)
         {| proxy := c; restrictRtc := Some (get_restrictRtc (document w)) |} w.
Proof.
  intros Hc.
  cbv [applyChanges_ save_form_into bind emit gets modify of_outcome ret
       events outcome state].
  rewrite Hc.
  match goal with
  | |- context [write_pair chrome regular_only REGULAR _ ?w1] =>
      assert (Hs : w1 = with_config (active_window w)
         {| proxy := c; restrictRtc := Some (get_restrictRtc (document w)) |} w);
      [|rewrite Hs; generalize (with_config (active_window w)
         {| proxy := c; restrictRtc := Some (get_restrictRtc (document w)) |} w); intros s]
  end.
  { destruct (active_window w); reflexivity. }
  rewrite write_pair_run.
  destruct (proxy_settings_set chrome regular_only _) eqn:Hproxy;
    [destruct (webRTCIPHandlingPolicy_set chrome regular_only _) eqn:Hrtc|];
    cbv beta iota zeta; try (split; reflexivity).
  destruct (proxy (incognitoConfig_ s)) as [p|]; [|split; reflexivity].
  rewrite write_pair_run.
  destruct (proxy_settings_set chrome incognito_persistent _);
    [destruct (webRTCIPHandlingPolicy_set chrome incognito_persistent _)|];
    split; reflexivity.
Qed.

(** X17.  Whatever the browser answers to the writes, a run of
    [applyChanges_] in which the extraction returns also returns, and it
    changes the controller in one place only: the configuration of the
    profile that the form shows now holds the extracted proxy settings and
    the RTC policy of the form.  The configuration of the other profile,
    the page and the other properties of the controller are as they
    were. *)
Theorem applyChanges_stores_form (chrome : Chrome) (w : World)
  (c : option ProxyConfig) :
  generateProxyConfig_ (document w) = Return c ->
  outcome (applyChanges_ chrome w) = Return tt
  /\ config_of (active_window w) (state (applyChanges_ chrome w)) =
       {| proxy := c; restrictRtc := Some (get_restrictRtc (document w)) |}
  /\ config_of (other_window (active_window w)) (state (applyChanges_ chrome w))
     = config_of (other_window (active_window w)) w
  /\ document (state (applyChanges_ chrome w)) = document w
  /\ controller_frame (state (applyChanges_ chrome w)) = controller_frame w.
Proof.
  intros Hc.
  destruct (applyChanges_state chrome w c Hc) as [Hout Hst].
  split; [exact Hout|]. rewrite Hst.
  destruct (active_window w); repeat split; reflexivity.
Qed.

(** The form of the page [popup], which shows the system mode, applied by a
    controller whose regular configuration held the direct mode. *)
Lemma applyChanges_stores_form_witness :
  regularConfig_ (state (applyChanges_ chrome_refusing popup_world)) =
    {| proxy := Some {| mode := "system"; pacScript := None; rules := None |};
       restrictRtc := Some "default" |}
  /\ document (state (applyChanges_ chrome_refusing popup_world)) = popup.
Proof.
  destruct (applyChanges_stores_form chrome_refusing popup_world
              (Some {| mode := "system"; pacScript := None; rules := None |})
              eq_refl) as [_ [H1 [_ [H2 _]]]].
  split; assumption.
Defined.

(** X18.  On a page without an active group, a click on the Apply button
    and, when the access to incognito settings is allowed, a click on the
    button that switches the profile both stop at the extraction with a
    [TypeError], once the click has been cancelled: nothing is sent to the
    browser and neither the controller nor the page is changed. *)
Theorem no_active_group_stops_the_click (chrome : Chrome) (w : World) :
  Forall (fun el => active el = false) (configGroups (document w)) ->
  applyChanges_ chrome w = (Throw TypeError, w, [PreventDefault; StopPropagation])
  /\ (isAllowedIncognitoAccess_ w = true ->
      toggleIncognitoMode_ w =
        (Throw TypeError, w, [PreventDefault; StopPropagation])).
Proof.
  intros H.
  assert (Hf : first_active (document w) = None).
  { unfold first_active. induction H as [|el els Hel _ IH]; simpl; [reflexivity|].
    rewrite Hel. exact IH. }
  split.
  - cbv [applyChanges_ save_form_into bind emit gets modify of_outcome ret].
    unfold generateProxyConfig_. rewrite Hf. reflexivity.
  - intros Hallowed.
    cbv [toggleIncognitoMode_ save_form_into bind emit gets modify of_outcome ret].
    rewrite Hallowed. cbn [negb].
    destruct (isIncognitoMode_ w);
      unfold generateProxyConfig_; rewrite Hf; reflexivity.
Qed.

(** The two clicks on the page [idle_popup]. *)
Lemma no_active_group_stops_the_click_witness :
  applyChanges_ chrome_granting idle_world
  = (Throw TypeError, idle_world, [PreventDefault; StopPropagation])
  /\ toggleIncognitoMode_ idle_world
     = (Throw TypeError, idle_world, [PreventDefault; StopPropagation]).
Proof.
  destruct (no_active_group_stops_the_click chrome_granting idle_world)
    as [H1 H2].
  - repeat constructor.
  - split; [exact H1 | exact (H2 eq_refl)].
Defined.

(** ** A load followed by Apply *)

Lemma recalcFormValues_restrictRtc (config : WindowTypes) (w : World)
  (c : ProxyConfig) (r : string) :
  Forall has_radio (configGroups (document w)) ->
  proxy (config_of config w) = Some c ->
  restrictRtc (config_of config w) = Some r ->
  restrictRtc_checked (document (state (recalcFormValues_ config w)))
  = (r =? RestrictRtcTypes.RESTRICT).
Proof.
  intros H Hc Hr. unfold recalcFormValues_, state.
  cbv [bind gets modify on_document emit].
  rewrite Hc, Hr.
  assert (Hdoc : forall c0, document (with_config config c0 w) = document w)
    by (intros; destruct config; reflexivity).
  rewrite Hdoc.
  destruct (changeActive_total
              (getFieldsetById
                 (mode (if mode c =? "auto_detect" then set_mode "pac_script" c else c))
                 (configGroups (document w)))
              (document w) H) as [d' Hd].
  rewrite Hd. reflexivity.
Qed.

(** X19.  The form shows the RTC policy as one box, so that a policy of the
    browser other than [disable_non_proxied_udp] is not kept.  Take a form
    whose groups all have their radio, on a page that shows the regular
    profile, and a browser that accepts the read of the regular proxy
    settings and that of the regular policy, a policy other than
    [disable_non_proxied_udp].  When the extraction of the form after the
    load returns a configuration, and the browser accepts the write of that
    configuration to the regular scope, then the controller holds the
    policy of the browser after the load, and the click on Apply that
    follows writes the policy [default] to the regular scope. *)
Theorem load_then_apply_rewrites_policy (chrome : Chrome) (w : World)
  (c : option ProxyConfig) :
  Forall has_radio (configGroups (document w)) ->
  isIncognitoMode_ w = false ->
  unacceptable (levelOfControl (proxy_settings_get chrome false)) = false ->
  unacceptable (levelOfControl (webRTCIPHandlingPolicy_get chrome false)) = false ->
  value (webRTCIPHandlingPolicy_get chrome false) <> RestrictRtcTypes.RESTRICT ->
  generateProxyConfig_ (document (state (readCurrentState_ chrome w))) = Return c ->
  proxy_settings_set chrome regular_only c = true ->
  restrictRtc (regularConfig_ (state (readCurrentState_ chrome w)))
  = Some (value (webRTCIPHandlingPolicy_get chrome false))
  /\ In (RtcSet regular_only (Some RestrictRtcTypes.DEFAULT)
           (webRTCIPHandlingPolicy_set chrome regular_only
              (Some RestrictRtcTypes.DEFAULT)))
       (events (applyChanges_ chrome (state (readCurrentState_ chrome w)))).
Proof.
  intros Hform Hreg E1 E2 Hpol Hgen Hset.
  assert (Hact : active_window w = REGULAR)
    by (unfold active_window; rewrite Hreg; reflexivity).
  assert (Hp : proxy (config_of REGULAR (after_reads chrome w))
               = Some (value (proxy_settings_get chrome false)))
    by (cbn; unfold taken; rewrite E1; reflexivity).
  assert (Hr : restrictRtc (config_of REGULAR (after_reads chrome w))
               = Some (value (webRTCIPHandlingPolicy_get chrome false)))
    by (cbn; unfold taken; rewrite E2; reflexivity).
  rewrite readCurrentState_state, Hact in *.
  pose proof (recalcFormValues_restrictRtc REGULAR (after_reads chrome w) _ _
                Hform Hp Hr) as Hbox.
  pose proof (recalcFormValues_page_frame REGULAR (after_reads chrome w)) as Hpage.
  pose proof (recalcFormValues_configs REGULAR (after_reads chrome w) REGULAR) as Hcfg.
  set (w1 := state (recalcFormValues_ REGULAR (after_reads chrome w))) in *.
  apply String.eqb_neq in Hpol. rewrite Hpol in Hbox.
  split.
  { change (regularConfig_ w1) with (config_of REGULAR w1).
    rewrite Hcfg. cbn [config_of with_config regularConfig_].
    cbn [config_of] in Hp, Hr.
    unfold normalized. rewrite Hp, Hr. exact Hr. }
  assert (Hmode : active_window w1 = REGULAR).
  { unfold active_window, isIncognitoMode_.
    unfold page_frame in Hpage. injection Hpage as _ Hi _ _.
    rewrite Hi. cbn. unfold isIncognitoMode_ in Hreg. rewrite Hreg. reflexivity. }
  clearbody w1.
  cbv [applyChanges_ save_form_into bind emit gets modify of_outcome ret
       events outcome].
  rewrite Hgen, Hmode.
  rewrite write_pair_run.
  cbn [config_of with_config regularConfig_ proxy restrictRtc set_proxy
       set_restrictRtc_of document].
  unfold get_restrictRtc. rewrite Hbox, Hset.
  destruct (webRTCIPHandlingPolicy_set chrome regular_only _);
    cbv beta iota zeta; cbn [snd app In]; auto 10.
  match goal with
  | |- context [match ?x with Some _ => _ | None => _ end] => destruct x
  end.
  - rewrite write_pair_run.
    destruct (proxy_settings_set chrome incognito_persistent _);
      [destruct (webRTCIPHandlingPolicy_set chrome incognito_persistent _)|];
      cbn [snd app In]; auto 10.
  - cbn [snd app In]; auto 10.
Qed.

(** A browser whose policy is [default_public_interface_only]: the policy
    is taken by the load and replaced by Apply. *)
Lemma load_then_apply_rewrites_policy_witness :
  restrictRtc (regularConfig_ (state (readCurrentState_ chrome_granting popup_world)))
  = Some "default_public_interface_only"
  /\ In (RtcSet regular_only (Some "default") true)
       (events (applyChanges_ chrome_granting
                  (state (readCurrentState_ chrome_granting popup_world)))).
Proof.
  refine (load_then_apply_rewrites_policy chrome_granting popup_world
            (Some direct_config) popup_has_radios eq_refl eq_refl eq_refl _
            eq_refl eq_refl).
  discriminate.
Defined.

(** ** Switching profiles with the permission *)

(** X20.  When the access to incognito settings is allowed, on a page whose
    groups all have their radio and that has its button and its header, a
    switch of profile with a form that can be extracted returns.  The form
    is stored in the configuration of the profile that was shown, the other
    profile is the one shown afterwards and its configuration is only
    normalized, the button and the header name the new state, and nothing
    reaches the browser: no read, no write, no alert. *)
Theorem toggleIncognitoMode_switch (w : World) (c : option ProxyConfig)
  (b : string) (h : Element) :
  isAllowedIncognitoAccess_ w = true ->
  generateProxyConfig_ (document w) = Return c ->
  Forall has_radio (configGroups (document w)) ->
  button_innerText (document w) = Some b ->
  header_ w = Some h ->
  outcome (toggleIncognitoMode_ w) = Return tt
  /\ active_window (state (toggleIncognitoMode_ w)) = other_window (active_window w)
  /\ config_of (active_window w) (state (toggleIncognitoMode_ w)) =
       {| proxy := c; restrictRtc := Some (get_restrictRtc (document w)) |}
  /\ config_of (other_window (active_window w)) (state (toggleIncognitoMode_ w)) =
       normalized (config_of (other_window (active_window w)) w)
  /\ button_innerText (document (state (toggleIncognitoMode_ w))) =
       Some (match active_window w with
             | REGULAR => "Configure regular window settings."
             | INCOGNITO => "Configure incognito window settings."
             end)
  /\ header_innerHTML (document (state (toggleIncognitoMode_ w))) =
       match active_window w with
       | REGULAR => "Proxy Configuration (incognito)"
       | INCOGNITO => "Proxy Configuration (regular)"
       end
  /\ forallb is_local (events (toggleIncognitoMode_ w)) = true.
Proof.
  intros Hallowed Hc Hform Hb Hh.
  unfold active_window at 2 3 4 5 6.
  unfold toggleIncognitoMode_.
  cbv [bind emit gets modify ret generateAlert_ events outcome state
       save_form_into of_outcome on_document].
  rewrite Hallowed. cbv beta iota zeta. cbn [negb].
  destruct (isIncognitoMode_ w) eqn:Hi; rewrite Hc; cbv beta iota zeta;
  match goal with
  | |- context [recalcFormValues_ ?cfg ?s] =>
      assert (Hs : Forall has_radio (configGroups (document s)))
        by (cbn; exact Hform);
      destruct (recalcFormValues_log cfg s Hs) as [w' [ev [Hrun [_ [Hq _]]]]];
      pose proof (recalcFormValues_page_frame cfg s) as Hpage;
      pose proof (recalcFormValues_controller_frame cfg s) as Hctl;
      pose proof (recalcFormValues_configs cfg s) as Hcfg;
      rewrite Hrun in Hpage, Hctl, Hcfg |- *;
      unfold state in Hpage, Hctl, Hcfg; cbn [fst snd] in Hpage, Hctl, Hcfg
  end.
  all: unfold page_frame, controller_frame in Hpage, Hctl.
  all: cbn in Hpage, Hctl.
  all: injection Hpage as Hel Hinc Hbut Hhd.
  all: injection Hctl as Hhdr Hfm Hal.
  all: pose proof (Hcfg REGULAR) as Hreg; pose proof (Hcfg INCOGNITO) as Hinco.
  all: cbn in Hreg, Hinco.
  all: unfold set_button_innerText, set_header_innerHTML.
  all: rewrite Hbut, Hb; cbn [with_document header_].
  all: rewrite Hhdr, Hh; cbn.
  all: unfold active_window, isIncognitoMode_ in *; cbn; rewrite Hinc, ?Hi.
  all: rewrite ?app_nil_r.
  all: repeat split; try reflexivity; try assumption.
Qed.

(** The switch to the incognito profile on the page [popup]. *)
Lemma toggleIncognitoMode_switch_witness :
  outcome (toggleIncognitoMode_ allowed_world) = Return tt
  /\ active_window (state (toggleIncognitoMode_ allowed_world)) = INCOGNITO.
Proof.
  destruct (toggleIncognitoMode_switch allowed_world
              (Some {| mode := "system"; pacScript := None; rules := None |})
              "Configure incognito window settings." {| nodeName := "H1" |}
              eq_refl eq_refl popup_has_radios eq_refl eq_refl)
    as [H1 [H2 _]].
  split; assumption.
Defined.

(** X21.  Take a controller that has the access to incognito settings and
    a header, on a page that has the button of the switch and a form whose
    extraction returns.  When the profile that a switch turns to has a
    configuration that lacks its proxy settings or its RTC policy (it was
    never read, or its read was refused), the switch returns and only logs
    an error in place of the rendering: the other profile is now the one
    shown, but the fields still hold the values of the profile that was
    left, so that the extraction gives the same configuration as before the
    switch, and a click on Apply then stores it as the proxy settings of
    the new profile. *)
Theorem toggleIncognitoMode_into_empty_profile (w : World)
  (c : option ProxyConfig) (b : string) (h : Element) :
  isAllowedIncognitoAccess_ w = true ->
  generateProxyConfig_ (document w) = Return c ->
  button_innerText (document w) = Some b ->
  header_ w = Some h ->
  proxy (config_of (other_window (active_window w)) w) = None
  \/ restrictRtc (config_of (other_window (active_window w)) w) = None ->
  outcome (toggleIncognitoMode_ w) = Return tt
  /\ events (toggleIncognitoMode_ w) =
       [PreventDefault; StopPropagation;
        ConsoleError "recalcFormValues_ missing data"]
  /\ active_window (state (toggleIncognitoMode_ w)) = other_window (active_window w)
  /\ generateProxyConfig_ (document (state (toggleIncognitoMode_ w))) = Return c
  /\ get_restrictRtc (document (state (toggleIncognitoMode_ w)))
     = get_restrictRtc (document w)
  /\ forall chrome,
       proxy (config_of (other_window (active_window w))
                (state (applyChanges_ chrome (state (toggleIncognitoMode_ w)))))
       = c.
Proof.
  intros Hallowed Hc Hb Hh Hnull.
  assert (Hrun : exists d',
    toggleIncognitoMode_ w =
      (Return tt,
       with_document d'
         (with_config (active_window w)
            {| proxy := c; restrictRtc := Some (get_restrictRtc (document w)) |} w),
       [PreventDefault; StopPropagation;
        ConsoleError "recalcFormValues_ missing data"])
    /\ d' = with_header_innerHTML (header_innerHTML d')
              (with_button_innerText (button_innerText d')
                 (with_incognito_class (negb (isIncognitoMode_ w)) (document w)))).
  { unfold active_window in *.
    unfold toggleIncognitoMode_.
    cbv [bind emit gets modify ret generateAlert_ events outcome state
         save_form_into of_outcome on_document].
    rewrite Hallowed. cbv beta iota zeta. cbn [negb].
    destruct (isIncognitoMode_ w) eqn:Hi; rewrite Hc; cbv beta iota zeta;
      unfold recalcFormValues_; cbv [bind gets emit];
      cbn [other_window config_of] in Hnull;
      cbn [config_of with_document with_config regularConfig_ incognitoConfig_
           document];
      (destruct Hnull as [Hn | Hn]; rewrite Hn;
       [|destruct (proxy _)]);
      unfold set_button_innerText, set_header_innerHTML;
      cbn [with_document with_config document with_incognito_class
           button_innerText header_];
      rewrite Hb; cbn [with_document with_config header_];
      rewrite Hh; cbn;
      eexists; (split; [reflexivity|]); reflexivity. }
  destruct Hrun as [d' [Hrun Hd']].
  rewrite Hrun. unfold outcome, events, state. cbn [fst snd].
  split; [reflexivity|]. split; [reflexivity|].
  assert (Hact : active_window
                   (with_document d'
                      (with_config (active_window w)
                         {| proxy := c;
                            restrictRtc := Some (get_restrictRtc (document w)) |} w))
                 = other_window (active_window w)).
  { unfold active_window, isIncognitoMode_. cbn [document with_document].
    rewrite Hd'. cbn [incognito_class with_header_innerHTML
                      with_button_innerText with_incognito_class].
    unfold isIncognitoMode_.
    destruct (incognito_class (document w)); reflexivity. }
  assert (Hgen : generateProxyConfig_ d' = Return c).
  { rewrite Hd'. exact Hc. }
  split; [exact Hact|].
  split; [exact Hgen|].
  split; [rewrite Hd'; reflexivity|].
  intros chrome.
  match goal with
  | |- context [applyChanges_ chrome ?s] =>
      destruct (applyChanges_state chrome s c Hgen) as [_ Hst];
      unfold state in Hst; rewrite Hst, Hact
  end.
  destruct (other_window (active_window w)); reflexivity.
Qed.

(** The switch to an incognito profile that was never read, and the Apply
    that follows: the system mode of the regular form becomes the incognito
    configuration. *)
Lemma toggleIncognitoMode_into_empty_profile_witness :
  generateProxyConfig_ (document (state (toggleIncognitoMode_ allowed_world)))
  = Return (Some {| mode := "system"; pacScript := None; rules := None |})
  /\ proxy (incognitoConfig_
              (state (applyChanges_ chrome_granting
                        (state (toggleIncognitoMode_ allowed_world)))))
     = Some {| mode := "system"; pacScript := None; rules := None |}.
Proof.
  destruct (toggleIncognitoMode_into_empty_profile allowed_world
              (Some {| mode := "system"; pacScript := None; rules := None |})
              "Configure incognito window settings." {| nodeName := "H1" |}
              eq_refl eq_refl eq_refl eq_refl (or_introl eq_refl))
    as [_ [_ [_ [H1 [_ H2]]]]].
  split; [exact H1 | exact (H2 chrome_granting)].
Defined.

(** X22.  A controller that was built with a header id that names nothing
    has no header.  When it has the access to incognito settings, on a page
    that has the button of the switch and a form whose groups all have
    their radio and whose extraction returns, its switch of profile fails
    at its last statement, with a [TypeError], after the switch has been
    made: the form has been stored, the other profile is the one shown, and
    the button has its new text, while the header keeps its old one. *)
Theorem toggleIncognitoMode_without_header (w : World) (c : option ProxyConfig)
  (b : string) :
  isAllowedIncognitoAccess_ w = true ->
  generateProxyConfig_ (document w) = Return c ->
  Forall has_radio (configGroups (document w)) ->
  button_innerText (document w) = Some b ->
  header_ w = None ->
  outcome (toggleIncognitoMode_ w) = Throw TypeError
  /\ active_window (state (toggleIncognitoMode_ w)) = other_window (active_window w)
  /\ config_of (active_window w) (state (toggleIncognitoMode_ w)) =
       {| proxy := c; restrictRtc := Some (get_restrictRtc (document w)) |}
  /\ button_innerText (document (state (toggleIncognitoMode_ w))) =
       Some (match active_window w with
             | REGULAR => "Configure regular window settings."
             | INCOGNITO => "Configure incognito window settings."
             end)
  /\ header_innerHTML (document (state (toggleIncognitoMode_ w)))
     = header_innerHTML (document w).
Proof.
  intros Hallowed Hc Hform Hb Hh.
  unfold active_window at 2 3 4.
  unfold toggleIncognitoMode_.
  cbv [bind emit gets modify ret generateAlert_ events outcome state
       save_form_into of_outcome on_document].
  rewrite Hallowed. cbv beta iota zeta. cbn [negb].
  destruct (isIncognitoMode_ w) eqn:Hi; rewrite Hc; cbv beta iota zeta;
  match goal with
  | |- context [recalcFormValues_ ?cfg ?s] =>
      assert (Hs : Forall has_radio (configGroups (document s)))
        by (cbn; exact Hform);
      destruct (recalcFormValues_log cfg s Hs) as [w' [ev [Hrun _]]];
      pose proof (recalcFormValues_page_frame cfg s) as Hpage;
      pose proof (recalcFormValues_controller_frame cfg s) as Hctl;
      pose proof (recalcFormValues_configs cfg s) as Hcfg;
      rewrite Hrun in Hpage, Hctl, Hcfg |- *;
      unfold state in Hpage, Hctl, Hcfg; cbn [fst snd] in Hpage, Hctl, Hcfg
  end.
  all: unfold page_frame, controller_frame in Hpage, Hctl.
  all: cbn in Hpage, Hctl.
  all: injection Hpage as Hel Hinc Hbut Hhd.
  all: injection Hctl as Hhdr Hfm Hal.
  all: pose proof (Hcfg REGULAR) as Hreg; pose proof (Hcfg INCOGNITO) as Hinco.
  all: cbn in Hreg, Hinco.
  all: unfold set_button_innerText, set_header_innerHTML.
  all: rewrite Hbut, Hb; cbn [with_document header_].
  all: rewrite Hhdr, Hh; cbn.
  all: unfold active_window, isIncognitoMode_ in *; cbn; rewrite Hinc, ?Hi.
  all: repeat split; try reflexivity; try assumption.
Qed.

(** The switch by a controller without header. *)
Lemma toggleIncognitoMode_without_header_witness :
  outcome (toggleIncognitoMode_ headless_world) = Throw TypeError
  /\ active_window (state (toggleIncognitoMode_ headless_world)) = INCOGNITO.
Proof.
  destruct (toggleIncognitoMode_without_header headless_world
              (Some {| mode := "system"; pacScript := None; rules := None |})
              "Configure incognito window settings."
              eq_refl eq_refl popup_has_radios eq_refl eq_refl)
    as [H1 [H2 _]].
  split; assumption.
Defined.

(** ** The dispatch of a click *)

(** The walk stops at the group that holds the target. *)
Lemma walk_up_group (inner : list Node) (g form : Node) (outer : list Node) :
  node_nodeName g = "FIELDSET" ->
  node_nodeName form = "FORM" ->
  existsb is_form (inner ++ [g]) = false ->
  walk_up (inner ++ g :: form :: outer) = Some g.
Proof.
  intros Hg Hf.
  induction inner as [|x inner IH]; intros Hno.
  - simpl. rewrite Hg, Hf. reflexivity.
  - simpl in Hno. apply orb_false_elim in Hno. destruct Hno as [Hx Hno].
    specialize (IH Hno).
    cbn [app walk_up].
    assert (Hp : match (inner ++ g :: form :: outer)%list with
                 | p :: _ => node_nodeName p =? "FORM"
                 | [] => "#document" =? "FORM"
                 end = false).
    { destruct inner as [|y inner]; cbn [app].
      - simpl in Hno. apply orb_false_elim in Hno. exact (proj1 Hno).
      - simpl in Hno. apply orb_false_elim in Hno. exact (proj1 Hno). }
    rewrite Hp. cbn [negb]. rewrite orb_true_r. exact IH.
Qed.

(** X23.  A click in a group of the form activates that group.  Let the
    target lie in the group at position [n], a [FIELDSET] whose parent is
    the [FORM], with no [FORM] between the target and the group; let the
    click be none of the three special cases (not on a submit input, not on
    a checkbox whose third ancestor is active, not on a [BUTTON]); and let
    the group have its radio.  Then the dispatcher returns [false], sends
    nothing to the browser, leaves the controller as it is but for the
    page, and on the page the group at position [n] is the only active
    one. *)
Theorem dispatchFormClick_activates (chrome : Chrome) (e : Click) (w : World)
  (inner : list Node) (g form : Node) (outer : list Node)
  (n : nat) (el : Fieldset) :
  (target e :: ancestors e = inner ++ g :: form :: outer)%list ->
  node_nodeName g = "FIELDSET" ->
  node_id g = IsGroup n ->
  node_nodeName form = "FORM" ->
  existsb is_form (inner ++ [g]) = false ->
  is_input_of_type "submit" (target e) = false ->
  in_active_section e (document w) = Return false ->
  node_nodeName (target e) <> "BUTTON" ->
  nth_error (configGroups (document w)) n = Some el ->
  has_radio el ->
  exists d' el',
    dispatchFormClick_ chrome e w
    = (Return (ReturnedBoolean false), with_document d' w, [])
    /\ filter active (configGroups d') = [el']
    /\ nth_error (configGroups d') n = Some el'
    /\ fs_id el' = fs_id el.
Proof.
  intros Hchain Hg Hid Hform Hno Hsub Hsec Hbut Hnth Hrad.
  destruct (changeActive_returns (document w) n el Hnth Hrad) as [l [Hl Hrun]].
  unfold dispatchFormClick_.
  rewrite Hsub.
  cbv [bind of_outcome ret on_document].
  rewrite Hsec.
  apply String.eqb_neq in Hbut. rewrite Hbut.
  rewrite Hchain, (walk_up_group inner g form outer Hg Hform Hno).
  unfold as_fieldset. rewrite Hid, Hrun.
  do 2 eexists. split; [reflexivity|].
  unfold recalcDisabledInputs_; cbn [configGroups with_configGroups].
  fold recalc_group.
  split; [apply filter_active_activated|].
  split; [|reflexivity].
  rewrite (nth_error_activated n el l _ n Hnth), Nat.eqb_refl. reflexivity.
Qed.

(** A click on the field of the PAC URL of the page [popup], whose active
    group is the first one. *)
Lemma dispatchFormClick_activates_witness :
  exists d' el',
    dispatchFormClick_ chrome_granting click_on_pacURL popup_world
    = (Return (ReturnedBoolean false), with_document d' popup_world, [])
    /\ filter active (configGroups d') = [el']
    /\ fs_id el' = "pac_script".
Proof.
  destruct (dispatchFormClick_activates chrome_granting click_on_pacURL
              popup_world
              [target click_on_pacURL; plain_node "SECTION"]
              (group_node 2) (plain_node "FORM")
              [plain_node "DIV"; plain_node "BODY"; plain_node "HTML"]
              2
              {| fs_id := "pac_script"; active := false;
                 inputs := [radio_input; other_input; other_input] |}
              eq_refl eq_refl eq_refl eq_refl eq_refl eq_refl eq_refl)
    as [d' [el' [H1 [H2 [_ H3]]]]].
  - discriminate.
  - reflexivity.
  - reflexivity.
  - exists d', el'. repeat split; assumption.
Defined.

(** X24.  A click on a checkbox whose third ancestor is an active group is
    the second case of the dispatcher: it returns [undefined], sends
    nothing to the browser and changes nothing but, at most, the class
    [single]; when the second ancestor of the checkbox is the section of
    the single proxy box, that class is afterwards present exactly when the
    checkbox is checked. *)
Theorem dispatchFormClick_checkbox (chrome : Chrome) (e : Click) (w : World)
  (parent section a : Node) (outer : list Node) :
  is_input_of_type "checkbox" (target e) = true ->
  ancestors e = parent :: section :: a :: outer ->
  node_active a (document w) = true ->
  exists d',
    dispatchFormClick_ chrome e w
    = (Return ReturnedUndefined, with_document d' w, [])
    /\ with_single_class (single_class (document w)) d' = document w
    /\ (node_id section = IsSingleSection ->
        single_class d' = node_checked (target e) (document w)).
Proof.
  intros Hbox Hanc Hact.
  unfold dispatchFormClick_.
  assert (Hsub : is_input_of_type "submit" (target e) = false).
  { unfold is_input_of_type in *.
    destruct (node_nodeName (target e) =? "INPUT"); [|reflexivity].
    destruct (node_type (target e)) as [t|]; [|reflexivity].
    simpl in *. apply String.eqb_eq in Hbox. subst t. reflexivity. }
  rewrite Hsub.
  cbv [bind of_outcome ret on_document].
  unfold in_active_section, toggleSingleProxyConfig_.
  rewrite Hbox, Hanc. cbn [nth_error]. rewrite Hact.
  eexists. split; [reflexivity|].
  unfold set_node_single.
  destruct (node_id section); cbn;
    (split; [destruct (document w); reflexivity|]);
    try discriminate.
  reflexivity.
Qed.

(** A click on the single proxy box of the page [fixed_form], where the box
    is checked and the class is absent. *)
Lemma dispatchFormClick_checkbox_witness :
  exists d',
    dispatchFormClick_ chrome_granting click_on_single_box
      (with_document fixed_form popup_world)
    = (Return ReturnedUndefined,
       with_document d' (with_document fixed_form popup_world), [])
    /\ single_class fixed_form = false
    /\ single_class d' = true.
Proof.
  destruct (dispatchFormClick_checkbox chrome_granting click_on_single_box
              (with_document fixed_form popup_world)
              (plain_node "DIV")
              {| node_nodeName := "SECTION"; node_type := None;
                 node_id := IsSingleSection |}
              (group_node 3) above_the_form
              eq_refl eq_refl eq_refl)
    as [d' [H1 [_ H2]]].
  exists d'. split; [exact H1|]. split; [reflexivity | exact (H2 eq_refl)].
Defined.

(** X25.  A click that is none of the three special cases and whose target
    has no [FIELDSET] among itself and its ancestors falls off the top of
    the walk: the dispatcher returns [true] and nothing is changed nor
    sent. *)
Theorem dispatchFormClick_elsewhere (chrome : Chrome) (e : Click) (w : World) :
  is_input_of_type "submit" (target e) = false ->
  in_active_section e (document w) = Return false ->
  node_nodeName (target e) <> "BUTTON" ->
  Forall (fun x => node_nodeName x <> "FIELDSET") (target e :: ancestors e) ->
  dispatchFormClick_ chrome e w = (Return (ReturnedBoolean true), w, []).
Proof.
  intros Hsub Hsec Hbut Hno.
  unfold dispatchFormClick_.
  rewrite Hsub.
  cbv [bind of_outcome ret on_document].
  rewrite Hsec.
  apply String.eqb_neq in Hbut. rewrite Hbut.
  assert (Hw : walk_up (target e :: ancestors e) = None).
  { induction Hno as [|x l Hx _ IH]; [reflexivity|].
    cbn [walk_up]. apply String.eqb_neq in Hx. rewrite Hx. exact IH. }
  rewrite Hw. reflexivity.
Qed.

(** A click on a label of the form that is in no group. *)
Lemma dispatchFormClick_elsewhere_witness :
  dispatchFormClick_ chrome_granting click_on_label popup_world
  = (Return (ReturnedBoolean true), popup_world, []).
Proof.
  refine (dispatchFormClick_elsewhere chrome_granting click_on_label popup_world
            eq_refl eq_refl _ _).
  - discriminate.
  - repeat (constructor; [discriminate|]). constructor.
Defined.

(** X26.  Only a click on a submit input or on a [BUTTON] reaches the
    browser or the configurations.  Every other click, whether the
    dispatcher returns or throws, emits nothing (no read, no write, no
    alert), leaves the two configurations and the other properties of the
    controller as they are, and changes nothing on the page but, at most,
    the groups and the class [single]. *)
Theorem dispatchFormClick_local (chrome : Chrome) (e : Click) (w : World) :
  is_input_of_type "submit" (target e) = false ->
  node_nodeName (target e) <> "BUTTON" ->
  events (dispatchFormClick_ chrome e w) = []
  /\ with_document (document w) (state (dispatchFormClick_ chrome e w)) = w
  /\ with_single_class (single_class (document w))
       (with_configGroups (configGroups (document w))
          (document (state (dispatchFormClick_ chrome e w))))
     = document w.
Proof.
  intros Hsub Hbut.
  assert (Hw : forall d, with_document (document w) (with_document d w) = w)
    by (intros; destruct w; reflexivity).
  assert (Hd : with_single_class (single_class (document w))
                 (with_configGroups (configGroups (document w)) (document w))
               = document w)
    by (destruct (document w); reflexivity).
  unfold dispatchFormClick_.
  rewrite Hsub.
  cbv [bind of_outcome ret on_document events state].
  apply String.eqb_neq in Hbut. rewrite Hbut.
  destruct (in_active_section e (document w)) as [[|]|x]; cbn [fst snd].
  - unfold toggleSingleProxyConfig_.
    destruct (is_input_of_type "checkbox" (target e)).
    + destruct (nth_error (ancestors e) 1) as [section|]; cbn [fst snd].
      * split; [reflexivity|]. split; [apply Hw|].
        unfold set_node_single. destruct (node_id section); exact Hd.
      * split; [reflexivity|]. split; [apply Hw | exact Hd].
    + cbn [fst snd]. split; [reflexivity|]. split; [apply Hw | exact Hd].
  - destruct (walk_up (target e :: ancestors e)) as [t|]; cbn [fst snd].
    + unfold changeActive_.
      destruct (changeActive_loop (as_fieldset t) 0 (configGroups (document w)))
        as [[[]|x] els]; cbn [fst snd];
        (split; [reflexivity|]); (split; [apply Hw|]);
        destruct (document w); reflexivity.
    + split; [reflexivity|]. split; [destruct w; reflexivity | exact Hd].
  - split; [reflexivity|]. split; [destruct w; reflexivity | exact Hd].
Qed.

(** The click on the field of the PAC URL again. *)
Lemma dispatchFormClick_local_witness :
  events (dispatchFormClick_ chrome_granting click_on_pacURL popup_world) = []
  /\ regularConfig_
       (state (dispatchFormClick_ chrome_granting click_on_pacURL popup_world))
     = regularConfig_ popup_world.
Proof.
  destruct (dispatchFormClick_local chrome_granting click_on_pacURL popup_world
              eq_refl) as [H1 _].
  - discriminate.
  - split; [exact H1 | reflexivity].
Defined.
